(** * whoimportme: who imports a file or a directory

    A shallow embedding of the import-resolution engine of
    [src/resolver.ts] ([parseImports], [resolveImportPath],
    [findImporters], [findDirectoryImporters]), of the scanner of
    [src/scanner.ts], of the formatters of [src/output.ts] and of
    [validateArguments] and [main] of [src/cli.ts], together with the
    part of the Deno runtime they are written against (POSIX path
    functions, [existsSync], [Deno.statSync], [Deno.readTextFile], the
    directory walk, regular expressions, the console, [Deno.exit]).

    Conventions.
    - A JavaScript string is a Rocq [string]; its characters are code
      units below 256.
    - A function that may throw returns a [Completion]; console output is
      collected in a log, so an effectful function has type [M A].
    - The file system is a snapshot: [Host] gives the answer of every
      [stat] and of every read, independently of each other, so that a
      file may pass the existence check and still fail to be read. *)

From Stdlib Require Import String Ascii List Bool Arith NArith Lia.
From Stdlib Require Import Permutation Sorted DecimalString.
Import ListNotations.

Local Open Scope string_scope.
Local Open Scope list_scope.

Infix "+++" := String.append (at level 60, right associativity).

(** ** JavaScript strings *)

Module JsString.

(** [s.startsWith(p)] *)
Definition startsWith (s p : string) : bool := String.prefix p s.

(** [s.includes(sub)] *)
Fixpoint includes (s sub : string) : bool :=
  String.prefix sub s ||
  match s with
  | EmptyString => false
  | String _ r => includes r sub
  end.

(** [s.slice(n)] for [0 <= n] *)
Fixpoint slice (n : nat) (s : string) : string :=
  match n, s with
  | O, _ => s
  | S n', String _ r => slice n' r
  | S _, EmptyString => EmptyString
  end.

(** White space and line terminators, as [trim] and [\s] see them. *)
Definition isSpace (c : ascii) : bool :=
  let n := nat_of_ascii c in
  ((9 <=? n) && (n <=? 13) || (n =? 32) || (n =? 160))%nat.

Fixpoint trimStart (s : string) : string :=
  match s with
  | String c r => if isSpace c then trimStart r else s
  | EmptyString => EmptyString
  end.

(** Drops the trailing white space: a character is kept when something
    that is kept follows it, or when it is not white space. *)
Fixpoint trimEnd (s : string) : string :=
  match s with
  | EmptyString => EmptyString
  | String c r =>
      match trimEnd r with
      | EmptyString => if isSpace c then EmptyString else String c EmptyString
      | r' => String c r'
      end
  end.

(** [s.trim()] *)
Definition trim (s : string) : string := trimEnd (trimStart s).

(** [s.split(sep)] for a one-character separator: never empty. *)
Fixpoint split (sep : ascii) (s : string) : list string :=
  match s with
  | EmptyString => [EmptyString]
  | String c r =>
      if Ascii.eqb c sep then EmptyString :: split sep r
      else match split sep r with
           | [] => [String c EmptyString]
           | x :: xs => String c x :: xs
           end
  end.

(** [s.replace(/c/g, by)] for a one-character pattern [c] and a
    replacement without [$]. *)
Fixpoint replaceChar (c : ascii) (by_ : string) (s : string) : string :=
  match s with
  | EmptyString => EmptyString
  | String d r =>
      if Ascii.eqb d c then by_ +++ replaceChar c by_ r
      else String d (replaceChar c by_ r)
  end.

(** A string is truthy when it is not empty. *)
Definition truthy (s : string) : bool :=
  match s with EmptyString => false | _ => true end.

Fixpoint endsWithChar (c : ascii) (s : string) : bool :=
  match s with
  | EmptyString => false
  | String d EmptyString => Ascii.eqb d c
  | String _ r => endsWithChar c r
  end.

End JsString.

(** ** Regular expressions

    A backtracking matcher with the priorities of the ECMAScript
    semantics: alternatives left to right, a greedy star tries one more
    iteration first, a lazy star tries to stop first, and an iteration of
    a star that consumes nothing is rejected.  The continuation receives
    what is left of the input and the value of capture group 1, the only
    group a pattern of this program reads. *)

Module RegExp.

Inductive regex : Type :=
| Eps
| Chr (p : ascii -> bool)
| Seq (r1 r2 : regex)
| Alt (r1 r2 : regex)
| Star (greedy : bool) (r : regex)
| Group (r : regex)
| Eol.

Fixpoint run {A : Type} (r : regex) (s : string) (cap : option string)
    (k : string -> option string -> option A) : option A :=
  match r with
  | Eps => k s cap
  | Chr p =>
      match s with
      | String c s' => if p c then k s' cap else None
      | EmptyString => None
      end
  | Seq r1 r2 => run r1 s cap (fun s' cap' => run r2 s' cap' k)
  | Alt r1 r2 =>
      match run r1 s cap k with
      | Some x => Some x
      | None => run r2 s cap k
      end
  | Star greedy r1 =>
      (fix loop (fuel : nat) (s : string) (cap : option string) : option A :=
         match fuel with
         | O => k s cap
         | S fuel' =>
             let again (_ : unit) :=
               run r1 s cap (fun s' cap' =>
                 if (String.length s' <? String.length s)%nat
                 then loop fuel' s' cap' else None) in
             if greedy then
               match again tt with
               | Some x => Some x
               | None => k s cap
               end
             else
               match k s cap with
               | Some x => Some x
               | None => again tt
               end
         end) (String.length s) s cap
  | Group r1 =>
      run r1 s cap (fun s' _ =>
        k s' (Some (String.substring 0 (String.length s - String.length s') s)))
  | Eol =>
      match s with
      | EmptyString => k s cap
      | String _ _ => None
      end
  end.

(** The number of capture groups: [match.length] is one more. *)
Fixpoint groups (r : regex) : nat :=
  match r with
  | Eps | Chr _ | Eol => 0
  | Seq r1 r2 | Alt r1 r2 => groups r1 + groups r2
  | Star _ r1 => groups r1
  | Group r1 => S (groups r1)
  end.

(** A compiled pattern; [anchored]: the pattern starts with [^]. *)
Record t : Type := mk { anchored : bool; body : regex }.

(** The result of a successful match. *)
Record MatchResult : Type := mkMatch {
  index : nat;            (* where the match starts *)
  matched : string;       (* match[0] *)
  capture1 : option string; (* match[1] *)
  rest : string           (* the input after the match *)
}.

Definition matchHere (r : regex) (i : nat) (s : string) : option MatchResult :=
  run r s None (fun s' cap =>
    Some (mkMatch i (String.substring 0 (String.length s - String.length s') s) cap s')).

(** Leftmost match: the start positions are tried from [i] on. *)
Fixpoint search (r : regex) (i : nat) (s : string) : option MatchResult :=
  match matchHere r i s with
  | Some m => Some m
  | None =>
      match s with
      | EmptyString => None
      | String _ s' => search r (S i) s'
      end
  end.

(** [s.match(re)] for a pattern without the [g] flag. *)
Definition exec (re : t) (s : string) : option MatchResult :=
  if anchored re then matchHere (body re) 0 s else search (body re) 0 s.

(** [re.test(s)] *)
Definition test (re : t) (s : string) : bool :=
  match exec re s with Some _ => true | None => false end.

(** [s.replace(re, empty)] for a pattern without the [g] flag. *)
Definition remove (re : t) (s : string) : string :=
  match exec re s with
  | Some m => String.substring 0 (index m) s +++ rest m
  | None => s
  end.

(** *** Pattern combinators *)

Definition chr (c : ascii) : regex := Chr (Ascii.eqb c).

Fixpoint lit (s : string) : regex :=
  match s with
  | EmptyString => Eps
  | String c r => Seq (chr c) (lit r)
  end.

Definition plus (r : regex) : regex := Seq r (Star true r).
Definition opt (r : regex) : regex := Alt r Eps.

Fixpoint alts (l : list string) : regex :=
  match l with
  | [] => Chr (fun _ => false)
  | [s] => lit s
  | s :: l' => Alt (lit s) (alts l')
  end.

Fixpoint seqs (l : list regex) : regex :=
  match l with
  | [] => Eps
  | [r] => r
  | r :: l' => Seq r (seqs l')
  end.

(** [\s] *)
Definition space : regex := Chr JsString.isSpace.

Definition isWordChar (c : ascii) : bool :=
  let n := nat_of_ascii c in
  ((48 <=? n) && (n <=? 57) || (65 <=? n) && (n <=? 90) ||
   (97 <=? n) && (n <=? 122) || (n =? 95))%nat.

(** [[\w$]] *)
Definition identChar : regex :=
  Chr (fun c => isWordChar c || Ascii.eqb c "$").

(** [.]: any character but a line terminator. *)
Definition dot : regex :=
  Chr (fun c => negb (Ascii.eqb c "010" || Ascii.eqb c "013")).

(** [[^c]] *)
Definition notChr (c : ascii) : regex := Chr (fun d => negb (Ascii.eqb d c)).

End RegExp.

(** *** [new RegExp(source)]

    The constructor is modelled on the fragment this program can build at
    run time: ordinary characters, identity escapes of punctuation, a
    leading [^] and [$].  A source with any other unescaped syntax
    character is outside the fragment and [construct] gives [None];
    [PatternFacts.construct_escaped] shows that the one place that builds a
    pattern at run time never leaves the fragment. *)

Module RegExpSource.
Import RegExp.

Definition memChar (c : ascii) (set : string) : bool :=
  existsb (Ascii.eqb c) (list_ascii_of_string set).

Definition isSyntaxChar (c : ascii) : bool := memChar c "^$\.*+?()[]{}|".

Definition isIdentityEscape (c : ascii) : bool :=
  isSyntaxChar c || memChar c "/-".

Fixpoint parseAtoms (src : string) : option regex :=
  match src with
  | EmptyString => Some Eps
  | String "\" EmptyString => None
  | String "\" (String c r) =>
      if isIdentityEscape c then option_map (Seq (chr c)) (parseAtoms r)
      else None
  | String "$" r => option_map (Seq Eol) (parseAtoms r)
  | String c r =>
      if isSyntaxChar c then None
      else option_map (Seq (chr c)) (parseAtoms r)
  end.

Definition construct (src : string) : option RegExp.t :=
  match src with
  | String "^" r => option_map (mk true) (parseAtoms r)
  | _ => option_map (mk false) (parseAtoms src)
  end.

End RegExpSource.

(** ** Completions, the console and the host *)

Inductive ErrorClass : Type :=
| NotFound            (* Deno.errors.NotFound *)
| PermissionDenied    (* Deno.errors.PermissionDenied *)
| TypeError
| SyntaxError
| GenericError.       (* Error, and every other class *)

Record JsError : Type := mkError { errClass : ErrorClass; message : string }.

Inductive Completion (A : Type) : Type :=
| Normal (a : A)
| Throw (e : JsError).
Arguments Normal {A} a.
Arguments Throw {A} e.

Inductive LogEntry : Type :=
| ConsoleWarn (args : list string)                (* console.warn(...args) *)
| ConsoleError (text : string) (err : JsError).   (* console.error(text, err) *)

Definition M (A : Type) : Type := (Completion A * list LogEntry)%type.

Definition ret {A} (a : A) : M A := (Normal a, []).
Definition throw {A} (e : JsError) : M A := (Throw e, []).
Definition lift {A} (c : Completion A) : M A := (c, []).
Definition warn (args : list string) : M unit := (Normal tt, [ConsoleWarn args]).
Definition logError (text : string) (e : JsError) : M unit :=
  (Normal tt, [ConsoleError text e]).

Definition bind {A B} (m : M A) (f : A -> M B) : M B :=
  match m with
  | (Normal a, l) => let '(r, l') := f a in (r, l ++ l')
  | (Throw e, l) => (Throw e, l)
  end.

(** [try { m } catch (e) { h e }] *)
Definition tryCatch {A} (m : M A) (h : JsError -> M A) : M A :=
  match m with
  | (Normal a, l) => (Normal a, l)
  | (Throw e, l) => let '(r, l') := h e in (r, l ++ l')
  end.

Notation "x <- m ;; k" := (bind m (fun x => k))
  (at level 61, m at next level, right associativity).
Notation "m ;;; k" := (bind m (fun _ => k))
  (at level 61, right associativity).

Definition isNotFound (e : JsError) : bool :=
  match errClass e with NotFound => true | _ => false end.

Definition isPermissionDenied (e : JsError) : bool :=
  match errClass e with PermissionDenied => true | _ => false end.

(** [import_map.json] and [tsconfig.json], as the interfaces [ImportMap]
    and [TsConfig] declare them.  An object is the list of its own
    properties in the order [Object.entries] enumerates them. *)

Record ImportMap : Type := mkImportMap {
  imports : option (list (string * string));
  scopes : option (list (string * list (string * string)))
}.

Record CompilerOptions : Type := mkCompilerOptions {
  baseUrl : option string;
  paths : option (list (string * list string))
}.

Record TsConfig : Type := mkTsConfig {
  compilerOptions : option CompilerOptions
}.

Record FileInfo : Type := mkFileInfo { isDirectory : bool }.

(** What the program asks of its environment. *)
Record Host : Type := mkHost {
  cwd : string;                                  (* Deno.cwd() *)
  statSync : string -> Completion FileInfo;      (* Deno.statSync *)
  readTextFile : string -> Completion string;    (* Deno.readTextFile *)
  readGranted : string -> bool;                  (* Deno.permissions.querySync *)
  parseImportMapJSON : string -> Completion ImportMap; (* JSON.parse, as ImportMap *)
  parseTsConfigJSON : string -> Completion TsConfig;   (* JSON.parse, as TsConfig *)
  localeCompare : string -> string -> comparison (* sign of a.localeCompare(b) *)
}.

(** ** std/path, POSIX flavour

    The functions of the library the resolver calls, after their
    documented behaviour, computed on the segments of a path. *)

Module Path.

Definition pushSegment (allowAboveRoot : bool) (stack : list string)
    (seg : string) : list string :=
  if (seg =? "")%string || (seg =? ".")%string then stack
  else if (seg =? "..")%string then
    match stack with
    | top :: below =>
        if (top =? "..")%string
        then (if allowAboveRoot then ".." :: stack else stack)
        else below
    | [] => if allowAboveRoot then [".."] else []
    end
  else seg :: stack.

(** Resolves [.] and [..] segments and drops empty ones; the result has
    neither a leading nor a trailing separator. *)
Definition normalizeString (path : string) (allowAboveRoot : bool) : string :=
  String.concat "/"
    (rev (fold_left (pushSegment allowAboveRoot) (JsString.split "/" path) [])).

Definition isAbsolute (path : string) : bool := JsString.startsWith path "/".

(** The right-to-left loop of [resolve]: segments are prepended until
    one of them is absolute. *)
Fixpoint gather (fromRight : list string) (acc : string) : string * bool :=
  match fromRight with
  | [] => (acc, false)
  | p :: more =>
      if JsString.truthy p then
        let acc' := p +++ "/" +++ acc in
        if isAbsolute p then (acc', true) else gather more acc'
      else gather more acc
  end.

(** [resolve(...pathSegments)]; the working directory comes last. *)
Definition resolve (h : Host) (pathSegments : list string) : string :=
  let '(joined, absolute) := gather (rev pathSegments ++ [cwd h]) "" in
  let n := normalizeString joined (negb absolute) in
  if absolute then (if JsString.truthy n then "/" +++ n else "/")
  else (if JsString.truthy n then n else ".").

(** [normalize(path)] *)
Definition normalize (path : string) : string :=
  if JsString.truthy path then
    let absolute := isAbsolute path in
    let n := normalizeString path (negb absolute) in
    let n := if negb (JsString.truthy n) && negb absolute then "." else n in
    let n := if JsString.truthy n && JsString.endsWithChar "/" path
             then n +++ "/" else n in
    if absolute then "/" +++ n else n
  else ".".

(** [join(...paths)] *)
Definition join (paths : list string) : string :=
  match filter JsString.truthy paths with
  | [] => "."
  | parts => normalize (String.concat "/" parts)
  end.

Definition isSep (c : ascii) : bool := Ascii.eqb c "/".

Fixpoint dropWhile {A} (p : A -> bool) (l : list A) : list A :=
  match l with
  | x :: l' => if p x then dropWhile p l' else l
  | [] => []
  end.

(** [dirname(path)]: the trailing separators and the last component are
    dropped; the separator at index 0 is never taken as the cut. *)
Definition dirname (path : string) : string :=
  match path with
  | EmptyString => "."
  | String first _ =>
      let backwards := rev (list_ascii_of_string path) in
      let upToCut := dropWhile (fun c => negb (isSep c)) (dropWhile isSep backwards) in
      match upToCut with
      | [] | [_] => if isSep first then "/" else "."
      | _ :: before =>
          match dropWhile isSep before with
          | [] => "/"
          | kept => string_of_list_ascii (rev kept)
          end
      end
  end.

Definition components (absolutePath : string) : list string :=
  filter JsString.truthy (JsString.split "/" absolutePath).

Fixpoint dropCommon (a b : list string) : list string * list string :=
  match a, b with
  | x :: a', y :: b' => if (x =? y)%string then dropCommon a' b' else (a, b)
  | _, _ => (a, b)
  end.

(** [relative(from, to)]: one [..] for each component of [from] below
    the common ancestor, then what is left of [to]. *)
Definition relative (h : Host) (from to : string) : string :=
  let '(up, down) := dropCommon (components (resolve h [from]))
                                (components (resolve h [to])) in
  String.concat "/" (map (fun _ => "..") up ++ down).

End Path.

(** ** std/fs *)

(** [existsSync(path)]: a [NotFound] answer of [stat] is a no, a
    [PermissionDenied] raised by the file system (read permission being
    granted) is a yes, every other error is thrown again. *)
Definition existsSync (h : Host) (path : string) : Completion bool :=
  match statSync h path with
  | Normal _ => Normal true
  | Throw e =>
      if isNotFound e then Normal false
      else if isPermissionDenied e && readGranted h path then Normal true
      else Throw e
  end.

(** ** The data of [resolver.ts] and [output.ts] *)

Inductive ImportType : Type := es6 | commonjs.

Module ImportStatement.
Record t : Type := mk {
  type : ImportType;
  module : string;
  isDynamic : bool;
  lineNumber : nat
}.
End ImportStatement.

Module ResolvedImport.
Record t : Type := mk {
  sourceFile : string;
  importPath : string;
  resolvedPath : string;
  lineNumber : nat
}.
End ResolvedImport.

Module Importer.
Record t : Type := mk {
  sourceFile : string;
  importPath : string;
  lineNumber : nat
}.
End Importer.

Module ImportGroup.
Record t : Type := mk {
  importedFile : string;
  importers : list Importer.t
}.
End ImportGroup.

Module DirectoryImporterResult.
Record t : Type := mk {
  target : string;
  root : string;
  count : nat;
  groups : list ImportGroup.t
}.
End DirectoryImporterResult.

(** ** [parseImports] *)

Module Extractor.
Import RegExp.

Definition quote : regex :=
  Chr (fun c => Ascii.eqb c "034" || Ascii.eqb c "039").

(** [(.*?(?:\.(?:js|jsx|ts|tsx|mjs|cjs))?)] *)
Definition specifier : regex :=
  Group (Seq (Star false dot)
             (opt (Seq (chr ".") (alts ["js"; "jsx"; "ts"; "tsx"; "mjs"; "cjs"])))).

(** a quote, the specifier group, a quote; either quote character
    stands at either side *)
Definition quoted : regex := seqs [quote; specifier; quote].

Definition ws : regex := Star true space.          (* \s* *)
Definition ws1 : regex := plus space.              (* \s+ *)
Definition ident : regex := plus identChar.        (* [\w$]+ *)
Definition braces : regex :=                       (* {[^}]*} *)
  seqs [chr "{"; Star true (notChr "}"); chr "}"].
Definition declarator : regex := alts ["const"; "let"; "var"].
Definition requireCall : regex :=                  (* require\( QUOTED \) *)
  seqs [lit "require("; quoted; chr ")"].

(** [^\s*import\s+{[^}]*}\s+from\s+ QUOTED \s*;] *)
Definition namedImportPattern : RegExp.t :=
  mk true (seqs [ws; lit "import"; ws1; braces; ws1; lit "from"; ws1;
                 quoted; ws; chr ";"]).

Definition es6ImportPatterns : list RegExp.t :=
  [ (* import x from './file' *)
    mk true (seqs [ws; lit "import"; ws1; ident; ws1; lit "from"; ws1;
                   quoted; ws; chr ";"]);
    (* import { x } from './file' *)
    namedImportPattern;
    (* import * as x from './file' *)
    mk true (seqs [ws; lit "import"; ws1; chr "*"; ws1; lit "as"; ws1; ident;
                   ws1; lit "from"; ws1; quoted; ws; chr ";"]);
    (* import './file' *)
    mk true (seqs [ws; lit "import"; ws1; quoted; ws; chr ";"]);
    (* import x, { y } from './file' *)
    mk true (seqs [ws; lit "import"; ws1; ident; chr ","; ws; braces; ws1;
                   lit "from"; ws1; quoted; ws; chr ";"]);
    (* import type { x } from './file' *)
    mk true (seqs [ws; lit "import"; ws1; lit "type"; ws1; braces; ws1;
                   lit "from"; ws1; quoted; ws; chr ";"]) ].

Definition cjsRequirePatterns : list RegExp.t :=
  [ (* const x = require('./file') *)
    mk false (seqs [declarator; ws1; ident; ws; chr "="; ws; requireCall]);
    (* const { x } = require('./file') *)
    mk false (seqs [declarator; ws1; braces; ws; chr "="; ws; requireCall]);
    (* const x = require('./file').something *)
    mk false (seqs [declarator; ws1; ident; ws; chr "="; ws; requireCall;
                    chr "."; ident]);
    (* require('./file') *)
    mk false requireCall;
    (* import x = require('./file') *)
    mk false (seqs [lit "import"; ws1; ident; ws; chr "="; ws; requireCall]) ].

(** [import\( QUOTED \)] *)
Definition dynamicImportPattern : RegExp.t :=
  mk false (seqs [lit "import("; quoted; chr ")"]).

(** [match[1]] of the first pattern of the list that matches. *)
Fixpoint firstMatch (patterns : list RegExp.t) (line : string) : option string :=
  match patterns with
  | [] => None
  | p :: more =>
      match exec p line with
      | Some m => Some (match capture1 m with Some c => c | None => "" end)
      | None => firstMatch more line
      end
  end.

(** The loop over the lines; [multiLineImport] is the text accumulated
    since an unclosed [import {], empty when there is none. *)
Fixpoint scanLines (lines : list string) (lineNumber : nat)
    (multiLineImport : string) (multiLineImportStartLine : nat)
    : list ImportStatement.t :=
  match lines with
  | [] => []
  | line :: more =>
      let continue := scanLines more (S lineNumber) in
      let trimmed := JsString.trim line in
      if negb (JsString.truthy trimmed) || JsString.startsWith trimmed "//" then
        continue multiLineImport multiLineImportStartLine
      else if JsString.includes line "import" && JsString.includes line "{"
              && negb (JsString.includes line "}") then
        continue line lineNumber
      else if JsString.truthy multiLineImport
              && negb (JsString.includes line "from") then
        continue (multiLineImport +++ " " +++ trimmed) multiLineImportStartLine
      else if JsString.truthy multiLineImport && JsString.includes line "from" then
        match firstMatch [namedImportPattern] (multiLineImport +++ " " +++ trimmed) with
        | Some m =>
            ImportStatement.mk es6 m false multiLineImportStartLine
              :: continue "" multiLineImportStartLine
        | None => continue "" multiLineImportStartLine
        end
      else
        match firstMatch es6ImportPatterns line with
        | Some m =>
            ImportStatement.mk es6 m false lineNumber
              :: continue multiLineImport multiLineImportStartLine
        | None =>
            match firstMatch cjsRequirePatterns line with
            | Some m =>
                ImportStatement.mk commonjs m false lineNumber
                  :: continue multiLineImport multiLineImportStartLine
            | None =>
                match firstMatch [dynamicImportPattern] line with
                | Some m =>
                    ImportStatement.mk es6 m true lineNumber
                      :: continue multiLineImport multiLineImportStartLine
                | None => continue multiLineImport multiLineImportStartLine
                end
            end
        end
  end.

Definition parseImports (h : Host) (filePath : string)
    : M (list ImportStatement.t) :=
  tryCatch
    (found <- lift (existsSync h filePath) ;;
     if negb found then
       throw (mkError NotFound ("File not found: " +++ filePath))
     else
       content <- lift (readTextFile h filePath) ;;
       ret (scanLines (JsString.split "010" content) 1 "" 0))
    (fun error =>
       if isNotFound error then throw error
       else throw (mkError GenericError
                     ("Error parsing imports in " +++ filePath +++ ": "
                      +++ message error))).

End Extractor.

(** ** Configuration files and [resolveImportPath] *)

Module Resolver.

(** [loadImportMap(rootPath)] *)
Definition loadImportMap (h : Host) (rootPath : string) : M (option ImportMap) :=
  let importMapPath := Path.join [rootPath; "import_map.json"] in
  found <- lift (existsSync h importMapPath) ;;
  if found then
    tryCatch
      (content <- lift (readTextFile h importMapPath) ;;
       parsed <- lift (parseImportMapJSON h content) ;;
       ret (Some parsed))
      (fun error =>
         throw (mkError GenericError
                  ("Error loading import map from " +++ importMapPath +++ ": "
                   +++ message error)))
  else ret None.

(** [loadTsConfig(rootPath)] *)
Definition loadTsConfig (h : Host) (rootPath : string) : M (option TsConfig) :=
  let tsConfigPath := Path.join [rootPath; "tsconfig.json"] in
  found <- lift (existsSync h tsConfigPath) ;;
  if found then
    tryCatch
      (content <- lift (readTextFile h tsConfigPath) ;;
       parsed <- lift (parseTsConfigJSON h content) ;;
       ret (Some parsed))
      (fun error =>
         throw (mkError GenericError
                  ("Error loading tsconfig from " +++ tsConfigPath +++ ": "
                   +++ message error)))
  else ret None.

Definition extensions : list string :=
  [".ts"; ".tsx"; ".js"; ".jsx"; ".mjs"; ".cjs"].

(** [/\.[^/.]+$/] *)
Definition extensionPattern : RegExp.t :=
  RegExp.mk false
    (RegExp.seqs
       [RegExp.chr ".";
        RegExp.plus (RegExp.Chr (fun c => negb (Ascii.eqb c "/" || Ascii.eqb c ".")));
        RegExp.Eol]).

Definition hasExtension (path : string) : bool :=
  RegExp.test extensionPattern path.

(** The path without the extension the pattern finds, if any. *)
Definition extensionBase (path : string) : string :=
  if hasExtension path then RegExp.remove extensionPattern path else path.

(** [for (const ext of exts) { if (existsSync(mk(ext))) return mk(ext); }] *)
Fixpoint firstExisting (h : Host) (mk : string -> string) (exts : list string)
    : M (option string) :=
  match exts with
  | [] => ret None
  | ext :: more =>
      found <- lift (existsSync h (mk ext)) ;;
      if found then ret (Some (mk ext)) else firstExisting h mk more
  end.

(** The names every object inherits from [Object.prototype]. *)
Definition objectPrototypeNames : list string :=
  ["constructor"; "hasOwnProperty"; "isPrototypeOf"; "propertyIsEnumerable";
   "toLocaleString"; "toString"; "valueOf"; "__proto__";
   "__defineGetter__"; "__defineSetter__"; "__lookupGetter__"; "__lookupSetter__"].

Inductive Property : Type :=
| Own (value : string)    (* an entry of the map *)
| Inherited               (* a function or object of the prototype: truthy *)
| Undefined.

(** [obj[key]] *)
Definition getProperty (obj : list (string * string)) (key : string) : Property :=
  match find (fun kv => (fst kv =? key)%string) obj with
  | Some kv => Own (snd kv)
  | None =>
      if existsb (String.eqb key) objectPrototypeNames then Inherited
      else Undefined
  end.

(** The first entry, in enumeration order, whose key starts [importPath]. *)
Definition prefixEntry (obj : list (string * string)) (importPath : string)
    : option (string * string) :=
  find (fun kv => JsString.startsWith importPath (fst kv)) obj.

(** Import-map strategies; [None] lets the next strategy try. *)
Definition resolveWithImportMap (h : Host) (importerPath importPath : string)
    (importMap : option ImportMap) : M (option string) :=
  match importMap with
  | Some {| imports := Some entries |} =>
      exact <-
        match getProperty entries importPath with
        | Own value =>
            if JsString.truthy value
            then ret (Some (Path.resolve h [Path.dirname importerPath; value]))
            else ret None
        | Inherited =>
            (* resolve() rejects an argument that is not a string *)
            throw (mkError TypeError "Path must be a string")
        | Undefined => ret None
        end ;;
      match exact with
      | Some p => ret (Some p)
      | None =>
          match prefixEntry entries importPath with
          | Some (prefix, replacement) =>
              let remainder := JsString.slice (String.length prefix) importPath in
              ret (Some (Path.resolve h
                           [Path.dirname importerPath; replacement; remainder]))
          | None => ret None
          end
      end
  | _ => ret None
  end.

(** The second [replace] of the conversion: a backslash is put before
    every character of the class [-/\^$*+?.()|[]{}]. *)
Definition needsEscape (c : ascii) : bool :=
  RegExpSource.memChar c "-/\^$*+?.()|[]{}".

Fixpoint escapeRegExp (s : string) : string :=
  match s with
  | EmptyString => EmptyString
  | String c r =>
      if needsEscape c then String "\" (String c (escapeRegExp r))
      else String c (escapeRegExp r)
  end.

(** The conversion of a pattern: every star becomes the five
    characters of a capturing wildcard group, and then the result is
    escaped. *)
Definition regexPattern (pattern : string) : string :=
  escapeRegExp (JsString.replaceChar "*" "(.*)" pattern).

(** The loop over [Object.entries(tsConfig.compilerOptions.paths)].  The
    substitution of the capture into the template is written for a
    capture without [$]; [PatternFacts.matchPaths_literal] shows that it
    is never reached. *)
Fixpoint matchPaths (h : Host) (importerPath importPath baseUrl : string)
    (entries : list (string * list string)) : M (option string) :=
  match entries with
  | [] => ret None
  | (pattern, replacements) :: more =>
      match RegExpSource.construct ("^" +++ regexPattern pattern +++ "$") with
      | None => throw (mkError SyntaxError "Invalid regular expression")
      | Some regex =>
          match RegExp.exec regex importPath, replacements with
          | Some m, first :: _ =>
              let replacement :=
                if (1 <? S (RegExp.groups (RegExp.body regex)))%nat then
                  JsString.replaceChar "*"
                    (match RegExp.capture1 m with Some c => c | None => "" end)
                    first
                else first in
              ret (Some (Path.resolve h
                           [Path.dirname importerPath; baseUrl; replacement]))
          | _, _ => matchPaths h importerPath importPath baseUrl more
          end
      end
  end.

(** Path-mapping strategy; [None] lets the next strategy try. *)
Definition resolveWithTsConfig (h : Host) (importerPath importPath : string)
    (tsConfig : option TsConfig) : M (option string) :=
  match tsConfig with
  | Some {| compilerOptions :=
              Some {| baseUrl := Some base; paths := Some entries |} |} =>
      if JsString.truthy base
      then matchPaths h importerPath importPath base entries
      else ret None
  | _ => ret None
  end.

Definition isRelative (importPath : string) : bool :=
  JsString.startsWith importPath "./" || JsString.startsWith importPath "../".

(** The branch for [./] and [../] specifiers. *)
Definition resolveRelative (h : Host) (importerPath importPath : string)
    : M (option string) :=
  let resolved := Path.resolve h [Path.dirname importerPath; importPath] in
  found <- lift (existsSync h resolved) ;;
  if found then ret (Some resolved)
  else
    let base := extensionBase resolved in
    index <-
      tryCatch
        (stat <- lift (statSync h resolved) ;;
         if isDirectory stat
         then firstExisting h (fun ext => Path.join [resolved; "index" +++ ext])
                extensions
         else ret None)
        (fun _ => ret None) ;;
    match index with
    | Some indexPath => ret (Some indexPath)
    | None =>
        withExt <- firstExisting h (fun ext => base +++ ext) extensions ;;
        match withExt with
        | Some p => ret (Some p)
        | None =>
            (if negb (hasExtension resolved)
             then lift (existsSync h resolved)
             else ret false) ;;;
            ret (Some resolved)
        end
    end.

(** The branch for specifiers with a leading [/]. *)
Definition resolveAbsolute (h : Host) (importPath : string) : M (option string) :=
  found <- lift (existsSync h importPath) ;;
  if found then ret (Some importPath)
  else firstExisting h (fun ext => extensionBase importPath +++ ext) extensions.

(** The body of the [try] block. *)
Definition resolveImportPathBody (h : Host) (importerPath importPath : string)
    (importMap : option ImportMap) (tsConfig : option TsConfig)
    : M (option string) :=
  aliased <- resolveWithImportMap h importerPath importPath importMap ;;
  match aliased with
  | Some p => ret (Some p)
  | None =>
      mapped <- resolveWithTsConfig h importerPath importPath tsConfig ;;
      match mapped with
      | Some p => ret (Some p)
      | None =>
          if isRelative importPath then resolveRelative h importerPath importPath
          else if JsString.startsWith importPath "/" then resolveAbsolute h importPath
          else ret None
      end
  end.

(** [resolveImportPath]: the [try] block and its [catch], which writes
    to the console and returns [null], here [None]. *)
Definition resolveImportPath (h : Host) (importerPath importPath : string)
    (importMap : option ImportMap) (tsConfig : option TsConfig)
    : M (option string) :=
  tryCatch
    (resolveImportPathBody h importerPath importPath importMap tsConfig)
    (fun error =>
       logError ("Error resolving import path '" +++ importPath
                 +++ "' in '" +++ importerPath +++ "':") error ;;;
       ret None).

End Resolver.

(** ** [Array.prototype.sort]

    The sort of the language is stable; with a consistent comparator its
    result is the one of a stable insertion sort. *)

Module JsArray.

Section Sort.
Context {A : Type} (cmp : A -> A -> comparison).

Fixpoint insertSorted (x : A) (l : list A) : list A :=
  match l with
  | [] => [x]
  | y :: l' =>
      match cmp x y with
      | Gt => y :: insertSorted x l'
      | _ => x :: l
      end
  end.

Fixpoint sort (l : list A) : list A :=
  match l with
  | [] => []
  | x :: l' => insertSorted x (sort l')
  end.
End Sort.

End JsArray.

(** ** [findImporters] and [findDirectoryImporters] *)

Module Matcher.
Import Resolver.

(** A [try] whose [catch] does not throw: a value and a log. *)
Definition recover {A} (m : M A) (handler : JsError -> A * list LogEntry)
    : A * list LogEntry :=
  match m with
  | (Normal a, log) => (a, log)
  | (Throw error, log) => let '(a, log') := handler error in (a, log ++ log')
  end.

(** [try { x = await load(rootPath) } catch (error) { console.warn(label, error.message) }] *)
Definition loadOrWarn {A} (load : M (option A)) (label : string)
    : option A * list LogEntry :=
  recover load (fun error => (None, [ConsoleWarn [label; message error]])).

(** A block that pushes to the result array while it runs: what it
    pushed, how it completed, what it wrote to the console.  What was
    pushed before a throw stays pushed. *)
Definition Pushing (A : Type) : Type :=
  (list A * Completion unit * list LogEntry)%type.

(** The [catch] of the per-file [try]: a line on the console. *)
Definition reportSkipped (filePath : string) (error : JsError) : list LogEntry :=
  if isNotFound error then
    [ConsoleWarn ["Warning: Skipping file " +++ filePath +++ " - "
                  +++ message error]]
  else [ConsoleError ("Error processing " +++ filePath +++ ":") error].

(** [try { body } catch (error) { report }]: the loop goes on either way. *)
Definition guarded {A} (filePath : string) (body : Pushing A)
    : list A * list LogEntry :=
  match body with
  | (pushed, Normal _, log) => (pushed, log)
  | (pushed, Throw error, log) => (pushed, log ++ reportSkipped filePath error)
  end.

(** The loop over [files]: the pushes of every file, in order. *)
Fixpoint forEachFile {A} (step : string -> list A * list LogEntry)
    (files : list string) : list A * list LogEntry :=
  match files with
  | [] => ([], [])
  | filePath :: more =>
      let '(pushed, log) := step filePath in
      let '(pushed', log') := forEachFile step more in
      (pushed ++ pushed', log ++ log')
  end.

(** The target of [findImporters]: its normalized path and whether it is
    a directory. *)
Definition normalizeTarget (h : Host) (targetFilePath : string)
    : M (string * bool) :=
  let normalizedTargetPath := Path.resolve h [targetFilePath] in
  let isTargetDirectory :=
    match statSync h normalizedTargetPath with
    | Normal stat => isDirectory stat
    | Throw _ => false
    end in
  if negb isTargetDirectory then
    found <- lift (existsSync h normalizedTargetPath) ;;
    if negb found then
      withExt <- firstExisting h
                   (fun ext => extensionBase normalizedTargetPath +++ ext)
                   extensions ;;
      match withExt with
      | Some p => ret (p, false)
      | None =>
          throw (mkError NotFound ("Target file not found: " +++ targetFilePath))
      end
    else ret (normalizedTargetPath, false)
  else ret (normalizedTargetPath, true).

(** Does [path] count as the target?  Inside, for a directory: the test
    is [startsWith]; equal, for a file. *)
Definition hitsTarget (isTargetDirectory : bool) (normalizedTargetPath path : string)
    : bool :=
  if isTargetDirectory then JsString.startsWith path normalizedTargetPath
  else (path =? normalizedTargetPath)%string.

(** The loop over the imports of one file; [select] is the test on a
    resolved path and the record pushed for a match. *)
Fixpoint matchImports {A} (h : Host)
    (importMap : option ImportMap) (tsConfig : option TsConfig)
    (filePath : string) (select : ImportStatement.t -> string -> option A)
    (imports : list ImportStatement.t) : Pushing A :=
  match imports with
  | [] => ([], Normal tt, [])
  | imp :: more =>
      let continue := matchImports h importMap tsConfig filePath select more in
      if ImportStatement.isDynamic imp then continue
      else
        match resolveImportPath h filePath (ImportStatement.module imp)
                importMap tsConfig with
        | (Throw error, log) => ([], Throw error, log)
        | (Normal resolvedPath, log) =>
            let here :=
              match resolvedPath with
              | Some p => if JsString.truthy p then select imp p else None
              | None => None
              end in
            let '(pushed, completion, log') := continue in
            (match here with Some r => r :: pushed | None => pushed end,
             completion, log ++ log')
        end
  end.

(** The body of the per-file [try]; [skip] is the test that leaves the
    target itself out. *)
Definition scanFile {A} (h : Host)
    (importMap : option ImportMap) (tsConfig : option TsConfig)
    (skip : string -> bool) (select : ImportStatement.t -> string -> option A)
    (filePath : string) : Pushing A :=
  if skip (Path.resolve h [filePath]) then ([], Normal tt, [])
  else
    match existsSync h filePath with
    | Throw error => ([], Throw error, [])
    | Normal false =>
        ([], Normal tt,
         [ConsoleWarn ["Warning: Skipping non-existent file " +++ filePath]])
    | Normal true =>
        match Extractor.parseImports h filePath with
        | (Throw error, log) => ([], Throw error, log)
        | (Normal imports, log) =>
            let '(pushed, completion, log') :=
              matchImports h importMap tsConfig filePath select imports in
            (pushed, completion, log ++ log')
        end
    end.

(** What [findImporters] pushes for an import that resolves to [p]. *)
Definition selectImporter (h : Host) (isTargetDirectory : bool)
    (normalizedTargetPath filePath : string)
    (imp : ImportStatement.t) (p : string) : option ResolvedImport.t :=
  if hitsTarget isTargetDirectory normalizedTargetPath (Path.resolve h [p])
  then Some (ResolvedImport.mk filePath (ImportStatement.module imp) p
               (ImportStatement.lineNumber imp))
  else None.

Definition processFile (h : Host) (isTargetDirectory : bool)
    (normalizedTargetPath : string)
    (importMap : option ImportMap) (tsConfig : option TsConfig)
    (filePath : string) : list ResolvedImport.t * list LogEntry :=
  guarded filePath
    (scanFile h importMap tsConfig
       (hitsTarget isTargetDirectory normalizedTargetPath)
       (selectImporter h isTargetDirectory normalizedTargetPath filePath)
       filePath).

Definition findImporters (h : Host) (targetFilePath : string)
    (files : list string) (rootPath : string) : M (list ResolvedImport.t) :=
  let '(importMap, log1) :=
    loadOrWarn (loadImportMap h rootPath) "Warning: Could not load import map:" in
  let '(tsConfig, log2) :=
    loadOrWarn (loadTsConfig h rootPath) "Warning: Could not load tsconfig:" in
  bind (Normal tt, log1 ++ log2) (fun _ =>
    target <- normalizeTarget h targetFilePath ;;
    let '(importers, log) :=
      forEachFile
        (processFile h (snd target) (fst target) importMap tsConfig) files in
    (Normal importers, log)).

(** The target of [findDirectoryImporters]. *)
Definition checkTargetDirectory (h : Host) (targetDirectoryPath : string)
    : M string :=
  let normalizedTargetPath := Path.resolve h [targetDirectoryPath] in
  tryCatch
    (stat <- lift (statSync h normalizedTargetPath) ;;
     if negb (isDirectory stat) then
       throw (mkError GenericError
                ("Target is not a directory: " +++ targetDirectoryPath))
     else ret normalizedTargetPath)
    (fun error =>
       if isNotFound error then
         throw (mkError NotFound
                  ("Target directory not found: " +++ targetDirectoryPath))
       else throw error).

(** What [findDirectoryImporters] pushes for an import that resolves to
    [p]: the importer, under the path of [p] relative to the target. *)
Definition selectGrouped (h : Host) (normalizedTargetPath filePath : string)
    (imp : ImportStatement.t) (p : string) : option (string * Importer.t) :=
  if JsString.startsWith (Path.resolve h [p]) normalizedTargetPath
  then Some (Path.relative h normalizedTargetPath p,
             Importer.mk filePath (ImportStatement.module imp)
               (ImportStatement.lineNumber imp))
  else None.

Definition processDirectoryFile (h : Host) (normalizedTargetPath : string)
    (importMap : option ImportMap) (tsConfig : option TsConfig)
    (filePath : string) : list (string * Importer.t) * list LogEntry :=
  guarded filePath
    (scanFile h importMap tsConfig
       (fun path => JsString.startsWith path normalizedTargetPath)
       (selectGrouped h normalizedTargetPath filePath)
       filePath).

(** [importGroups], a [Map] from referenced path to importers, in
    insertion order: a new key goes last, an importer is appended to the
    list of its key. *)
Fixpoint addImporter (importGroups : list (string * list Importer.t))
    (key : string) (importer : Importer.t) : list (string * list Importer.t) :=
  match importGroups with
  | [] => [(key, [importer])]
  | (k, importers) :: more =>
      if (k =? key)%string then (k, importers ++ [importer]) :: more
      else (k, importers) :: addImporter more key importer
  end.

Definition collectGroups (pushed : list (string * Importer.t))
    : list (string * list Importer.t) :=
  fold_left (fun m e => addImporter m (fst e) (snd e)) pushed [].

Definition byImportedFile (h : Host) (a b : ImportGroup.t) : comparison :=
  localeCompare h (ImportGroup.importedFile a) (ImportGroup.importedFile b).

Definition bySourceFile (h : Host) (a b : Importer.t) : comparison :=
  localeCompare h (Importer.sourceFile a) (Importer.sourceFile b).

(** From the map to the sorted array of groups. *)
Definition sortedGroups (h : Host) (importGroups : list (string * list Importer.t))
    : list ImportGroup.t :=
  let groups := map (fun e => ImportGroup.mk (fst e) (snd e)) importGroups in
  let groups := JsArray.sort (byImportedFile h) groups in
  map (fun g => ImportGroup.mk (ImportGroup.importedFile g)
                  (JsArray.sort (bySourceFile h) (ImportGroup.importers g)))
      groups.

Definition countImporters (groups : list ImportGroup.t) : nat :=
  fold_left (fun sum g => sum + List.length (ImportGroup.importers g)) groups 0.

Definition findDirectoryImporters (h : Host) (targetDirectoryPath : string)
    (files : list string) (rootPath : string) : M DirectoryImporterResult.t :=
  let '(importMap, log1) :=
    loadOrWarn (loadImportMap h rootPath) "Warning: Could not load import map:" in
  let '(tsConfig, log2) :=
    loadOrWarn (loadTsConfig h rootPath) "Warning: Could not load tsconfig:" in
  bind (Normal tt, log1 ++ log2) (fun _ =>
    normalizedTargetPath <- checkTargetDirectory h targetDirectoryPath ;;
    let '(pushed, log) :=
      forEachFile
        (processDirectoryFile h normalizedTargetPath importMap tsConfig) files in
    let groups := sortedGroups h (collectGroups pushed) in
    (Normal (DirectoryImporterResult.mk targetDirectoryPath rootPath
               (countImporters groups) groups), log)).

End Matcher.

(** ** Sample hosts

    A host given by a table from paths, as written, to what is there;
    the working directory is [/r], no configuration file parses, and
    strings are compared by code units. *)

Module Sample.

Inductive Node : Type :=
| Dir
| File (content : string)
| Locked        (* stat is refused, read permission not granted *)
| Unreadable    (* stat succeeds, reading fails *)
| Vanishing.    (* stat succeeds, the file is gone when it is read *)

Definition lookup (tree : list (string * Node)) (path : string) : option Node :=
  option_map snd (find (fun e => (fst e =? path)%string) tree).

Definition noSuchFile : JsError :=
  mkError NotFound "No such file or directory (os error 2)".

Definition host (tree : list (string * Node)) : Host :=
  {| cwd := "/r";
     statSync := fun path =>
       match lookup tree path with
       | Some Dir => Normal (mkFileInfo true)
       | Some (File _) | Some Unreadable | Some Vanishing =>
           Normal (mkFileInfo false)
       | Some Locked => Throw (mkError PermissionDenied "Requires read access")
       | None => Throw noSuchFile
       end;
     readTextFile := fun path =>
       match lookup tree path with
       | Some (File content) => Normal content
       | Some Dir => Throw (mkError GenericError "Is a directory (os error 21)")
       | Some Locked | Some Unreadable =>
           Throw (mkError PermissionDenied "Permission denied (os error 13)")
       | Some Vanishing | None => Throw noSuchFile
       end;
     readGranted := fun _ => false;
     parseImportMapJSON := fun _ => Throw (mkError SyntaxError "Unexpected token");
     parseTsConfigJSON := fun _ => Throw (mkError SyntaxError "Unexpected token");
     localeCompare := String.compare |}.

Definition newline : string := String "010" EmptyString.

(** The fixture of the tests: [component1.tsx] imports [button.tsx]. *)
Definition fixtures : Host :=
  host [ ("/r", Dir);
         ("/r/button.tsx", File ("export default function Button() {}" +++ newline));
         ("/r/component1.tsx",
          File ("import Button from './button.tsx';" +++ newline
                +++ "export const c = Button;" +++ newline)) ].

(** The path mapping of the README. *)
Definition readmeTsConfig : TsConfig :=
  mkTsConfig (Some (mkCompilerOptions (Some ".")
    (Some [ ("@components/*", ["src/components/*"]);
            ("@utils", ["src/utils/index.ts"]) ]))).

(** A directory with an index file. *)
Definition withIndex : Host :=
  host [ ("/r", Dir); ("/r/a.ts", File "import lib from './lib';");
         ("/r/lib", Dir); ("/r/lib/index.ts", File "export default 1;") ].

(** An import map with an empty replacement. *)
Definition emptyReplacement : ImportMap :=
  mkImportMap (Some [ ("a", "./x"); ("ab", "") ]) None.

(** An import map whose key is a prefix of relative specifiers. *)
Definition dotSlashAlias : ImportMap :=
  mkImportMap (Some [ ("./", "./vendor/") ]) None.

(** A directory [/r/foo] and a sibling file [/r/foo-bar.ts]. *)
Definition siblings : Host :=
  host [ ("/r", Dir); ("/r/foo", Dir);
         ("/r/foo/x.ts", File "export const x = 1;");
         ("/r/foo-bar.ts", File ("import { x } from './foo/x.ts';" +++ newline));
         ("/r/a.ts", File ("import fb from './foo-bar.ts';" +++ newline)) ].

(** A tree where one file cannot be inspected, one cannot be read and
    one disappears before it is read. *)
Definition faulty : Host :=
  host [ ("/r", Dir); ("/r/lib", Dir);
         ("/r/button.tsx", File "export default 1;");
         ("/r/secret", Locked);
         ("/r/locked.ts", Locked);
         ("/r/unreadable.ts", Unreadable);
         ("/r/vanishing.ts", Vanishing);
         ("/r/component1.tsx",
          File ("import Button from './button.tsx';" +++ newline)) ].

(** Two files that import from the directory [/r/lib]. *)
Definition library : Host :=
  host [ ("/r", Dir); ("/r/lib", Dir);
         ("/r/lib/x.ts", File "export const x = 1;");
         ("/r/lib/y.ts", File "export const y = 2;");
         ("/r/b.ts", File ("import { y } from './lib/y.ts';" +++ newline
                           +++ "import { x } from './lib/x.ts';" +++ newline));
         ("/r/a.ts", File ("const x = require('./lib/x');" +++ newline)) ].

(** The fixtures the tests of the repository run on, with the imports
    the tests expect of them. *)
Definition dq : string := String "034" EmptyString.

Definition testFixtures : Host :=
  host [ ("/r", Dir); ("/r/tests", Dir); ("/r/tests/fixtures", Dir);
         ("/r/tests/fixtures/nested", Dir);
         ("/r/tests/fixtures/button.tsx", File "export default function Button() {}");
         ("/r/tests/fixtures/component.tsx", File "export default function Component() {}");
         ("/r/tests/fixtures/component1.tsx",
          File ("import Button from " +++ dq +++ "./button.tsx" +++ dq +++ ";" +++ newline));
         ("/r/tests/fixtures/component6.js",
          File ("const Button = require(" +++ dq +++ "./button.tsx" +++ dq +++ ");"
                +++ newline));
         ("/r/tests/fixtures/nested/component8.tsx",
          File ("import Button from " +++ dq +++ "../button.tsx" +++ dq +++ ";"
                +++ newline));
         ("/r/tests/fixtures/component14.tsx",
          File ("import Component from " +++ dq +++ "./component" +++ dq +++ ";"
                +++ newline
                +++ "import Button from " +++ dq +++ "./button" +++ dq +++ ";"
                +++ newline)) ].

End Sample.

(** ** The rest of the environment

    What [scanner.ts] and [cli.ts] ask besides what [Host] gives: the
    other fields of the answer of [stat], the directory walk and two
    functions of the path library.  The walk is given by what it yields:
    the paths of its entries, in order, and the error it ends with, if
    any. *)

Module WalkOptions.
Record t : Type := mk {
  includeDirs : bool;
  followSymlinks : bool;
  maxDepth : option nat;
  concurrency : nat
}.
End WalkOptions.

Record Runtime : Type := mkRuntime {
  host : Host;
  isFileAt : string -> bool;         (* [isFile] of what stat answers for the path *)
  inoAt : string -> option nat;      (* [ino] of what stat answers for the path *)
  walk : string -> WalkOptions.t -> list string * option JsError;
  extname : string -> string;        (* extname(path) *)
  globToRegExp : string -> Completion (string -> bool)
                                     (* globToRegExp(pattern, ...), as its [test] *)
}.

(** [Deno.FileInfo], as far as the program reads it. *)
Record Stat : Type := mkStat { isFile : bool; isDir : bool; ino : option nat }.

(** [Deno.stat(path)] and [Deno.statSync(path)] *)
Definition stat (rt : Runtime) (path : string) : Completion Stat :=
  match statSync (host rt) path with
  | Normal info => Normal (mkStat (isFileAt rt path) (isDirectory info) (inoAt rt path))
  | Throw e => Throw e
  end.

(** ** [scan] *)

Module ScannerOptions.
Record t : Type := mk {
  extensions : option (list string);
  ignore : option (list string);
  followSymlinks : option bool;
  maxDepth : option nat;
  concurrency : option nat
}.
End ScannerOptions.

Module Scanner.

Definition defaultExtensions : list string :=
  [".js"; ".jsx"; ".ts"; ".tsx"; ".mjs"; ".cjs"].
Definition defaultIgnore : list string := ["node_modules"; "dist"].
Definition defaultFollowSymlinks : bool := false.
Definition defaultConcurrency : nat := 4.

(** [a ?? b] *)
Definition orDefault {A} (a : option A) (b : A) : A :=
  match a with Some x => x | None => b end.

(** [ignore.map((pattern) => globToRegExp(pattern, ...))] *)
Fixpoint compilePatterns (rt : Runtime) (patterns : list string)
    : Completion (list (string -> bool)) :=
  match patterns with
  | [] => Normal []
  | pattern :: more =>
      match globToRegExp rt pattern with
      | Throw e => Throw e
      | Normal regex =>
          match compilePatterns rt more with
          | Throw e => Throw e
          | Normal regexes => Normal (regex :: regexes)
          end
      end
  end.

(** [parts.slice(0, i + 1)] for [i] from 0 to [parts.length - 1] *)
Fixpoint slices {A} (parts : list A) : list (list A) :=
  match parts with
  | [] => []
  | x :: more => [x] :: map (cons x) (slices more)
  end.

(** The path up to each of its separators, and the path itself. *)
Definition partialPaths (relativePath : string) : list string :=
  map (String.concat "/") (slices (JsString.split "/" relativePath)).

Definition shouldIgnore (ignoreRegexes : list (string -> bool))
    (relativePath : string) : bool :=
  existsb (fun regex => existsb regex (partialPaths relativePath)) ignoreRegexes.

(** The two caches and the result array. *)
Record State : Type := mkState {
  processedFiles : list string;
  processedInodes : list nat;
  matchedFiles : list string
}.

Definition hasInode (st : State) (fileInfo : Stat) : bool :=
  match ino fileInfo with
  | Some n => existsb (Nat.eqb n) (processedInodes st)
  | None => false
  end.

(** The body of the loop for one entry of the walk. *)
Definition visit (rt : Runtime) (rootPath : string) (extensions : list string)
    (ignoreRegexes : list (string -> bool)) (st : State) (path : string)
    : Completion State :=
  match stat rt path with
  | Throw e => Throw e
  | Normal fileInfo =>
      if hasInode st fileInfo then Normal st
      else if existsb (String.eqb path) (processedFiles st) then Normal st
      else
        let files := path :: processedFiles st in
        let inodes :=
          match ino fileInfo with
          | Some n => n :: processedInodes st
          | None => processedInodes st
          end in
        if negb (existsb (String.eqb (extname rt path)) extensions)
        then Normal (mkState files inodes (matchedFiles st))
        else if shouldIgnore ignoreRegexes (Path.relative (host rt) rootPath path)
        then Normal (mkState files inodes (matchedFiles st))
        else Normal (mkState files inodes (matchedFiles st ++ [path]))
  end.

Fixpoint visitAll (rt : Runtime) (rootPath : string) (extensions : list string)
    (ignoreRegexes : list (string -> bool)) (entries : list string) (st : State)
    : Completion State :=
  match entries with
  | [] => Normal st
  | path :: more =>
      match visit rt rootPath extensions ignoreRegexes st path with
      | Throw e => Throw e
      | Normal st' => visitAll rt rootPath extensions ignoreRegexes more st'
      end
  end.

Definition walkOptions (options : ScannerOptions.t) : WalkOptions.t :=
  WalkOptions.mk false
    (orDefault (ScannerOptions.followSymlinks options) defaultFollowSymlinks)
    (ScannerOptions.maxDepth options)
    (orDefault (ScannerOptions.concurrency options) defaultConcurrency).

(** [scan(rootPath, options)] *)
Definition scan (rt : Runtime) (rootPath : string) (options : ScannerOptions.t)
    : Completion (list string) :=
  let extensions := orDefault (ScannerOptions.extensions options) defaultExtensions in
  let ignore := orDefault (ScannerOptions.ignore options) defaultIgnore in
  match compilePatterns rt ignore with
  | Throw e => Throw e
  | Normal ignoreRegexes =>
      let '(entries, failure) := walk rt rootPath (walkOptions options) in
      let body :=
        match visitAll rt rootPath extensions ignoreRegexes entries
                (mkState [] [] []) with
        | Throw e => Throw e
        | Normal st =>
            match failure with
            | Some e => Throw e
            | None => Normal (matchedFiles st)
            end
        end in
      match body with
      | Normal files => Normal files
      | Throw error =>
          if isNotFound error
          then Throw (mkError GenericError ("Path not found: " +++ rootPath))
          else Throw error
      end
  end.

End Scanner.

(** ** [output.ts] *)

Module ImporterResult.
Record t : Type := mk {
  target : string;
  root : string;
  count : nat;
  importers : list string
}.
End ImporterResult.

(** The formatters write with [console.log]; each of them is given by the
    texts of its calls, in order. *)

Module Output.

(** [JSON.stringify(result, null, 2)] for the two kinds of result. *)
Record Stringify : Type := mkStringify {
  ofImporterResult : ImporterResult.t -> string;
  ofDirectoryResult : DirectoryImporterResult.t -> string
}.

(** A count inside a template literal. *)
Definition number (n : nat) : string := NilZero.string_of_uint (Nat.to_uint n).

Definition inQuotes (s : string) : string :=
  String "034" EmptyString +++ s +++ String "034" EmptyString.

(** [formatText(result)] *)
Definition formatText (result : ImporterResult.t) : list string :=
  let target := ImporterResult.target result in
  let count := ImporterResult.count result in
  (if (count =? 0)%nat then "No files import " +++ inQuotes target
   else if (count =? 1)%nat then "1 file imports " +++ inQuotes target +++ ":"
   else number count +++ " files import " +++ inQuotes target +++ ":")
  :: (if (0 <? count)%nat
      then "Importers:"
           :: map (fun importer => "  " +++ importer) (ImporterResult.importers result)
      else []).

(** The loop of [formatDirectoryText], from the group of index [i] on. *)
Fixpoint groupLines (i : nat) (groups : list ImportGroup.t) : list string :=
  match groups with
  | [] => []
  | group :: more =>
      (if (i mod 2 =? 0)%nat
       then ["file " +++ ImportGroup.importedFile group +++ " imported by"]
       else ["file " +++ ImportGroup.importedFile group; "imported by"])
      ++ map (fun importer => " " +++ Importer.sourceFile importer)
             (ImportGroup.importers group)
      ++ groupLines (S i) more
  end.

(** [formatDirectoryText(result)] *)
Definition formatDirectoryText (result : DirectoryImporterResult.t) : list string :=
  if (DirectoryImporterResult.count result =? 0)%nat
  then ["No files import anything from directory "
        +++ inQuotes (DirectoryImporterResult.target result)]
  else groupLines 0 (DirectoryImporterResult.groups result).

Definition formatJson (js : Stringify) (result : ImporterResult.t) : list string :=
  [ofImporterResult js result].

Definition formatDirectoryJson (js : Stringify) (result : DirectoryImporterResult.t)
    : list string :=
  [ofDirectoryResult js result].

(** [formatOutput(result, json)] *)
Definition formatOutput (js : Stringify) (result : ImporterResult.t) (json : bool)
    : list string :=
  if json then formatJson js result else formatText result.

(** [formatDirectoryOutput(result, json)] *)
Definition formatDirectoryOutput (js : Stringify) (result : DirectoryImporterResult.t)
    (json : bool) : list string :=
  if json then formatDirectoryJson js result else formatDirectoryText result.

End Output.

(** ** [cli.ts]

    A run of the command line ends in one of three ways: its function
    returns, an error is thrown, or [Deno.exit] ends the process; what it
    wrote is kept in order. *)

Module CliOptions.
Record t : Type := mk {
  target : string;
  root : string;
  json : bool;
  extensions : list string;
  ignore : list string;
  followSymlinks : bool;
  maxDepth : option nat;
  concurrency : nat;
  version : bool;
  help : bool
}.
End CliOptions.

Inductive Printed : Type :=
| StdOut (text : string)            (* console.log(text) *)
| StdErr (args : list string)       (* console.error(...args) of cli.ts *)
| Diagnostic (entry : LogEntry).    (* what resolver.ts wrote *)

Inductive Outcome (A : Type) : Type :=
| Done (a : A)
| Raised (e : JsError)
| Exited (code : nat).              (* Deno.exit(code) *)
Arguments Done {A} a.
Arguments Raised {A} e.
Arguments Exited {A} code.

Definition Process (A : Type) : Type := (Outcome A * list Printed)%type.

Module Cli.

Definition done {A} (a : A) : Process A := (Done a, []).
Definition raise {A} (e : JsError) : Process A := (Raised e, []).
Definition exit {A} (code : nat) : Process A := (Exited code, []).
Definition consoleLog (texts : list string) : Process unit :=
  (Done tt, map StdOut texts).
Definition consoleError (args : list string) : Process unit :=
  (Done tt, [StdErr args]).

Definition andThen {A B} (m : Process A) (f : A -> Process B) : Process B :=
  match m with
  | (Done a, out) => let '(r, out') := f a in (r, out ++ out')
  | (Raised e, out) => (Raised e, out)
  | (Exited code, out) => (Exited code, out)
  end.

(** [try { m } catch (error) { handler error }]: an exit is not caught. *)
Definition catch {A} (m : Process A) (handler : JsError -> Process A) : Process A :=
  match m with
  | (Raised e, out) => let '(r, out') := handler e in (r, out ++ out')
  | other => other
  end.

Definition ofCompletion {A} (c : Completion A) : Process A :=
  match c with
  | Normal a => (Done a, [])
  | Throw e => (Raised e, [])
  end.

(** A call into [resolver.ts]: its console lines are kept. *)
Definition ofM {A} (m : M A) : Process A :=
  match m with
  | (Normal a, log) => (Done a, map Diagnostic log)
  | (Throw e, log) => (Raised e, map Diagnostic log)
  end.

(** The loop over the extensions in [validateArguments]: a failing
    [stat] is passed over. *)
Fixpoint probeFile (rt : Runtime) (base : string) (exts : list string) : bool :=
  match exts with
  | [] => false
  | ext :: more =>
      match stat rt (base +++ ext) with
      | Normal fileInfo => if isFile fileInfo then true else probeFile rt base more
      | Throw _ => probeFile rt base more
      end
  end.

(** The first [try] of [validateArguments]. *)
Definition checkTarget (rt : Runtime) (options : CliOptions.t) : Process unit :=
  let target := CliOptions.target options in
  match stat rt target with
  | Normal fileInfo =>
      if negb (isFile fileInfo) && negb (isDir fileInfo) then
        andThen (consoleError ["Error: target '" +++ target
                               +++ "' is not a file or directory"])
          (fun _ => exit 1)
      else done tt
  | Throw error =>
      if isNotFound error then
        if probeFile rt (Resolver.extensionBase target) Resolver.extensions
        then done tt
        else andThen (consoleError ["Error: target file or directory '" +++ target
                                    +++ "' not found"])
               (fun _ => exit 1)
      else raise error
  end.

(** The second [try] of [validateArguments]. *)
Definition checkRoot (rt : Runtime) (options : CliOptions.t) : Process unit :=
  let root := CliOptions.root options in
  match stat rt root with
  | Normal fileInfo =>
      if negb (isDir fileInfo) then
        andThen (consoleError ["Error: root '" +++ root +++ "' is not a directory"])
          (fun _ => exit 1)
      else done tt
  | Throw error =>
      if isNotFound error then
        andThen (consoleError ["Error: root directory '" +++ root +++ "' not found"])
          (fun _ => exit 1)
      else raise error
  end.

(** [validateArguments(options)] *)
Definition validateArguments (rt : Runtime) (options : CliOptions.t) : Process unit :=
  andThen (checkTarget rt options) (fun _ => checkRoot rt options).

Definition scannerOptions (options : CliOptions.t) : ScannerOptions.t :=
  ScannerOptions.mk (Some (CliOptions.extensions options))
    (Some (CliOptions.ignore options))
    (Some (CliOptions.followSymlinks options))
    (CliOptions.maxDepth options)
    (Some (CliOptions.concurrency options)).

(** What [main] makes of the matches of [findImporters]. *)
Definition importerResult (options : CliOptions.t)
    (resolvedImporters : list ResolvedImport.t) : ImporterResult.t :=
  let importerPaths := map ResolvedImport.sourceFile resolvedImporters in
  ImporterResult.mk (CliOptions.target options) (CliOptions.root options)
    (List.length importerPaths) importerPaths.

(** The [try] block of [main], after the arguments are parsed. *)
Definition search (rt : Runtime) (js : Output.Stringify) (options : CliOptions.t)
    : Process unit :=
  andThen (validateArguments rt options) (fun _ =>
  andThen (ofCompletion (stat rt (CliOptions.target options))) (fun targetStat =>
  let isTargetDirectory := isDir targetStat in
  andThen (ofCompletion (Scanner.scan rt (CliOptions.root options)
                           (scannerOptions options))) (fun files =>
  if isTargetDirectory then
    andThen (ofM (Matcher.findDirectoryImporters (host rt)
                    (CliOptions.target options) files (CliOptions.root options)))
      (fun results =>
         consoleLog (Output.formatDirectoryOutput js results (CliOptions.json options)))
  else
    andThen (ofM (Matcher.findImporters (host rt)
                    (CliOptions.target options) files (CliOptions.root options)))
      (fun resolvedImporters =>
         consoleLog (Output.formatOutput js (importerResult options resolvedImporters)
                       (CliOptions.json options)))))).

(** [main()]; [parseArguments] is the run of [parseArguments(Deno.args)]. *)
Definition main (rt : Runtime) (js : Output.Stringify)
    (parseArguments : Process CliOptions.t) : Process unit :=
  catch (andThen parseArguments (search rt js))
    (fun error =>
       andThen (consoleError ["Error:"; message error]) (fun _ => exit 1)).

End Cli.

(** ** Vocabulary of the statements *)

Module Vocabulary.
Import RegExp.

(** The pattern that matches exactly [s]. *)
Fixpoint literal (s : string) : regex :=
  match s with
  | EmptyString => Seq Eol Eps
  | String c r => Seq (chr c) (literal r)
  end.

(** What an entry of [paths] must be for [importPath] to hit it. *)
Definition hits (importPath : string) (e : string * list string) : bool :=
  (importPath =? JsString.replaceChar "*" "(.*)" (fst e))%string
  && match snd e with [] => false | _ :: _ => true end.

(** The text of a console line, without the error object. *)
Definition entryText (entry : LogEntry) : string :=
  match entry with
  | ConsoleWarn args => String.concat " " args
  | ConsoleError text _ => text
  end.

(** The console line names the file. *)
Definition mentions (entry : LogEntry) (filePath : string) : Prop :=
  exists before after, entryText entry = before +++ filePath +++ after.

(** The console line is a warning, written with [console.warn]. *)
Definition isWarning (entry : LogEntry) : bool :=
  match entry with
  | ConsoleWarn _ => true
  | ConsoleError _ _ => false
  end.

(** The configuration the two entry points work with: what the loaders
    gave, [None] when a loader threw. *)
Definition loadedImportMap (h : Host) (rootPath : string) : option ImportMap :=
  fst (Matcher.loadOrWarn (Resolver.loadImportMap h rootPath)
         "Warning: Could not load import map:").

Definition loadedTsConfig (h : Host) (rootPath : string) : option TsConfig :=
  fst (Matcher.loadOrWarn (Resolver.loadTsConfig h rootPath)
         "Warning: Could not load tsconfig:").

(** What the comparison of the runtime is for all strings: the sign
    flips with the arguments and at most is transitive.  Two different
    strings may compare equal: a collation ignores some characters. *)
Definition Collation (cmp : string -> string -> comparison) : Prop :=
  (forall a b, cmp b a = CompOpp (cmp a b)) /\
  (forall a b c, cmp a b <> Gt -> cmp b c <> Gt -> cmp a c <> Gt).

(** No two different strings of [keys] compare equal. *)
Definition tieFree (cmp : string -> string -> comparison) (keys : list string)
    : Prop :=
  forall a b, In a keys -> In b keys -> cmp a b = Eq -> a = b.

(** Sorted: no element compares above a later one. *)
Definition sortedBy {A} (cmp : A -> A -> comparison) (l : list A) : Prop :=
  StronglySorted (fun a b => cmp a b <> Gt) l.

(** The importers pushed under the referenced path [key], in the order
    they were pushed. *)
Definition pushedUnder (key : string) (pushed : list (string * Importer.t))
    : list Importer.t :=
  map snd (filter (fun e => (fst e =? key)%string) pushed).

(** Comparing by a string key, and having a given key. *)
Definition byKey {A} (key : A -> string) (cmp : string -> string -> comparison)
    (a b : A) : comparison := cmp (key a) (key b).

Definition hasKey {A} (key : A -> string) (k : string) (a : A) : bool :=
  (key a =? k)%string.

(** The entries of the map of groups under the key [K]. *)
Definition keyIs (K : string) (e : string * list Importer.t) : bool :=
  (fst e =? K)%string.

End Vocabulary.

(** ** Further vocabulary *)

Module Notions.

(** [tail] is what is left of [s] after some of its first characters. *)
Definition Suffix (tail s : string) : Prop := exists head, s = head +++ tail.

(** The line numbers of a list of import statements. *)
Definition lineNumbers (imports : list ImportStatement.t) : list nat :=
  map ImportStatement.lineNumber imports.

(** The line is left out of the scan: blank, or a comment. *)
Definition skipped (line : string) : bool :=
  negb (JsString.truthy (JsString.trim line))
  || JsString.startsWith (JsString.trim line) "//".

(** The line opens an import that goes on below: it has [import] and
    [{], and no [}]. *)
Definition opensImport (line : string) : bool :=
  JsString.includes line "import" && JsString.includes line "{"
  && negb (JsString.includes line "}").

(** The patterns a line is tried against on its own, in this order. *)
Definition singleLinePatterns : list RegExp.t :=
  Extractor.es6ImportPatterns ++ Extractor.cjsRequirePatterns
  ++ [Extractor.dynamicImportPattern].

(** A line inside an import over several lines: left out, or neither
    opening another import nor having [from]. *)
Definition goesOn (line : string) : bool :=
  skipped line || (negb (opensImport line) && negb (JsString.includes line "from")).

(** The text gathered from the opening line through the lines [middle]. *)
Definition gathered (opening : string) (middle : list string) : string :=
  fold_left (fun text line =>
               if skipped line then text else text +++ " " +++ JsString.trim line)
    middle opening.

(** What is known of the text that is being gathered: it started at a
    line that opens an import. *)
Definition startedAt (done : list string) (multi : string) (start : nat) : Prop :=
  JsString.truthy multi = true ->
  exists opening,
    nth_error done (start - 1) = Some opening /\
    skipped opening = false /\ opensImport opening = true.

(** What the line of a statement is: a line that opens an import, for a
    static import, or a line that matches on its own. *)
Definition comesFrom (lines : list string) (imp : ImportStatement.t) : Prop :=
  exists line,
    nth_error lines (ImportStatement.lineNumber imp - 1) = Some line /\
    skipped line = false /\
    ((opensImport line = true /\
      ImportStatement.type imp = es6 /\ ImportStatement.isDynamic imp = false) \/
     (opensImport line = false /\
      Extractor.firstMatch singleLinePatterns line = Some (ImportStatement.module imp))).

(** The characters an extension is made of: any but [/] and [.]. *)
Definition extensionChar (c : ascii) : bool :=
  negb (Ascii.eqb c "/" || Ascii.eqb c ".").

Fixpoint allChars (p : ascii -> bool) (s : string) : bool :=
  match s with
  | EmptyString => true
  | String c r => p c && allChars p r
  end.

(** A non-empty run of extension characters. *)
Definition isExtensionName (e : string) : bool :=
  JsString.truthy e && allChars extensionChar e.

(** Every input a pattern matches from its first character on includes
    the text [w]. *)
Definition Requires (w : string) (r : RegExp.regex) : Prop :=
  forall (A : Type) (s : string) (cap : option string)
         (k : string -> option string -> option A) (x : A),
    RegExp.run r s cap k = Some x -> JsString.includes s w = true.

(** A match of [findImporters], as [findDirectoryImporters] records it. *)
Definition toImporter (r : ResolvedImport.t) : Importer.t :=
  Importer.mk (ResolvedImport.sourceFile r) (ResolvedImport.importPath r)
    (ResolvedImport.lineNumber r).

(** The importers of a map entry, each with the key they stand under. *)
Definition tagged (e : string * list Importer.t) : list (string * Importer.t) :=
  map (pair (fst e)) (snd e).

(** The importers of a directory result, each with the referenced path
    of its group. *)
Definition entries (groups : list ImportGroup.t) : list (string * Importer.t) :=
  flat_map (fun g => map (pair (ImportGroup.importedFile g)) (ImportGroup.importers g))
    groups.

(** The lines of the text for a directory that name an importer: those
    that start with a space, without it. *)
Definition importerLines (lines : list string) : list string :=
  map (JsString.slice 1) (filter (fun line => JsString.startsWith line " ") lines).

(** *** The scanner *)

(** [a] is [b] with some of its elements left out. *)
Inductive Subsequence {A : Type} : list A -> list A -> Prop :=
| sub_nil : Subsequence [] []
| sub_skip (x : A) (a b : list A) : Subsequence a b -> Subsequence a (x :: b)
| sub_keep (x : A) (a b : list A) : Subsequence a b -> Subsequence (x :: a) (x :: b).

(** The inode number [stat] reports for a path, if it reports one. *)
Definition inodeOf (rt : Runtime) (path : string) : option nat :=
  match stat rt path with
  | Normal fileInfo => ino fileInfo
  | Throw _ => None
  end.

(** Two paths for which [stat] reports the same inode number. *)
Definition sameInode (rt : Runtime) (p q : string) : bool :=
  match inodeOf rt p, inodeOf rt q with
  | Some a, Some b => (a =? b)%nat
  | _, _ => false
  end.

(** [path], or another path with its inode number, is among [earlier]. *)
Definition metBefore (rt : Runtime) (earlier : list string) (path : string) : bool :=
  existsb (fun q => (path =? q)%string || sameInode rt q path) earlier.

(** The two filters of the scanner: the extension is listed and no
    ignore pattern matches the path below the root or a directory on
    the way to it. *)
Definition passesFilters (rt : Runtime) (rootPath : string) (extensions : list string)
    (ignoreRegexes : list (string -> bool)) (path : string) : bool :=
  existsb (String.eqb (extname rt path)) extensions
  && negb (Scanner.shouldIgnore ignoreRegexes
             (Path.relative (host rt) rootPath path)).

(** One of the two caches of the scanner holds [path]: its inode number
    or the path itself. *)
Definition cached (rt : Runtime) (st : Scanner.State) (path : string) : bool :=
  match inodeOf rt path with
  | Some n => existsb (Nat.eqb n) (Scanner.processedInodes st)
  | None => false
  end
  || existsb (String.eqb path) (Scanner.processedFiles st).

(** The inode number of every cached path is cached. *)
Definition cachesAgree (rt : Runtime) (st : Scanner.State) : Prop :=
  forall x n, In x (Scanner.processedFiles st) -> inodeOf rt x = Some n ->
    In n (Scanner.processedInodes st).

(** What [scan] makes of an error raised inside its loop. *)
Definition scanFailure (rootPath : string) (error : JsError) : JsError :=
  if isNotFound error then mkError GenericError ("Path not found: " +++ rootPath)
  else error.

End Notions.

(** ** Further sample trees *)

Module Scenario.

(** An import that spans four lines, then a [require]. *)
Definition multiLine : Host :=
  Sample.host
    [ ("/r", Sample.Dir); ("/r/lib", Sample.Dir);
      ("/r/lib/x.ts", Sample.File "export const a = 1, b = 2;");
      ("/r/lib/y.js", Sample.File "module.exports = 3;");
      ("/r/main.ts",
       Sample.File ("import {" +++ Sample.newline
                    +++ "  a," +++ Sample.newline
                    +++ "  b" +++ Sample.newline
                    +++ "} from './lib/x.ts';" +++ Sample.newline
                    +++ "const y = require('./lib/y');" +++ Sample.newline)) ].

(** The fixture tree, its import written without semicolon. *)
Definition noSemicolon : Host :=
  Sample.host
    [ ("/r", Sample.Dir);
      ("/r/button.tsx", Sample.File "export default function Button() {}");
      ("/r/component1.tsx",
       Sample.File ("import Button from './button.tsx'" +++ Sample.newline)) ].

(** A root whose two configuration files are there and do not parse. *)
Definition brokenConfig : Host :=
  Sample.host
    [ ("/r", Sample.Dir);
      ("/r/import_map.json", Sample.File "{ imports: }");
      ("/r/tsconfig.json", Sample.File "{ // paths }");
      ("/r/button.tsx", Sample.File "export default 1;");
      ("/r/component1.tsx",
       Sample.File ("import Button from './button.tsx';" +++ Sample.newline)) ].

(** The extension in the sample trees: the text from the last dot on,
    when no separator follows that dot. *)
Definition extnameOf (path : string) : string :=
  match RegExp.exec Resolver.extensionPattern path with
  | Some m => RegExp.matched m
  | None => ""
  end.

(** A runtime over a sample tree: inode numbers from a table, a walk
    that yields the given entries and ends with the given error, and
    ignore patterns that match the path that is the pattern. *)
Definition runtime (tree : list (string * Sample.Node))
    (inodes : list (string * nat)) (entries : list string)
    (failure : option JsError) : Runtime :=
  {| host := Sample.host tree;
     isFileAt := fun path =>
       match Sample.lookup tree path with
       | Some (Sample.File _) | Some Sample.Unreadable | Some Sample.Vanishing => true
       | _ => false
       end;
     inoAt := fun path =>
       option_map snd (find (fun e => (fst e =? path)%string) inodes);
     walk := fun _ _ => (entries, failure);
     extname := extnameOf;
     globToRegExp := fun pattern => Normal (String.eqb pattern) |}.

(** [a.ts] is a second name of the file [notes.txt]; [b.ts] is yielded
    twice; [m.js] is below [node_modules]. *)
Definition linkedTree : list (string * Sample.Node) :=
  [ ("/r", Sample.Dir); ("/r/node_modules", Sample.Dir);
    ("/r/notes.txt", Sample.File "export const a = 1;");
    ("/r/a.ts", Sample.File "export const a = 1;");
    ("/r/b.ts", Sample.File "import { a } from './a.ts';");
    ("/r/node_modules/m.js", Sample.File "module.exports = 1;") ].

Definition linked : Runtime :=
  runtime linkedTree
    [ ("/r/notes.txt", 7); ("/r/a.ts", 7); ("/r/b.ts", 8);
      ("/r/node_modules/m.js", 9) ]
    ["/r/notes.txt"; "/r/a.ts"; "/r/b.ts"; "/r/node_modules/m.js"; "/r/b.ts"]
    None.

(** The walk yields [dangling.ts], a link to a file that is gone. *)
Definition dangling : Runtime :=
  runtime linkedTree [ ("/r/b.ts", 8) ] ["/r/b.ts"; "/r/dangling.ts"] None.

(** [twice.ts] imports [button.tsx] in two statements; [lib/util] has the
    extension [.ts] on disk only. *)
Definition twiceTree : list (string * Sample.Node) :=
  [ ("/r", Sample.Dir); ("/r/lib", Sample.Dir);
    ("/r/button.tsx", Sample.File "export default 1;");
    ("/r/lib/util.ts", Sample.File "export const u = 1;");
    ("/r/twice.ts",
     Sample.File ("import Button from './button.tsx';" +++ Sample.newline
                  +++ "import { util } from './lib/util';" +++ Sample.newline
                  +++ "import Again from './button.tsx';" +++ Sample.newline)) ].

Definition twice : Runtime :=
  runtime twiceTree [] ["/r/button.tsx"; "/r/lib/util.ts"; "/r/twice.ts"] None.

(** A [JSON.stringify] that is never looked at. *)
Definition noJson : Output.Stringify :=
  Output.mkStringify (fun _ => "{}") (fun _ => "{}").

Definition options (target root : string) : CliOptions.t :=
  CliOptions.mk target root false Scanner.defaultExtensions Scanner.defaultIgnore
    false None 4 false false.

(** What [findDirectoryImporters] returns for [/r/lib] in the tree
    [library]. *)
Definition libraryResult : DirectoryImporterResult.t :=
  DirectoryImporterResult.mk "/r/lib" "/r" 3
    [ ImportGroup.mk "x.ts" [ Importer.mk "/r/a.ts" "./lib/x" 1;
                              Importer.mk "/r/b.ts" "./lib/x.ts" 2 ];
      ImportGroup.mk "y.ts" [ Importer.mk "/r/b.ts" "./lib/y.ts" 1 ] ].

(** What a file system answers for a path that goes through a regular
    file: an error that is not [NotFound]. *)
Definition notADirectory : JsError :=
  mkError GenericError "Not a directory (os error 20)".

(** The fixture tree, with that answer for every path below
    [button.tsx]. *)
Definition belowFile : Host :=
  {| cwd := cwd Sample.fixtures;
     statSync := fun path =>
       if JsString.startsWith path "/r/button.tsx/" then Throw notADirectory
       else statSync Sample.fixtures path;
     readTextFile := fun path =>
       if JsString.startsWith path "/r/button.tsx/" then Throw notADirectory
       else readTextFile Sample.fixtures path;
     readGranted := readGranted Sample.fixtures;
     parseImportMapJSON := parseImportMapJSON Sample.fixtures;
     parseTsConfigJSON := parseTsConfigJSON Sample.fixtures;
     localeCompare := localeCompare Sample.fixtures |}.

(** A tree where the second variant of [/r/x] is refused: no read
    permission for [/r/x.tsx]. *)
Definition lockedVariant : Host :=
  Sample.host [ ("/r", Sample.Dir); ("/r/a.ts", Sample.File "import x from './x';");
                ("/r/x.tsx", Sample.Locked) ].

(** The soft hyphen, a character a collation ignores. *)
Definition softHyphen : string := String "173" EmptyString.

(** The comparison by code units of what is left without soft hyphens. *)
Definition ignoringSoftHyphen (a b : string) : comparison :=
  String.compare (JsString.replaceChar "173" "" a) (JsString.replaceChar "173" "" b).

Definition plainName : string := "/r/ab.ts".
Definition hyphenName : string := "/r/a" +++ softHyphen +++ "b.ts".

Definition hyphenTree : list (string * Sample.Node) :=
  [ ("/r", Sample.Dir); ("/r/lib", Sample.Dir);
    ("/r/lib/x.ts", Sample.File "export const x = 1;");
    (plainName, Sample.File ("import { x } from './lib/x.ts';" +++ Sample.newline));
    (hyphenName, Sample.File ("import { x } from './lib/x.ts';" +++ Sample.newline)) ].

(** Two importers whose names differ by a soft hyphen, under a
    comparison that ignores it. *)
Definition hyphenated : Host :=
  let base := Sample.host hyphenTree in
  {| cwd := cwd base;
     statSync := statSync base;
     readTextFile := readTextFile base;
     readGranted := readGranted base;
     parseImportMapJSON := parseImportMapJSON base;
     parseTsConfigJSON := parseTsConfigJSON base;
     localeCompare := ignoringSoftHyphen |}.

(** [{}] *)
Definition noOptions : ScannerOptions.t :=
  ScannerOptions.mk None None None None None.

End Scenario.

(** * Properties *)

(** ** The monad *)

Lemma bind_normal_nil {A B} (a : A) (f : A -> M B) : bind (Normal a, []) f = f a.
Proof. unfold bind. destruct (f a) as [r l]. reflexivity. Qed.

Lemma bind_throw {A B} (e : JsError) (l : list LogEntry) (f : A -> M B) :
  bind (Throw e, l) f = (Throw e, l).
Proof. reflexivity. Qed.

Lemma bind_ret {A B} (a : A) (f : A -> M B) : bind (ret a) f = f a.
Proof. apply bind_normal_nil. Qed.

Lemma bind_lift_normal {A B} (a : A) (f : A -> M B) : bind (lift (Normal a)) f = f a.
Proof. apply bind_normal_nil. Qed.

Lemma existsSync_false_stat (h : Host) (path : string) :
  existsSync h path = Normal false ->
  exists e, statSync h path = Throw e /\ isNotFound e = true.
Proof.
  unfold existsSync. destruct (statSync h path) as [info | e]; [discriminate |].
  destruct (isNotFound e) eqn:Hnf.
  - intros _. exists e. split; [reflexivity | exact Hnf].
  - destruct (isPermissionDenied e && readGranted h path); discriminate.
Qed.

(** The error [existsSync] throws is the one of [stat], and it is not
    [NotFound]. *)
Lemma existsSync_throw_stat (h : Host) (path : string) (e : JsError) :
  existsSync h path = Throw e ->
  statSync h path = Throw e /\ isNotFound e = false.
Proof.
  unfold existsSync. destruct (statSync h path) as [info | e']; [discriminate |].
  destruct (isNotFound e') eqn:Hnf; [discriminate |].
  destruct (isPermissionDenied e' && readGranted h path); [discriminate |].
  intros [= <-]. split; [reflexivity | exact Hnf].
Qed.

(** ** Patterns built at run time stay literal *)

Module PatternFacts.
Import RegExp RegExpSource Resolver Vocabulary.

Lemma parseAtoms_cons (c : ascii) (r : string) :
  parseAtoms (String c r) =
  if Ascii.eqb c "\" then
    match r with
    | EmptyString => None
    | String d r' =>
        if isIdentityEscape d then option_map (Seq (chr d)) (parseAtoms r')
        else None
    end
  else if Ascii.eqb c "$" then option_map (Seq Eol) (parseAtoms r)
  else if isSyntaxChar c then None
  else option_map (Seq (chr c)) (parseAtoms r).
Proof.
  destruct c as [[] [] [] [] [] [] [] []]; try reflexivity;
    destruct r; reflexivity.
Qed.

Lemma needsEscape_cases (c : ascii) :
  if needsEscape c then isIdentityEscape c = true
  else Ascii.eqb c "\" = false /\ Ascii.eqb c "$" = false /\ isSyntaxChar c = false.
Proof.
  destruct c as [[] [] [] [] [] [] [] []]; vm_compute; repeat split; reflexivity.
Qed.

Lemma parseAtoms_escaped (s : string) :
  parseAtoms (escapeRegExp s +++ "$") = Some (literal s).
Proof.
  induction s as [| c r IH]; [reflexivity |].
  cbn [escapeRegExp]. pose proof (needsEscape_cases c) as Hc.
  destruct (needsEscape c).
  - cbn [String.append].
    rewrite parseAtoms_cons. cbn [Ascii.eqb Bool.eqb].
    rewrite Hc, IH. reflexivity.
  - destruct Hc as (Hb & Hd & Hs).
    cbn [String.append]. rewrite parseAtoms_cons, Hb, Hd, Hs, IH. reflexivity.
Qed.

Lemma construct_escaped (s : string) :
  construct ("^" +++ escapeRegExp s +++ "$") = Some (mk true (literal s)).
Proof.
  cbn [String.append construct]. rewrite parseAtoms_escaped. reflexivity.
Qed.

Lemma groups_literal (s : string) : groups (literal s) = 0.
Proof. induction s; cbn; auto. Qed.

Lemma run_literal {A} (s : string) :
  forall (input : string) (cap : option string)
         (k : string -> option string -> option A),
    run (literal s) input cap k =
    if (input =? s)%string then k EmptyString cap else None.
Proof.
  induction s as [| c r IH]; intros input cap k.
  - destruct input; reflexivity.
  - destruct input as [| d input']; [reflexivity |].
    cbn [literal run chr String.eqb]. rewrite (Ascii.eqb_sym c d).
    destruct (Ascii.eqb d c); [apply IH | reflexivity].
Qed.

Lemma exec_literal (s input : string) :
  exec (mk true (literal s)) input =
  if (input =? s)%string
  then Some (mkMatch 0 (String.substring 0 (String.length input - 0) input)
               None EmptyString)
  else None.
Proof.
  unfold exec, matchHere. cbn [anchored body]. rewrite run_literal.
  destruct (input =? s)%string; reflexivity.
Qed.

(** The loop over [paths] is a search for an entry whose pattern, with
    each star spelled out as a group, is the specifier itself; the
    template of the entry is used as it stands. *)
Lemma matchPaths_literal (h : Host) (importerPath importPath baseUrl : string)
    (entries : list (string * list string)) :
  matchPaths h importerPath importPath baseUrl entries =
  ret (match find (hits importPath) entries with
       | Some (_, first :: _) =>
           Some (Path.resolve h [Path.dirname importerPath; baseUrl; first])
       | _ => None
       end).
Proof.
  induction entries as [| [pattern replacements] more IH]; [reflexivity |].
  cbn [matchPaths find]. unfold regexPattern. rewrite construct_escaped.
  rewrite exec_literal. unfold hits at 1. cbn [fst snd body].
  rewrite groups_literal.
  destruct (importPath =? _)%string; cbn [andb].
  - destruct replacements as [| first rest]; [apply IH | reflexivity].
  - apply IH.
Qed.

End PatternFacts.

(** ** The tests of the repository, on the embedding *)

(** should parse ES6 imports correctly *)
Example test_parse_es6_imports :
  Extractor.parseImports Sample.testFixtures "/r/tests/fixtures/component1.tsx"
  = (Normal [ImportStatement.mk es6 "./button.tsx" false 1], []).
Proof. vm_compute. reflexivity. Qed.

(** should parse CommonJS requires correctly *)
Example test_parse_commonjs_requires :
  Extractor.parseImports Sample.testFixtures "/r/tests/fixtures/component6.js"
  = (Normal [ImportStatement.mk commonjs "./button.tsx" false 1], []).
Proof. vm_compute. reflexivity. Qed.

(** should parse extensionless imports correctly *)
Example test_parse_extensionless_imports :
  Extractor.parseImports Sample.testFixtures "/r/tests/fixtures/component14.tsx"
  = (Normal [ImportStatement.mk es6 "./component" false 1;
             ImportStatement.mk es6 "./button" false 2], []).
Proof. vm_compute. reflexivity. Qed.

(** should handle non-existent files *)
Example test_parse_missing_file :
  Extractor.parseImports Sample.testFixtures "non-existent-file.ts"
  = (Throw (mkError NotFound "File not found: non-existent-file.ts"), []).
Proof. vm_compute. reflexivity. Qed.

(** should resolve relative paths correctly *)
Example test_resolve_relative_path :
  Resolver.resolveImportPath Sample.testFixtures
    "/r/tests/fixtures/component1.tsx" "./button.tsx" None None
  = (Normal (Some "/r/tests/fixtures/button.tsx"), []).
Proof. vm_compute. reflexivity. Qed.

(** should resolve tsconfig paths correctly: a pattern without a star *)
Example test_resolve_tsconfig_paths :
  Resolver.resolveImportPath Sample.testFixtures
    "/r/tests/fixtures/component11.tsx" "@button" None
    (Some (mkTsConfig (Some (mkCompilerOptions (Some ".")
                               (Some [("@button", ["./button.tsx"])])))))
  = (Normal (Some "/r/tests/fixtures/button.tsx"), []).
Proof. vm_compute. reflexivity. Qed.

(** should resolve extensionless relative paths correctly *)
Example test_resolve_extensionless_path :
  Resolver.resolveImportPath Sample.testFixtures
    "/r/tests/fixtures/component14.tsx" "./component" None None
  = (Normal (Some "/r/tests/fixtures/component.tsx"), []).
Proof. vm_compute. reflexivity. Qed.

(** should find importers correctly *)
Example test_find_importers :
  fst (Matcher.findImporters Sample.testFixtures "/r/tests/fixtures/button.tsx"
         ["/r/tests/fixtures/component1.tsx"; "/r/tests/fixtures/component6.js";
          "/r/tests/fixtures/nested/component8.tsx"] "/r/tests/fixtures")
  = Normal
      [ResolvedImport.mk "/r/tests/fixtures/component1.tsx" "./button.tsx"
         "/r/tests/fixtures/button.tsx" 1;
       ResolvedImport.mk "/r/tests/fixtures/component6.js" "./button.tsx"
         "/r/tests/fixtures/button.tsx" 1;
       ResolvedImport.mk "/r/tests/fixtures/nested/component8.tsx" "../button.tsx"
         "/r/tests/fixtures/button.tsx" 1].
Proof. vm_compute. reflexivity. Qed.

(** should handle non-existent target file *)
Example test_missing_target :
  fst (Matcher.findImporters Sample.testFixtures "non-existent-file.ts"
         ["/r/tests/fixtures/component1.tsx"] "/r/tests/fixtures")
  = Throw (mkError NotFound "Target file not found: non-existent-file.ts").
Proof. vm_compute. reflexivity. Qed.

(** ** [resolveImportPath] *)

Section ResolveImportPath.
Import Resolver.

Variable h : Host.
Variables importerPath importPath : string.

Lemma prefix_refl (s : string) : String.prefix s s = true.
Proof.
  induction s as [| c r IH]; [reflexivity |].
  cbn. destruct (ascii_dec c c) as [_ | Hne]; [exact IH | now elim Hne].
Qed.

Lemma find_weaken {A} (p q : A -> bool) (l : list A) :
  (forall x, p x = true -> q x = true) ->
  forall x, find p l = Some x -> exists y, find q l = Some y.
Proof.
  intros Hpq x Hx. destruct (find q l) as [y |] eqn:Hq; [now exists y |].
  apply find_some in Hx. destruct Hx as [Hin Hp].
  pose proof (find_none q l Hq x Hin) as Hqx.
  rewrite (Hpq x Hp) in Hqx. discriminate.
Qed.

(** A key of the import map is a prefix of itself: once the specifier
    is a key, the prefix search cannot come back empty. *)
Lemma key_has_prefix_entry (entries : list (string * string)) (value : string) :
  getProperty entries importPath = Own value ->
  exists e, prefixEntry entries importPath = Some e.
Proof.
  unfold getProperty, prefixEntry.
  destruct (find (fun kv => (fst kv =? importPath)%string) entries) as [kv |] eqn:Hf.
  - intros _. eapply find_weaken; [| exact Hf].
    intros x Hx. apply String.eqb_eq in Hx. cbn beta in *. rewrite Hx.
    unfold JsString.startsWith. apply prefix_refl.
  - destruct (existsb _ _); discriminate.
Qed.

Lemma resolveImportPath_of_body (r : option string) (log : list LogEntry)
    importMap tsConfig :
  resolveImportPathBody h importerPath importPath importMap tsConfig
    = (Normal r, log) ->
  resolveImportPath h importerPath importPath importMap tsConfig = (Normal r, log).
Proof. unfold resolveImportPath, tryCatch. intros ->. reflexivity. Qed.

(** When the first two strategies fall through, a relative specifier
    whose resolved path exists, file or directory, is answered with that
    path: the search for an index file is not reached. *)
Lemma existing_path_returned importMap tsConfig :
  isRelative importPath = true ->
  resolveWithImportMap h importerPath importPath importMap = ret None ->
  resolveWithTsConfig h importerPath importPath tsConfig = ret None ->
  existsSync h (Path.resolve h [Path.dirname importerPath; importPath]) = Normal true ->
  resolveImportPath h importerPath importPath importMap tsConfig
    = (Normal (Some (Path.resolve h [Path.dirname importerPath; importPath])), []).
Proof.
  intros Hrel Him Hts Hex. apply resolveImportPath_of_body.
  unfold resolveImportPathBody. rewrite Him, bind_ret, Hts, bind_ret, Hrel.
  unfold resolveRelative. rewrite Hex, bind_lift_normal. reflexivity.
Qed.

Lemma firstExisting_none (mk : string -> string) (exts : list string) :
  (forall ext, In ext exts -> existsSync h (mk ext) = Normal false) ->
  firstExisting h mk exts = ret None.
Proof.
  induction exts as [| ext more IH]; intros Hall; [reflexivity |].
  cbn [firstExisting]. rewrite (Hall ext (or_introl eq_refl)), bind_lift_normal.
  apply IH. intros e He. apply Hall. now right.
Qed.

(** The probe stops at the first existence check that throws. *)
Lemma firstExisting_throw (mk : string -> string) (before after : list string)
    (ext : string) (e : JsError) :
  (forall x, In x before -> existsSync h (mk x) = Normal false) ->
  existsSync h (mk ext) = Throw e ->
  firstExisting h mk (before ++ ext :: after) = (Throw e, []).
Proof.
  induction before as [| x more IH]; intros Hall Hthrow.
  - cbn [app firstExisting]. rewrite Hthrow. reflexivity.
  - cbn [app firstExisting].
    rewrite (Hall x (or_introl eq_refl)), bind_lift_normal.
    apply IH; [| exact Hthrow]. intros y Hy. apply Hall. now right.
Qed.

(** What the [catch] makes of an error thrown in the [try] block. *)
Lemma resolveImportPath_of_throw (e : JsError) importMap tsConfig :
  resolveImportPathBody h importerPath importPath importMap tsConfig
    = (Throw e, []) ->
  resolveImportPath h importerPath importPath importMap tsConfig
  = (Normal None,
     [ConsoleError ("Error resolving import path '" +++ importPath
                    +++ "' in '" +++ importerPath +++ "':") e]).
Proof. unfold resolveImportPath, tryCatch. intros ->. reflexivity. Qed.

(** The [catch] of [resolveImportPath] does not throw. *)
Lemma resolveImportPath_completes importMap tsConfig :
  exists r log,
    resolveImportPath h importerPath importPath importMap tsConfig = (Normal r, log).
Proof.
  unfold resolveImportPath, tryCatch.
  destruct (resolveImportPathBody h importerPath importPath importMap tsConfig)
    as [[r | e] l]; eexists _, _; reflexivity.
Qed.

End ResolveImportPath.

(** C8.  [resolveImportPath] never throws: whatever the importer, the
    specifier, the import map and the path mapping, the call completes
    normally, and when anything inside its [try] block throws, the value
    returned is [null] and the error goes to the console. *)
Theorem resolveImportPath_never_throws (h : Host) (importerPath importPath : string)
    (importMap : option ImportMap) (tsConfig : option TsConfig) :
  (exists r log,
     Resolver.resolveImportPath h importerPath importPath importMap tsConfig
       = (Normal r, log)) /\
  (forall e l,
     Resolver.resolveImportPathBody h importerPath importPath importMap tsConfig
       = (Throw e, l) ->
     Resolver.resolveImportPath h importerPath importPath importMap tsConfig
       = (Normal None,
          l ++ [ConsoleError ("Error resolving import path '" +++ importPath
                              +++ "' in '" +++ importerPath +++ "':") e])).
Proof.
  unfold Resolver.resolveImportPath, tryCatch.
  destruct (Resolver.resolveImportPathBody h importerPath importPath importMap tsConfig)
    as [[r | e] l]; split.
  - now exists r, l.
  - intros e' l' Heq. discriminate Heq.
  - eexists _, _. reflexivity.
  - intros e' l' Heq. inversion Heq; subst. reflexivity.
Qed.

(** A refused [stat] while probing is caught. *)
Lemma resolveImportPath_never_throws_witness :
  Resolver.resolveImportPathBody Sample.faulty "/r/a.ts" "./secret" None None
    = (Throw (mkError PermissionDenied "Requires read access"), []) /\
  fst (Resolver.resolveImportPath Sample.faulty "/r/a.ts" "./secret" None None)
    = Normal None.
Proof.
  assert (Hbody : Resolver.resolveImportPathBody Sample.faulty "/r/a.ts" "./secret"
                    None None
                  = (Throw (mkError PermissionDenied "Requires read access"), []))
    by (vm_compute; reflexivity).
  split; [exact Hbody |].
  destruct (resolveImportPath_never_throws Sample.faulty "/r/a.ts" "./secret" None None)
    as [_ Hcatch].
  rewrite (Hcatch _ _ Hbody). reflexivity.
Defined.

(** C1.  The star of a path pattern captures nothing.  The pattern is
    escaped after its star has been turned into a group, so the loop over
    the patterns only looks for an entry whose pattern, with each star
    spelled out as the five characters of the group, is the specifier
    itself, and it uses the first template of that entry with its star in
    place.  With the path mapping of the README, [@components/*] to
    [src/components/*], the specifier [@components/button] is therefore
    not resolved. *)
Theorem tsconfig_wildcard_is_not_captured :
  (forall h importerPath importPath baseUrl entries,
     Resolver.matchPaths h importerPath importPath baseUrl entries =
     ret (match find (Vocabulary.hits importPath) entries with
          | Some (_, first :: _) =>
              Some (Path.resolve h [Path.dirname importerPath; baseUrl; first])
          | _ => None
          end)) /\
  Resolver.resolveImportPath Sample.fixtures "/r/src/app.ts" "@components/button"
    None (Some Sample.readmeTsConfig) = (Normal None, []) /\
  Resolver.resolveImportPath Sample.fixtures "/r/src/app.ts" "@components/(.*)"
    None (Some Sample.readmeTsConfig)
  = (Normal (Some "/r/src/src/components/*"), []).
Proof.
  split; [exact PatternFacts.matchPaths_literal |].
  split; vm_compute; reflexivity.
Qed.

(** C2.  [./lib] names an existing directory that holds [index.ts]; the
    answer is the directory itself, not the index file. *)
Theorem directory_specifier_returns_directory :
  statSync Sample.withIndex "/r/lib" = Normal (mkFileInfo true) /\
  existsSync Sample.withIndex (Path.join ["/r/lib"; "index.ts"]) = Normal true /\
  Resolver.resolveImportPath Sample.withIndex "/r/a.ts" "./lib" None None
    = (Normal (Some "/r/lib"), []).
Proof. repeat split; vm_compute; reflexivity. Qed.

(** C4, as stated, fails: [ab] is a key of the import map, its
    replacement is empty, and the answer comes from the entry [a], found
    by the prefix search. *)
Lemma alias_exact_match_counterexample :
  Resolver.getProperty [("a", "./x"); ("ab", "")] "ab" = Resolver.Own "" /\
  Resolver.resolveImportPath Sample.fixtures "/r/m.ts" "ab"
    (Some Sample.emptyReplacement) None = (Normal (Some "/r/x/b"), []) /\
  fst (Resolver.resolveImportPath Sample.fixtures "/r/m.ts" "ab"
         (Some Sample.emptyReplacement) None)
  <> Normal (Some (Path.resolve Sample.fixtures [Path.dirname "/r/m.ts"; ""])).
Proof.
  repeat split; try (vm_compute; reflexivity).
  vm_compute. discriminate.
Qed.

(** C4, amended.  For a specifier that is a key of the import map: when
    its replacement is not empty, the answer is the replacement resolved
    against the directory of the importer; and whatever the replacement,
    the answer is a path found through the import map and is the same
    with and without a path mapping. *)
Theorem alias_entry_precedence (h : Host) (importerPath importPath : string)
    (entries : list (string * string)) sc (tsConfig : option TsConfig)
    (value : string) :
  Resolver.getProperty entries importPath = Resolver.Own value ->
  let importMap := Some (mkImportMap (Some entries) sc) in
  (JsString.truthy value = true ->
   Resolver.resolveImportPath h importerPath importPath importMap tsConfig
   = (Normal (Some (Path.resolve h [Path.dirname importerPath; value])), [])) /\
  (exists p,
     Resolver.resolveImportPath h importerPath importPath importMap tsConfig
     = (Normal (Some p), [])) /\
  Resolver.resolveImportPath h importerPath importPath importMap tsConfig
  = Resolver.resolveImportPath h importerPath importPath importMap None.
Proof.
  intros Hkey importMap.
  destruct (key_has_prefix_entry importPath entries value Hkey) as [[prefix repl] Hpre].
  assert (Hmap : exists p,
             Resolver.resolveWithImportMap h importerPath importPath importMap
             = ret (Some p) /\
             (JsString.truthy value = true ->
              p = Path.resolve h [Path.dirname importerPath; value])).
  { unfold Resolver.resolveWithImportMap, importMap. cbn [imports]. rewrite Hkey.
    destruct (JsString.truthy value).
    - rewrite bind_ret. eexists. split; [reflexivity | intros _; reflexivity].
    - rewrite bind_ret, Hpre. eexists. split; [reflexivity | discriminate]. }
  destruct Hmap as (p & Hp & Hval).
  assert (Hany : forall ts,
             Resolver.resolveImportPath h importerPath importPath importMap ts
             = (Normal (Some p), [])).
  { intros ts. apply resolveImportPath_of_body.
    unfold Resolver.resolveImportPathBody. rewrite Hp, bind_ret. reflexivity. }
  repeat split.
  - intros Ht. rewrite Hany, (Hval Ht). reflexivity.
  - exists p. apply Hany.
  - now rewrite !Hany.
Qed.

(** The entry [button] of the tests wins over a path mapping that has the
    same key. *)
Lemma alias_entry_precedence_witness :
  Resolver.resolveImportPath Sample.fixtures "/r/component10.tsx" "button"
    (Some (mkImportMap (Some [("button", "./button.tsx")]) None))
    (Some (mkTsConfig (Some (mkCompilerOptions (Some ".")
                               (Some [("button", ["./other.tsx"])])))))
  = (Normal (Some "/r/button.tsx"), []).
Proof.
  destruct (alias_entry_precedence Sample.fixtures "/r/component10.tsx" "button"
              [("button", "./button.tsx")] None
              (Some (mkTsConfig (Some (mkCompilerOptions (Some ".")
                                         (Some [("button", ["./other.tsx"])])))))
              "./button.tsx" eq_refl) as [Hexact _].
  exact (Hexact eq_refl).
Defined.

(** C5, as stated, fails: nothing exists at [/r/x] nor under any
    extension, and yet the relative specifier [./x] is not answered with
    [/r/x], because an entry of the import map is a prefix of it. *)
Lemma relative_fallback_counterexample :
  Resolver.isRelative "./x" = true /\
  Path.resolve Sample.fixtures [Path.dirname "/r/a.ts"; "./x"] = "/r/x" /\
  existsSync Sample.fixtures "/r/x" = Normal false /\
  Resolver.firstExisting Sample.fixtures
    (fun ext => Resolver.extensionBase "/r/x" +++ ext) Resolver.extensions
    = ret None /\
  Resolver.firstExisting Sample.fixtures
    (fun ext => Path.join ["/r/x"; "index" +++ ext]) Resolver.extensions
    = ret None /\
  Resolver.resolveImportPath Sample.fixtures "/r/a.ts" "./x"
    (Some Sample.dotSlashAlias) None = (Normal (Some "/r/vendor/x"), []) /\
  fst (Resolver.resolveImportPath Sample.fixtures "/r/a.ts" "./x"
         (Some Sample.dotSlashAlias) None)
  <> Normal (Some (Path.resolve Sample.fixtures [Path.dirname "/r/a.ts"; "./x"])).
Proof.
  repeat split; try (vm_compute; reflexivity).
  vm_compute. discriminate.
Qed.

(** C5, amended.  For a relative specifier that neither the import map
    nor the path mapping answers: when the existence check says no for
    the resolved path and for its extension-stripped base under each of
    the six extensions, the answer is the resolved path itself, not
    [null]; when the existence check of the resolved path throws, or
    the first check of a variant that does not say no throws, the error
    is written with [console.error] and the answer is [null]. *)
Theorem relative_fallback_best_effort (h : Host) (importerPath importPath : string)
    (importMap : option ImportMap) (tsConfig : option TsConfig) :
  let resolved := Path.resolve h [Path.dirname importerPath; importPath] in
  let variant := fun ext => Resolver.extensionBase resolved +++ ext in
  let refused := fun e =>
    (Normal (@None string),
     [ConsoleError ("Error resolving import path '" +++ importPath
                    +++ "' in '" +++ importerPath +++ "':") e]) in
  Resolver.isRelative importPath = true ->
  Resolver.resolveWithImportMap h importerPath importPath importMap = ret None ->
  Resolver.resolveWithTsConfig h importerPath importPath tsConfig = ret None ->
  (existsSync h resolved = Normal false ->
   (forall ext, In ext Resolver.extensions ->
      existsSync h (variant ext) = Normal false) ->
   Resolver.resolveImportPath h importerPath importPath importMap tsConfig
   = (Normal (Some resolved), []))
  /\ (forall e, existsSync h resolved = Throw e ->
      Resolver.resolveImportPath h importerPath importPath importMap tsConfig
      = refused e)
  /\ (forall e before ext after,
      existsSync h resolved = Normal false ->
      Resolver.extensions = before ++ ext :: after ->
      (forall x, In x before -> existsSync h (variant x) = Normal false) ->
      existsSync h (variant ext) = Throw e ->
      Resolver.resolveImportPath h importerPath importPath importMap tsConfig
      = refused e).
Proof.
  intros resolved variant refused Hrel Him Hts.
  assert (Hbody : Resolver.resolveImportPathBody h importerPath importPath
                    importMap tsConfig
                  = Resolver.resolveRelative h importerPath importPath).
  { unfold Resolver.resolveImportPathBody.
    rewrite Him, bind_ret, Hts, bind_ret, Hrel. reflexivity. }
  split; [| split].
  - intros Hex Hexts. apply resolveImportPath_of_body. rewrite Hbody.
    unfold Resolver.resolveRelative. fold resolved.
    rewrite Hex, bind_lift_normal. cbn [negb].
    destruct (existsSync_false_stat h resolved Hex) as (e & Hstat & _).
    rewrite Hstat. unfold lift at 1. rewrite bind_throw. cbn [tryCatch ret].
    rewrite bind_normal_nil.
    pose proof (firstExisting_none h variant Resolver.extensions Hexts) as Hnone.
    unfold variant in Hnone. rewrite Hnone, bind_ret.
    destruct (negb (Resolver.hasExtension resolved)).
    + rewrite bind_lift_normal. reflexivity.
    + rewrite bind_ret. reflexivity.
  - intros e Hex. apply resolveImportPath_of_throw. rewrite Hbody.
    unfold Resolver.resolveRelative. fold resolved.
    rewrite Hex. unfold lift. rewrite bind_throw. reflexivity.
  - intros e before ext after Hex Hexts Hbefore Hthrow.
    apply resolveImportPath_of_throw. rewrite Hbody.
    unfold Resolver.resolveRelative. fold resolved.
    rewrite Hex, bind_lift_normal. cbn [negb].
    destruct (existsSync_false_stat h resolved Hex) as (e' & Hstat & _).
    rewrite Hstat. unfold lift at 1. rewrite bind_throw. cbn [tryCatch ret].
    rewrite bind_normal_nil.
    pose proof (firstExisting_throw h variant before after ext e Hbefore Hthrow)
      as Hprobe.
    unfold variant in Hprobe. rewrite Hexts, Hprobe, bind_throw. reflexivity.
Qed.

(** [./x] from [/r/a.ts], nothing there: the answer is [/r/x].
    [./button.tsx/x], below the file [button.tsx]: the existence check of
    [/r/button.tsx/x] throws, the answer is [null].  [./x] where
    [/r/x.tsx] may not be read: the check of [/r/x.ts] says no, the one
    of [/r/x.tsx] throws, the answer is [null]. *)
Lemma relative_fallback_best_effort_witness :
  Resolver.resolveImportPath Sample.fixtures "/r/a.ts" "./x" None None
  = (Normal (Some "/r/x"), [])
  /\ Resolver.resolveImportPath Scenario.belowFile "/r/a.ts" "./button.tsx/x" None None
     = (Normal None,
        [ConsoleError "Error resolving import path './button.tsx/x' in '/r/a.ts':"
           Scenario.notADirectory])
  /\ Resolver.resolveImportPath Scenario.lockedVariant "/r/a.ts" "./x" None None
     = (Normal None,
        [ConsoleError "Error resolving import path './x' in '/r/a.ts':"
           (mkError PermissionDenied "Requires read access")]).
Proof.
  split; [| split].
  - apply (relative_fallback_best_effort Sample.fixtures "/r/a.ts" "./x" None None);
      [reflexivity | reflexivity | reflexivity | reflexivity |].
    intros ext _. reflexivity.
  - apply (relative_fallback_best_effort Scenario.belowFile "/r/a.ts"
             "./button.tsx/x" None None);
      reflexivity.
  - apply (proj2 (proj2 (relative_fallback_best_effort Scenario.lockedVariant
                           "/r/a.ts" "./x" None None eq_refl eq_refl eq_refl))
             (mkError PermissionDenied "Requires read access")
             [".ts"] ".tsx" [".js"; ".jsx"; ".mjs"; ".cjs"]);
      [reflexivity | reflexivity | | reflexivity].
    intros x [<- | []]. reflexivity.
Defined.

(** ** The loop over the files *)

Section Matching.
Import Resolver Matcher Vocabulary.

Variable h : Host.

Lemma forEachFile_pushed {A} (step : string -> list A * list LogEntry)
    (files : list string) :
  fst (forEachFile step files) = flat_map (fun f => fst (step f)) files.
Proof.
  induction files as [| f more IH]; [reflexivity |].
  cbn [forEachFile flat_map]. destruct (step f) as [pushed log].
  destruct (forEachFile step more) as [pushed' log']. cbn [fst] in *.
  now rewrite IH.
Qed.

Lemma forEachFile_log {A} (step : string -> list A * list LogEntry)
    (files : list string) :
  snd (forEachFile step files) = flat_map (fun f => snd (step f)) files.
Proof.
  induction files as [| f more IH]; [reflexivity |].
  cbn [forEachFile flat_map]. destruct (step f) as [pushed log].
  destruct (forEachFile step more) as [pushed' log']. cbn [snd] in *.
  now rewrite IH.
Qed.

(** Nothing throws in the loop over the imports of a file. *)
Lemma matchImports_completes {A} importMap tsConfig (filePath : string)
    (select : ImportStatement.t -> string -> option A)
    (imports : list ImportStatement.t) :
  exists pushed log,
    matchImports h importMap tsConfig filePath select imports
    = (pushed, Normal tt, log).
Proof.
  induction imports as [| imp more IH]; [now exists [], [] |].
  cbn [matchImports]. destruct (ImportStatement.isDynamic imp); [exact IH |].
  destruct (resolveImportPath_completes h filePath
              (ImportStatement.module imp) importMap tsConfig)
    as (r & log & Hr).
  rewrite Hr. destruct IH as (pushed & log' & ->). eexists _, _. reflexivity.
Qed.

(** What a file pushes comes out of [select]. *)
Lemma matchImports_selected {A} importMap tsConfig (filePath : string)
    (select : ImportStatement.t -> string -> option A)
    (imports : list ImportStatement.t) (x : A) :
  In x (fst (fst (matchImports h importMap tsConfig filePath select imports))) ->
  exists imp p, select imp p = Some x.
Proof.
  induction imports as [| imp more IH]; [intros [] |].
  cbn [matchImports]. destruct (ImportStatement.isDynamic imp); [exact IH |].
  destruct (resolveImportPath h filePath (ImportStatement.module imp)
              importMap tsConfig) as [[r | e] log]; [| intros []].
  destruct (matchImports h importMap tsConfig filePath select more)
    as [[pushed c] log'].
  cbn [fst] in *.
  destruct r as [p |]; [destruct (JsString.truthy p) |]; try exact IH.
  destruct (select imp p) as [y |] eqn:Hsel; [| exact IH].
  intros [<- | Hin]; [now exists imp, p | now apply IH].
Qed.

(** The per-file block throws only before its first push. *)
Lemma scanFile_throws_early {A} importMap tsConfig (skip : string -> bool)
    (select : ImportStatement.t -> string -> option A) (filePath : string)
    (pushed : list A) (e : JsError) (log : list LogEntry) :
  scanFile h importMap tsConfig skip select filePath = (pushed, Throw e, log) ->
  pushed = [].
Proof.
  unfold scanFile. destruct (skip _); [congruence |].
  destruct (existsSync h filePath) as [[|] | e']; try congruence.
  destruct (Extractor.parseImports h filePath) as [[imports | e'] log0];
    [| congruence].
  destruct (matchImports_completes importMap tsConfig filePath select imports)
    as (pushed' & log' & ->).
  congruence.
Qed.

Lemma scanFile_pushed {A} importMap tsConfig (skip : string -> bool)
    (select : ImportStatement.t -> string -> option A) (filePath : string) (x : A) :
  In x (fst (guarded filePath
               (scanFile h importMap tsConfig skip select filePath))) ->
  skip (Path.resolve h [filePath]) = false /\
  existsSync h filePath = Normal true /\
  exists imp p, select imp p = Some x.
Proof.
  unfold scanFile. destruct (skip _); [intros [] |].
  destruct (existsSync h filePath) as [[|] | e']; try (intros []).
  destruct (Extractor.parseImports h filePath) as [[imports | e'] log0];
    [| intros []].
  pose proof (matchImports_selected importMap tsConfig filePath select imports x)
    as Hsel.
  destruct (matchImports h importMap tsConfig filePath select imports)
    as [[pushed c] log']. cbn [fst] in Hsel.
  intros Hin. repeat split; try reflexivity. apply Hsel.
  destruct c; exact Hin.
Qed.

Lemma append_assoc (a b c : string) : (a +++ b) +++ c = a +++ b +++ c.
Proof. induction a as [| x a IH]; cbn; [reflexivity | now rewrite IH]. Qed.

Lemma append_empty_r (a : string) : a +++ "" = a.
Proof. induction a as [| x a IH]; cbn; [reflexivity | now rewrite IH]. Qed.

(** The [catch] of the per-file [try] writes one line, and the line
    names the file: a warning for a [NotFound] error, an error line for
    any other error. *)
Lemma reportSkipped_mentions (filePath : string) (e : JsError) :
  exists entry,
    reportSkipped filePath e = [entry] /\ mentions entry filePath /\
    isWarning entry = isNotFound e.
Proof.
  unfold reportSkipped. destruct (isNotFound e); eexists; (split; [reflexivity |]).
  - split; [| reflexivity].
    exists "Warning: Skipping file ", (" - " +++ message e).
    cbn [entryText String.concat]. reflexivity.
  - split; [| reflexivity]. exists "Error processing ", ":". reflexivity.
Qed.

(** A file whose block throws pushes nothing, and is reported. *)
Lemma faulty_file_skipped {A} importMap tsConfig (skip : string -> bool)
    (select : ImportStatement.t -> string -> option A) (filePath : string)
    (pushed : list A) (e : JsError) (log : list LogEntry) :
  scanFile h importMap tsConfig skip select filePath = (pushed, Throw e, log) ->
  exists entry,
    guarded filePath (scanFile h importMap tsConfig skip select filePath)
    = ([], log ++ [entry]) /\ mentions entry filePath /\
    isWarning entry = isNotFound e.
Proof.
  intros Hscan. pose proof (scanFile_throws_early _ _ _ _ _ _ _ _ Hscan) as ->.
  rewrite Hscan. cbn [guarded].
  destruct (reportSkipped_mentions filePath e) as (entry & -> & Hm & Hw).
  now exists entry.
Qed.

(** A file that is not there is skipped with a warning. *)
Lemma missing_file_skipped {A} importMap tsConfig (skip : string -> bool)
    (select : ImportStatement.t -> string -> option A) (filePath : string) :
  skip (Path.resolve h [filePath]) = false ->
  existsSync h filePath = Normal false ->
  guarded filePath (scanFile h importMap tsConfig skip select filePath)
  = ([], [ConsoleWarn ["Warning: Skipping non-existent file " +++ filePath]])
  /\ mentions (ConsoleWarn ["Warning: Skipping non-existent file " +++ filePath])
       filePath.
Proof.
  intros Hskip Hex. unfold scanFile. rewrite Hskip, Hex. split; [reflexivity |].
  exists "Warning: Skipping non-existent file ", "".
  cbn [entryText String.concat]. now rewrite append_empty_r.
Qed.

(** [findImporters] is its target check followed by the loop. *)
Lemma findImporters_unfold (targetFilePath : string) (files : list string)
    (rootPath : string) :
  exists configLog,
    findImporters h targetFilePath files rootPath =
    match normalizeTarget h targetFilePath with
    | (Normal target, log) =>
        let step := processFile h (snd target) (fst target)
                      (loadedImportMap h rootPath) (loadedTsConfig h rootPath) in
        (Normal (flat_map (fun f => fst (step f)) files),
         configLog ++ log ++ flat_map (fun f => snd (step f)) files)
    | (Throw e, log) => (Throw e, configLog ++ log)
    end.
Proof.
  unfold findImporters, loadedImportMap, loadedTsConfig.
  destruct (loadOrWarn (loadImportMap h rootPath) _) as [importMap log1].
  destruct (loadOrWarn (loadTsConfig h rootPath) _) as [tsConfig log2].
  exists (log1 ++ log2). cbn [fst snd bind].
  destruct (normalizeTarget h targetFilePath) as [[target | e] log];
    cbn [bind]; [| reflexivity].
  pose proof (forEachFile_pushed
                (processFile h (snd target) (fst target) importMap tsConfig) files)
    as Hp.
  pose proof (forEachFile_log
                (processFile h (snd target) (fst target) importMap tsConfig) files)
    as Hl.
  destruct (forEachFile _ files) as [pushed log']. cbn [fst snd] in Hp, Hl.
  now rewrite Hp, Hl.
Qed.

(** [findDirectoryImporters] is its target check followed by the loop
    and the grouping. *)
Lemma findDirectoryImporters_unfold (targetDirectoryPath : string)
    (files : list string) (rootPath : string) :
  exists configLog,
    findDirectoryImporters h targetDirectoryPath files rootPath =
    match checkTargetDirectory h targetDirectoryPath with
    | (Normal target, log) =>
        let step := processDirectoryFile h target
                      (loadedImportMap h rootPath) (loadedTsConfig h rootPath) in
        let groups :=
          sortedGroups h (collectGroups (flat_map (fun f => fst (step f)) files)) in
        (Normal (DirectoryImporterResult.mk targetDirectoryPath rootPath
                   (countImporters groups) groups),
         configLog ++ log ++ flat_map (fun f => snd (step f)) files)
    | (Throw e, log) => (Throw e, configLog ++ log)
    end.
Proof.
  unfold findDirectoryImporters, loadedImportMap, loadedTsConfig.
  destruct (loadOrWarn (loadImportMap h rootPath) _) as [importMap log1].
  destruct (loadOrWarn (loadTsConfig h rootPath) _) as [tsConfig log2].
  exists (log1 ++ log2). cbn [fst snd bind].
  destruct (checkTargetDirectory h targetDirectoryPath) as [[target | e] log];
    cbn [bind]; [| reflexivity].
  pose proof (forEachFile_pushed
                (processDirectoryFile h target importMap tsConfig) files) as Hp.
  pose proof (forEachFile_log
                (processDirectoryFile h target importMap tsConfig) files) as Hl.
  destruct (forEachFile _ files) as [pushed log']. cbn [fst snd] in Hp, Hl.
  now rewrite Hp, Hl.
Qed.

(** How the target of [findImporters] comes out of its check. *)
Lemma normalizeTarget_cases (targetFilePath normalized : string) (isDir : bool)
    (log : list LogEntry) :
  normalizeTarget h targetFilePath = (Normal (normalized, isDir), log) ->
  normalized = Path.resolve h [targetFilePath] \/
  (isDir = false /\
   existsSync h (Path.resolve h [targetFilePath]) = Normal false).
Proof.
  unfold normalizeTarget.
  destruct (negb _).
  - destruct (existsSync h (Path.resolve h [targetFilePath])) as [[|] | e] eqn:Hex;
      unfold lift.
    + rewrite bind_normal_nil. cbn. intros [= <- <-]. now left.
    + rewrite bind_normal_nil. cbn [negb].
      destruct (firstExisting h _ extensions) as [[[p |] | e] l]; cbn.
      * intros [= <- <- <-]. now right.
      * discriminate.
      * discriminate.
    + rewrite bind_throw. discriminate.
  - cbn. intros [= <- <-]. now left.
Qed.

End Matching.

(** ** [findImporters]: the target *)

(** C6, amended.  When the existence check says no for the resolved
    target path and for its extension-stripped base under each of the
    six extensions, [findImporters] throws [NotFound], whatever the list
    of files: there is no result.  When the existence check of the
    resolved target path throws, or the first check of a variant that
    does not say no throws, [findImporters] throws that error, which is
    not [NotFound]: there is no result either. *)
Theorem findImporters_target_not_found (h : Host) (targetFilePath : string)
    (files : list string) (rootPath : string) :
  let normalized := Path.resolve h [targetFilePath] in
  let variant := fun ext => Resolver.extensionBase normalized +++ ext in
  (existsSync h normalized = Normal false ->
   (forall ext, In ext Resolver.extensions ->
      existsSync h (variant ext) = Normal false) ->
   fst (Matcher.findImporters h targetFilePath files rootPath)
   = Throw (mkError NotFound ("Target file not found: " +++ targetFilePath)))
  /\ (forall e, existsSync h normalized = Throw e ->
      fst (Matcher.findImporters h targetFilePath files rootPath) = Throw e
      /\ isNotFound e = false)
  /\ (forall e before ext after,
      existsSync h normalized = Normal false ->
      Resolver.extensions = before ++ ext :: after ->
      (forall x, In x before -> existsSync h (variant x) = Normal false) ->
      existsSync h (variant ext) = Throw e ->
      fst (Matcher.findImporters h targetFilePath files rootPath) = Throw e
      /\ isNotFound e = false).
Proof.
  intros normalized variant.
  destruct (findImporters_unfold h targetFilePath files rootPath) as [configLog ->].
  split; [| split].
  - intros Hex Hexts.
    assert (Hn : Matcher.normalizeTarget h targetFilePath
                 = (Throw (mkError NotFound
                             ("Target file not found: " +++ targetFilePath)), [])).
    { unfold Matcher.normalizeTarget. fold normalized.
      destruct (existsSync_false_stat h normalized Hex) as (e & -> & _).
      cbn [negb]. rewrite Hex, bind_lift_normal. cbn [negb].
      pose proof (firstExisting_none h variant Resolver.extensions Hexts) as Hnone.
      unfold variant in Hnone. rewrite Hnone, bind_ret. reflexivity. }
    rewrite Hn. reflexivity.
  - intros e Hex.
    destruct (existsSync_throw_stat h normalized e Hex) as [Hstat Hnf].
    split; [| exact Hnf].
    assert (Hn : Matcher.normalizeTarget h targetFilePath = (Throw e, [])).
    { unfold Matcher.normalizeTarget. fold normalized. rewrite Hstat.
      cbn [negb]. rewrite Hex. unfold lift. rewrite bind_throw. reflexivity. }
    rewrite Hn. reflexivity.
  - intros e before ext after Hex Hexts Hbefore Hthrow.
    destruct (existsSync_throw_stat h (variant ext) e Hthrow) as [_ Hnf].
    split; [| exact Hnf].
    assert (Hn : Matcher.normalizeTarget h targetFilePath = (Throw e, [])).
    { unfold Matcher.normalizeTarget. fold normalized.
      destruct (existsSync_false_stat h normalized Hex) as (e' & -> & _).
      cbn [negb]. rewrite Hex, bind_lift_normal. cbn [negb].
      pose proof (firstExisting_throw h variant before after ext e Hbefore Hthrow)
        as Hprobe.
      unfold variant in Hprobe. rewrite Hexts, Hprobe, bind_throw. reflexivity. }
    rewrite Hn. reflexivity.
Qed.

(** [/r/missing.ts] in the fixture tree: [NotFound].  [/r/button.tsx/x],
    below the file [button.tsx]: the error of the existence check.
    [/r/x] where [/r/x.tsx] may not be read: the error of the check of
    the second variant. *)
Lemma findImporters_target_not_found_witness :
  fst (Matcher.findImporters Sample.fixtures "/r/missing.ts"
         ["/r/component1.tsx"; "/r/button.tsx"] "/r")
  = Throw (mkError NotFound "Target file not found: /r/missing.ts")
  /\ fst (Matcher.findImporters Scenario.belowFile "/r/button.tsx/x"
            ["/r/component1.tsx"; "/r/button.tsx"] "/r")
     = Throw Scenario.notADirectory
  /\ fst (Matcher.findImporters Scenario.lockedVariant "/r/x" ["/r/a.ts"] "/r")
     = Throw (mkError PermissionDenied "Requires read access").
Proof.
  split; [| split].
  - apply (proj1 (findImporters_target_not_found Sample.fixtures "/r/missing.ts"
                    ["/r/component1.tsx"; "/r/button.tsx"] "/r")).
    + reflexivity.
    + intros ext _. reflexivity.
  - apply (proj1 (proj2 (findImporters_target_not_found Scenario.belowFile
                           "/r/button.tsx/x"
                           ["/r/component1.tsx"; "/r/button.tsx"] "/r"))).
    reflexivity.
  - apply (proj2 (proj2 (findImporters_target_not_found Scenario.lockedVariant
                           "/r/x" ["/r/a.ts"] "/r"))
             (mkError PermissionDenied "Requires read access")
             [".ts"] ".tsx" [".js"; ".jsx"; ".mjs"; ".cjs"]);
      [reflexivity | reflexivity | | reflexivity].
    intros x [<- | []]. reflexivity.
Defined.

(** C6, as stated, fails below a regular file: no file is at
    [/r/button.tsx/x], nor at that path under any of the six extensions,
    and the error [findImporters] throws is the one of the existence
    check, not [NotFound]. *)
Lemma target_below_a_file_counterexample :
  (forall info, statSync Scenario.belowFile "/r/button.tsx/x" <> Normal info)
  /\ (forall ext info, In ext Resolver.extensions ->
       statSync Scenario.belowFile
         (Resolver.extensionBase "/r/button.tsx/x" +++ ext) <> Normal info)
  /\ fst (Matcher.findImporters Scenario.belowFile "/r/button.tsx/x"
            ["/r/component1.tsx"; "/r/button.tsx"] "/r")
     = Throw Scenario.notADirectory
  /\ errClass Scenario.notADirectory <> NotFound.
Proof.
  split; [| split; [| split]].
  - intros info. discriminate.
  - intros ext info Hin.
    repeat (destruct Hin as [<- | Hin]; [discriminate |]). destruct Hin.
  - reflexivity.
  - discriminate.
Qed.



(** ** Errors of one file *)

(** C7, as stated, fails: the file that cannot be read is skipped and
    named on the console, but the line is written with [console.error],
    not as a warning; so it is in directory mode. *)
Lemma unreadable_file_reported_as_error :
  exists entry,
    Matcher.processFile Sample.faulty false "/r/button.tsx" None None
      "/r/unreadable.ts" = ([], [entry]) /\
    Matcher.processDirectoryFile Sample.faulty "/r/lib" None None
      "/r/unreadable.ts" = ([], [entry]) /\
    entry = ConsoleError "Error processing /r/unreadable.ts:"
              (mkError GenericError
                 "Error parsing imports in /r/unreadable.ts: Permission denied (os error 13)") /\
    Vocabulary.isWarning entry = false.
Proof. eexists. repeat split; vm_compute; reflexivity. Qed.

(** C7, amended.  Once the target has passed its check, both entry
    points complete normally, and what they return is made of what each
    file of the list pushes, file by file; a file whose block throws
    pushes nothing and leaves one console line that names it, a warning
    when the error is [NotFound] and an error line otherwise; a file that
    is not there is skipped the same way, with a warning. *)
Theorem per_file_errors_do_not_abort (h : Host) (files : list string)
    (rootPath : string) :
  let importMap := Vocabulary.loadedImportMap h rootPath in
  let tsConfig := Vocabulary.loadedTsConfig h rootPath in
  (forall targetFilePath normalized isDir,
     fst (Matcher.normalizeTarget h targetFilePath) = Normal (normalized, isDir) ->
     let scan filePath :=
       Matcher.scanFile h importMap tsConfig (Matcher.hitsTarget isDir normalized)
         (Matcher.selectImporter h isDir normalized filePath) filePath in
     let step := Matcher.processFile h isDir normalized importMap tsConfig in
     fst (Matcher.findImporters h targetFilePath files rootPath)
       = Normal (flat_map (fun f => fst (step f)) files) /\
     (forall f entry, In f files -> In entry (snd (step f)) ->
        In entry (snd (Matcher.findImporters h targetFilePath files rootPath))) /\
     (forall f pushed e log, scan f = (pushed, Throw e, log) ->
        exists entry,
          step f = ([], log ++ [entry]) /\ Vocabulary.mentions entry f /\
          Vocabulary.isWarning entry = isNotFound e) /\
     (forall f,
        Matcher.hitsTarget isDir normalized (Path.resolve h [f]) = false ->
        existsSync h f = Normal false ->
        step f = ([], [ConsoleWarn ["Warning: Skipping non-existent file " +++ f]])))
  /\
  (forall targetDirectoryPath normalized,
     fst (Matcher.checkTargetDirectory h targetDirectoryPath) = Normal normalized ->
     let scan filePath :=
       Matcher.scanFile h importMap tsConfig
         (fun path => JsString.startsWith path normalized)
         (Matcher.selectGrouped h normalized filePath) filePath in
     let step := Matcher.processDirectoryFile h normalized importMap tsConfig in
     (exists result,
        fst (Matcher.findDirectoryImporters h targetDirectoryPath files rootPath)
          = Normal result /\
        DirectoryImporterResult.groups result
          = Matcher.sortedGroups h
              (Matcher.collectGroups (flat_map (fun f => fst (step f)) files))) /\
     (forall f entry, In f files -> In entry (snd (step f)) ->
        In entry
          (snd (Matcher.findDirectoryImporters h targetDirectoryPath files rootPath))) /\
     (forall f pushed e log, scan f = (pushed, Throw e, log) ->
        exists entry,
          step f = ([], log ++ [entry]) /\ Vocabulary.mentions entry f /\
          Vocabulary.isWarning entry = isNotFound e) /\
     (forall f,
        JsString.startsWith (Path.resolve h [f]) normalized = false ->
        existsSync h f = Normal false ->
        step f = ([], [ConsoleWarn ["Warning: Skipping non-existent file " +++ f]]))).
Proof.
  intros importMap tsConfig. split.
  - intros targetFilePath normalized isDir Hnorm scan step.
    destruct (findImporters_unfold h targetFilePath files rootPath) as [configLog ->].
    destruct (Matcher.normalizeTarget h targetFilePath) as [[target | e] l];
      cbn [fst] in Hnorm; [| discriminate].
    injection Hnorm as ->. cbn [fst snd]. repeat split.
    + intros f entry Hf Hentry. apply in_or_app. right. apply in_or_app. right.
      apply in_flat_map. now exists f.
    + intros f pushed e log Hscan. apply (faulty_file_skipped h _ _ _ _ _ _ _ _ Hscan).
    + intros f Hskip Hex.
      apply (missing_file_skipped h importMap tsConfig _ _ f Hskip Hex).
  - intros targetDirectoryPath normalized Hnorm scan step.
    destruct (findDirectoryImporters_unfold h targetDirectoryPath files rootPath)
      as [configLog ->].
    destruct (Matcher.checkTargetDirectory h targetDirectoryPath) as [[target | e] l];
      cbn [fst] in Hnorm; [| discriminate].
    injection Hnorm as ->. cbn [fst snd]. repeat split.
    + eexists. split; reflexivity.
    + intros f entry Hf Hentry. apply in_or_app. right. apply in_or_app. right.
      apply in_flat_map. now exists f.
    + intros f pushed e log Hscan. apply (faulty_file_skipped h _ _ _ _ _ _ _ _ Hscan).
    + intros f Hskip Hex.
      apply (missing_file_skipped h importMap tsConfig _ _ f Hskip Hex).
Qed.

(** Four files of the list fail, each in its own way; the importer that
    comes after them is still found, and the file that vanished is
    reported with a warning. *)
Lemma per_file_errors_do_not_abort_witness :
  fst (Matcher.findImporters Sample.faulty "/r/button.tsx"
         ["/r/locked.ts"; "/r/unreadable.ts"; "/r/vanishing.ts"; "/r/gone.ts";
          "/r/component1.tsx"] "/r")
  = Normal [ResolvedImport.mk "/r/component1.tsx" "./button.tsx" "/r/button.tsx" 1]
  /\
  exists entry,
    Matcher.processFile Sample.faulty false "/r/button.tsx" None None "/r/vanishing.ts"
      = ([], [entry]) /\ Vocabulary.mentions entry "/r/vanishing.ts" /\
    Vocabulary.isWarning entry = true.
Proof.
  destruct (per_file_errors_do_not_abort Sample.faulty
              ["/r/locked.ts"; "/r/unreadable.ts"; "/r/vanishing.ts"; "/r/gone.ts";
               "/r/component1.tsx"] "/r") as [Hfile _].
  destruct (Hfile "/r/button.tsx" "/r/button.tsx" false eq_refl)
    as (Hresult & _ & Hthrow & _).
  split.
  - rewrite Hresult. vm_compute. reflexivity.
  - destruct (Hthrow "/r/vanishing.ts" [] Sample.noSuchFile [] eq_refl)
      as (entry & Hstep & Hm & Hw).
    exists entry. repeat split; [exact Hstep | exact Hm | exact Hw].
Defined.

(** ** Directory targets: containment is a prefix test *)

(** C10.  With the directory [/r/foo] as target, the import of the
    sibling file [/r/foo-bar.ts] counts as a match, grouped under
    [../foo-bar.ts], and the candidate [/r/foo-bar.ts], which does import
    a file of the directory, is left out as if it were inside; the same
    two things happen when [findImporters] is given the directory. *)
Theorem sibling_prefix_counts_as_inside :
  Path.resolve Sample.siblings ["/r/foo"] = "/r/foo" /\
  JsString.startsWith "/r/foo-bar.ts" "/r/foo" = true /\
  Matcher.findDirectoryImporters Sample.siblings "/r/foo"
    ["/r/a.ts"; "/r/foo-bar.ts"] "/r"
  = (Normal (DirectoryImporterResult.mk "/r/foo" "/r" 1
               [ImportGroup.mk "../foo-bar.ts"
                  [Importer.mk "/r/a.ts" "./foo-bar.ts" 1]]), []) /\
  Resolver.resolveImportPath Sample.siblings "/r/foo-bar.ts" "./foo/x.ts" None None
  = (Normal (Some "/r/foo/x.ts"), []) /\
  Matcher.processDirectoryFile Sample.siblings "/r/foo" None None "/r/foo-bar.ts"
  = ([], []) /\
  Matcher.findImporters Sample.siblings "/r/foo" ["/r/a.ts"; "/r/foo-bar.ts"] "/r"
  = (Normal [ResolvedImport.mk "/r/a.ts" "./foo-bar.ts" "/r/foo-bar.ts" 1], []).
Proof. repeat split; vm_compute; reflexivity. Qed.

(** ** The stable sort *)

Section StableSort.
Import JsArray Vocabulary.

Context {A : Type} (key : A -> string) (cmp : string -> string -> comparison).
Hypothesis cmp_collation : Collation cmp.

Lemma cmp_refl (a : string) : cmp a a = Eq.
Proof.
  destruct cmp_collation as (Hanti & _).
  pose proof (Hanti a a) as H. destruct (cmp a a); [reflexivity | |]; discriminate.
Qed.

Lemma cmp_total (a b : string) : cmp a b = Gt -> cmp b a <> Gt.
Proof.
  destruct cmp_collation as (Hanti & _).
  intros H. rewrite (Hanti a b), H. discriminate.
Qed.

(** Among strings without ties, two that are at most each other are
    the same. *)
Lemma cmp_both (keys : list string) (a b : string) :
  tieFree cmp keys -> In a keys -> In b keys ->
  cmp a b <> Gt -> cmp b a <> Gt -> a = b.
Proof.
  destruct cmp_collation as (Hanti & _).
  intros Htie Ha Hb Hab Hba. apply (Htie a b Ha Hb). rewrite (Hanti a b) in Hba.
  destruct (cmp a b); [reflexivity | elim Hba; reflexivity | elim Hab; reflexivity].
Qed.

Lemma insertSorted_In (x y : A) (l : list A) :
  In y (insertSorted (byKey key cmp) x l) <-> y = x \/ In y l.
Proof.
  induction l as [| z l IH]; cbn [insertSorted].
  - cbn. intuition congruence.
  - destruct ((byKey key cmp) x z); cbn [In]; try rewrite IH; intuition congruence.
Qed.

Lemma sort_In (y : A) (l : list A) : In y (sort (byKey key cmp) l) <-> In y l.
Proof.
  induction l as [| x l IH]; [reflexivity |].
  cbn [sort]. rewrite insertSorted_In, IH. cbn. intuition congruence.
Qed.

Lemma insertSorted_sorted (x : A) (l : list A) :
  sortedBy (byKey key cmp) l -> sortedBy (byKey key cmp) (insertSorted (byKey key cmp) x l).
Proof.
  destruct cmp_collation as (_ & Htrans).
  unfold sortedBy. induction l as [| y l IH]; intros Hs; cbn [insertSorted].
  - constructor; constructor.
  - apply StronglySorted_inv in Hs. destruct Hs as [Hl Hy].
    destruct ((byKey key cmp) x y) eqn:Hxy.
    + constructor; [now constructor |].
      constructor; [unfold byKey in *; congruence |].
      eapply Forall_impl; [| exact Hy]. intros z Hz. cbn beta in *.
      apply (Htrans _ (key y)); [unfold byKey in Hxy; congruence | exact Hz].
    + constructor; [now constructor |].
      constructor; [unfold byKey in *; congruence |].
      eapply Forall_impl; [| exact Hy]. intros z Hz. cbn beta in *.
      apply (Htrans _ (key y)); [unfold byKey in Hxy; congruence | exact Hz].
    + constructor; [now apply IH |].
      apply Forall_forall. intros z Hz. apply insertSorted_In in Hz.
      destruct Hz as [-> | Hz].
      * apply cmp_total. exact Hxy.
      * rewrite Forall_forall in Hy. now apply Hy.
Qed.

Lemma sort_sorted (l : list A) : sortedBy (byKey key cmp) (sort (byKey key cmp) l).
Proof.
  induction l as [| x l IH]; [constructor |].
  cbn [sort]. now apply insertSorted_sorted.
Qed.

(** Stability: the elements of one key keep their order. *)
Lemma insertSorted_stable (k : string) (x : A) (l : list A) :
  filter ((hasKey key) k) (insertSorted (byKey key cmp) x l) = filter ((hasKey key) k) (x :: l).
Proof.
  induction l as [| y l IH]; [reflexivity |].
  cbn [insertSorted]. destruct ((byKey key cmp) x y) eqn:Hxy; try reflexivity.
  cbn [filter] in *. rewrite IH.
  destruct ((hasKey key) k x) eqn:Hx, ((hasKey key) k y) eqn:Hy; try reflexivity.
  unfold hasKey in Hx, Hy. apply String.eqb_eq in Hx, Hy.
  unfold byKey in Hxy. rewrite Hx, Hy, cmp_refl in Hxy. discriminate.
Qed.

Lemma sort_stable (k : string) (l : list A) :
  filter ((hasKey key) k) (sort (byKey key cmp) l) = filter ((hasKey key) k) l.
Proof.
  induction l as [| x l IH]; [reflexivity |].
  cbn [sort]. rewrite insertSorted_stable. cbn [filter]. now rewrite IH.
Qed.

Lemma filter_head_in (k : string) (x : A) (l : list A) :
  (hasKey key) k x = true -> In x (filter ((hasKey key) k) (x :: l)).
Proof. intros H. cbn [filter]. rewrite H. now left. Qed.

(** Two sorted lists with the same elements of each key, in the same
    order, are the same list, when no two different keys compare
    equal. *)
Lemma sorted_by_key_unique (l1 l2 : list A) :
  tieFree cmp (map key l1) ->
  sortedBy (byKey key cmp) l1 -> sortedBy (byKey key cmp) l2 ->
  (forall k, filter ((hasKey key) k) l1 = filter ((hasKey key) k) l2) ->
  l1 = l2.
Proof.
  unfold sortedBy. revert l2.
  induction l1 as [| x l1 IH]; intros l2 Htie Hs1 Hs2 Hsame.
  - destruct l2 as [| y l2]; [reflexivity |].
    specialize (Hsame (key y)). cbn [filter] in Hsame.
    assert (Hy : (hasKey key) (key y) y = true) by apply String.eqb_refl.
    rewrite Hy in Hsame. discriminate.
  - destruct l2 as [| y l2].
    + specialize (Hsame (key x)). cbn [filter] in Hsame.
      assert (Hx : (hasKey key) (key x) x = true) by apply String.eqb_refl.
      rewrite Hx in Hsame. discriminate.
    + apply StronglySorted_inv in Hs1, Hs2.
      destruct Hs1 as [Hs1 Hx], Hs2 as [Hs2 Hy].
      rewrite Forall_forall in Hx, Hy.
      assert (Hkey : key x = key y).
      { destruct (String.eqb_spec (key x) (key y)) as [| Hne]; [assumption |].
        assert (Hyin : In y (x :: l1)).
        { assert (Hin : In y (filter ((hasKey key) (key y)) (x :: l1))).
          { rewrite Hsame. apply filter_head_in. apply String.eqb_refl. }
          apply filter_In in Hin. apply Hin. }
        apply (cmp_both (map key (x :: l1))); [exact Htie | | |  |].
        - apply in_map. now left.
        - apply in_map. exact Hyin.
        - destruct Hyin as [-> | Hin]; [now elim Hne |].
          now apply Hx.
        - assert (Hin : In x (filter ((hasKey key) (key x)) (y :: l2))).
          { rewrite <- Hsame. apply filter_head_in. apply String.eqb_refl. }
          apply filter_In in Hin. destruct Hin as [[-> | Hin] _]; [now elim Hne |].
          now apply Hy. }
      assert (Hxy : forall k, (hasKey key) k y = (hasKey key) k x)
        by (intros k; unfold hasKey; now rewrite Hkey).
      assert (Hhead : x = y /\ forall k, filter ((hasKey key) k) l1 = filter ((hasKey key) k) l2).
      { split.
        - specialize (Hsame (key x)). cbn [filter] in Hsame. rewrite Hxy in Hsame.
          assert (Hx' : (hasKey key) (key x) x = true) by apply String.eqb_refl.
          rewrite Hx' in Hsame. congruence.
        - intros k. specialize (Hsame k). cbn [filter] in Hsame.
          rewrite Hxy in Hsame. destruct ((hasKey key) k x); congruence. }
      destruct Hhead as [-> Htail]. f_equal. apply IH; try assumption.
      intros a b Ha Hb. apply Htie; now right.
Qed.

(** The sort of a list depends only on the elements of each key and
    their order. *)
Lemma sort_determined (l1 l2 : list A) :
  tieFree cmp (map key l1) ->
  (forall k, filter ((hasKey key) k) l1 = filter ((hasKey key) k) l2) ->
  sort (byKey key cmp) l1 = sort (byKey key cmp) l2.
Proof.
  intros Htie Hsame. apply sorted_by_key_unique; try apply sort_sorted.
  - intros a b Ha Hb. apply in_map_iff in Ha, Hb.
    destruct Ha as (x & <- & Hx), Hb as (y & <- & Hy).
    apply (proj1 (sort_In _ _)) in Hx. apply (proj1 (sort_In _ _)) in Hy.
    apply Htie; now apply in_map.
  - intros k. now rewrite !sort_stable.
Qed.

End StableSort.

(** ** Grouping *)

Section Grouping.
Import Matcher Vocabulary JsArray.

Lemma addImporter_filter (m : list (string * list Importer.t)) (k : string)
    (v : Importer.t) (K : string) :
  filter (keyIs K) (addImporter m k v) =
  if (k =? K)%string then
    match filter (keyIs K) m with
    | [] => [(k, [v])]
    | (k', importers) :: rest => (k', importers ++ [v]) :: rest
    end
  else filter (keyIs K) m.
Proof.
  unfold keyIs.
  induction m as [| [k0 is0] m IH]; cbn [addImporter filter fst].
  - destruct (k =? K)%string; reflexivity.
  - destruct (k0 =? k)%string eqn:H0; cbn [filter fst].
    + apply String.eqb_eq in H0. subst k0.
      destruct (k =? K)%string; reflexivity.
    + rewrite IH. destruct (k =? K)%string eqn:HK.
      * apply String.eqb_eq in HK. subst K. rewrite H0. reflexivity.
      * reflexivity.
Qed.

Lemma pushedUnder_app (K : string) (a b : list (string * Importer.t)) :
  pushedUnder K (a ++ b) = pushedUnder K a ++ pushedUnder K b.
Proof. unfold pushedUnder. now rewrite filter_app, map_app. Qed.

(** The map holds, under each key, what was pushed under it, in order. *)
Lemma collectGroups_filter (pushed : list (string * Importer.t)) (K : string) :
  filter (keyIs K) (collectGroups pushed) =
  match pushedUnder K pushed with
  | [] => []
  | importers => [(K, importers)]
  end.
Proof.
  unfold collectGroups.
  enough (Hgen : forall rest m done,
             (forall K, filter (keyIs K) m =
                        match pushedUnder K done with
                        | [] => []
                        | importers => [(K, importers)]
                        end) ->
             forall K,
               filter (keyIs K)
                 (fold_left (fun m e => addImporter m (fst e) (snd e)) rest m) =
               match pushedUnder K (done ++ rest) with
               | [] => []
               | importers => [(K, importers)]
               end).
  { apply (Hgen pushed [] []). reflexivity. }
  induction rest as [| e rest IH]; intros m done Hinv K'.
  - rewrite app_nil_r. apply Hinv.
  - cbn [fold_left].
    replace (done ++ e :: rest) with ((done ++ [e]) ++ rest)
      by (rewrite <- app_assoc; reflexivity).
    apply IH. clear K'. intros K'.
    rewrite addImporter_filter, Hinv, pushedUnder_app.
    unfold pushedUnder at 2 4. cbn [filter map].
    destruct (fst e =? K')%string eqn:HK.
    + apply String.eqb_eq in HK. subst K'.
      destruct (pushedUnder (fst e) done); reflexivity.
    + cbn [map]. rewrite app_nil_r. reflexivity.
Qed.

Variable h : Host.
Hypothesis ordering : Collation (localeCompare h).

Lemma sort_nil_inv {A} (cmp : A -> A -> comparison) (l : list A) :
  sort cmp l = [] -> l = [].
Proof.
  destruct l as [| x l]; [reflexivity |]. cbn [sort].
  destruct (sort cmp l) as [| y s]; cbn [insertSorted]; [discriminate |].
  destruct (cmp x y); discriminate.
Qed.

Lemma filter_map_swap {A B} (p : B -> bool) (f : A -> B) (l : list A) :
  filter p (map f l) = map f (filter (fun a => p (f a)) l).
Proof.
  induction l as [| a l IH]; [reflexivity |].
  cbn [map filter]. rewrite IH. destruct (p (f a)); reflexivity.
Qed.

Lemma filter_filter {A} (p q : A -> bool) (l : list A) :
  filter p (filter q l) = filter (fun a => q a && p a) l.
Proof.
  induction l as [| a l IH]; [reflexivity |].
  cbn [filter]. destruct (q a); cbn [filter andb]; rewrite IH; reflexivity.
Qed.

(** The groups of one referenced path in the result: at most one, holding
    the importers pushed under that path, sorted. *)
Lemma sortedGroups_filter (pushed : list (string * Importer.t)) (K : string) :
  filter (hasKey ImportGroup.importedFile K) (sortedGroups h (collectGroups pushed)) =
  match pushedUnder K pushed with
  | [] => []
  | importers => [ImportGroup.mk K (sort (bySourceFile h) importers)]
  end.
Proof.
  unfold sortedGroups. rewrite filter_map_swap.
  change (fun a : ImportGroup.t => hasKey ImportGroup.importedFile K _)
    with (hasKey ImportGroup.importedFile K).
  change (byImportedFile h)
    with (byKey ImportGroup.importedFile (localeCompare h)).
  rewrite (sort_stable ImportGroup.importedFile (localeCompare h) ordering).
  rewrite filter_map_swap.
  change (fun a : string * list Importer.t => hasKey ImportGroup.importedFile K _)
    with (keyIs K).
  rewrite collectGroups_filter.
  destruct (pushedUnder K pushed); reflexivity.
Qed.

Lemma StronglySorted_map {A B} (R : A -> A -> Prop) (R' : B -> B -> Prop)
    (f : A -> B) (l : list A) :
  (forall a b, R a b -> R' (f a) (f b)) ->
  StronglySorted R l -> StronglySorted R' (map f l).
Proof.
  intros Hf. induction 1 as [| a l Hs IH Hall]; cbn [map]; constructor.
  - exact IH.
  - apply Forall_map. eapply Forall_impl; [| exact Hall]. intros b. apply Hf.
Qed.

(** The result is sorted, groups and importers. *)
Lemma sortedGroups_sorted (m : list (string * list Importer.t)) :
  sortedBy (byImportedFile h) (sortedGroups h m) /\
  forall g, In g (sortedGroups h m) ->
    sortedBy (bySourceFile h) (ImportGroup.importers g).
Proof.
  unfold sortedGroups. split.
  - eapply StronglySorted_map;
      [| apply (sort_sorted ImportGroup.importedFile (localeCompare h) ordering)].
    intros a b Hab. exact Hab.
  - intros g Hin. apply in_map_iff in Hin. destruct Hin as (g0 & <- & _).
    cbn [ImportGroup.importers].
    apply (sort_sorted Importer.sourceFile (localeCompare h) ordering).
Qed.

Lemma filter_none {A} (p : A -> bool) (l : list A) :
  (forall x, In x l -> p x = false) -> filter p l = [].
Proof.
  induction l as [| a l IH]; intros Hall; [reflexivity |].
  cbn [filter]. rewrite (Hall a (or_introl eq_refl)). apply IH.
  intros x Hx. apply Hall. now right.
Qed.

(** When every file pushes entries that carry its own name, the entries
    of one name come out in the same order for every ordering of the
    files. *)
Lemma tagged_filter_permutation {X} (tag : X -> string) (q : X -> bool)
    (pushes : string -> list X) (files files' : list string) (F : string) :
  (forall f x, In x (pushes f) -> tag x = f) ->
  Permutation files files' ->
  filter (fun x => q x && (tag x =? F)%string) (flat_map pushes files) =
  filter (fun x => q x && (tag x =? F)%string) (flat_map pushes files').
Proof.
  intros Htag Hperm.
  assert (Hother : forall f, f <> F ->
            filter (fun x => q x && (tag x =? F)%string) (pushes f) = []).
  { intros f Hne. apply filter_none. intros x Hx.
    rewrite (Htag f x Hx). apply String.eqb_neq in Hne. rewrite Hne.
    apply andb_false_r. }
  induction Hperm as [| f l l' _ IH | f g l | l l' l'' _ IH1 _ IH2].
  - reflexivity.
  - cbn [flat_map]. now rewrite !filter_app, IH.
  - cbn [flat_map]. rewrite !filter_app.
    destruct (string_dec f F) as [-> | Hf].
    + destruct (string_dec g F) as [-> | Hg]; [reflexivity |].
      rewrite (Hother g Hg). reflexivity.
    + rewrite (Hother f Hf). reflexivity.
  - now rewrite IH1.
Qed.

Variables (normalized : string) (importMap : option ImportMap)
          (tsConfig : option TsConfig).

Lemma pushes_carry_source (f : string) (x : string * Importer.t) :
  In x (fst (processDirectoryFile h normalized importMap tsConfig f)) ->
  Importer.sourceFile (snd x) = f.
Proof.
  intros Hin. apply scanFile_pushed in Hin.
  destruct Hin as (_ & _ & imp & p & Hsel). unfold selectGrouped in Hsel.
  destruct (JsString.startsWith _ _); [| discriminate].
  injection Hsel as <-. reflexivity.
Qed.

(** The importers pushed under a key come from the files. *)
Lemma pushedUnder_source (K : string) (files : list string) (s : string) :
  In s (map Importer.sourceFile
          (pushedUnder K
             (flat_map
                (fun f => fst (processDirectoryFile h normalized importMap tsConfig f))
                files))) ->
  In s files.
Proof.
  intros Hin. apply in_map_iff in Hin. destruct Hin as (imp & <- & Hin).
  unfold pushedUnder in Hin. apply in_map_iff in Hin.
  destruct Hin as (x & <- & Hin). apply filter_In in Hin. destruct Hin as [Hin _].
  apply in_flat_map in Hin. destruct Hin as (f & Hf & Hx).
  rewrite (pushes_carry_source f x Hx). exact Hf.
Qed.

(** The groups do not depend on the order of the files, when no two
    different files, and no two different referenced paths, compare
    equal. *)
Lemma sortedGroups_permutation (files files' : list string) :
  Permutation files files' ->
  tieFree (localeCompare h) files ->
  tieFree (localeCompare h)
    (map ImportGroup.importedFile
       (sortedGroups h
          (collectGroups
             (flat_map
                (fun f => fst (processDirectoryFile h normalized importMap tsConfig f))
                files)))) ->
  sortedGroups h
    (collectGroups
       (flat_map (fun f => fst (processDirectoryFile h normalized importMap tsConfig f))
          files)) =
  sortedGroups h
    (collectGroups
       (flat_map (fun f => fst (processDirectoryFile h normalized importMap tsConfig f))
          files')).
Proof.
  intros Hperm Hfiles Hkeys.
  set (pushes := fun f => fst (processDirectoryFile h normalized importMap tsConfig f))
    in *.
  apply (sorted_by_key_unique ImportGroup.importedFile (localeCompare h) ordering);
    try apply sortedGroups_sorted; [exact Hkeys |].
  intros K. rewrite !sortedGroups_filter.
  assert (Hsort : sort (bySourceFile h) (pushedUnder K (flat_map pushes files)) =
                  sort (bySourceFile h) (pushedUnder K (flat_map pushes files'))).
  { apply (sort_determined Importer.sourceFile (localeCompare h) ordering).
    { intros a b Ha Hb. apply Hfiles.
      - apply (pushedUnder_source K files a Ha).
      - apply (pushedUnder_source K files b Hb). }
    intros F. unfold pushedUnder, hasKey. rewrite !filter_map_swap, !filter_filter.
    f_equal.
    apply (tagged_filter_permutation (fun x => Importer.sourceFile (snd x))
             (fun x => (fst x =? K)%string) pushes files files' F);
      [| exact Hperm].
    intros f x. apply pushes_carry_source. }
  destruct (pushedUnder K (flat_map pushes files)) as [| a l1] eqn:Ha,
           (pushedUnder K (flat_map pushes files')) as [| b l2] eqn:Hb.
  - reflexivity.
  - symmetry in Hsort. apply sort_nil_inv in Hsort. discriminate.
  - apply sort_nil_inv in Hsort. discriminate.
  - now rewrite Hsort.
Qed.

End Grouping.

(** Strings compared by code units: a comparison without ties. *)
Lemma string_compare_collation : Vocabulary.Collation String.compare.
Proof.
  split.
  - intros a b. apply String.compare_antisym.
  - intros a. induction a as [| x a IH]; intros [| y b] [| z c]; cbn;
      try congruence.
    unfold Ascii.compare.
    destruct (N.compare_spec (N_of_ascii x) (N_of_ascii y)) as [Hxy | Hxy | Hxy];
      destruct (N.compare_spec (N_of_ascii y) (N_of_ascii z)) as [Hyz | Hyz | Hyz];
      try congruence; intros Hab Hbc.
    + rewrite Hxy, <- Hyz, N.compare_refl. now apply (IH b c).
    + rewrite Hxy. apply N.compare_lt_iff in Hyz. rewrite Hyz. discriminate.
    + rewrite <- Hyz. apply N.compare_lt_iff in Hxy. rewrite Hxy. discriminate.
    + assert (H : (N_of_ascii x < N_of_ascii z)%N) by (eapply N.lt_trans; eassumption).
      apply N.compare_lt_iff in H. rewrite H. discriminate.
Qed.

Lemma string_compare_tieFree (keys : list string) :
  Vocabulary.tieFree String.compare keys.
Proof. intros a b _ _. apply String.compare_eq_iff. Qed.

(** ** The matcher on the patterns of the program *)

Section MatcherFacts.
Import RegExp Notions.

(** A star over a one-character atom, one character at a time. *)
Lemma run_star_chr_nil {A} (g : bool) (p : ascii -> bool) (cap : option string)
    (k : string -> option string -> option A) :
  run (Star g (Chr p)) EmptyString cap k = k EmptyString cap.
Proof. reflexivity. Qed.

Lemma run_star_chr_cons {A} (g : bool) (p : ascii -> bool) (c : ascii) (s : string)
    (cap : option string) (k : string -> option string -> option A) :
  run (Star g (Chr p)) (String c s) cap k =
  let again := if p c then run (Star g (Chr p)) s cap k else None in
  if g then match again with Some x => Some x | None => k (String c s) cap end
  else match k (String c s) cap with Some x => Some x | None => again end.
Proof.
  assert (Hlt : (String.length s <? S (String.length s))%nat = true)
    by (apply Nat.ltb_lt; lia).
  cbn [run String.length]. rewrite Hlt. destruct (p c), g; reflexivity.
Qed.

Lemma Suffix_refl (s : string) : Suffix s s.
Proof. exists EmptyString. reflexivity. Qed.

Lemma Suffix_trans (a b c : string) : Suffix a b -> Suffix b c -> Suffix a c.
Proof.
  intros [h1 ->] [h2 ->]. exists (h2 +++ h1). symmetry. apply append_assoc.
Qed.

Lemma Suffix_tail (c : ascii) (s : string) : Suffix s (String c s).
Proof. exists (String c EmptyString). reflexivity. Qed.

Lemma prefix_includes (w s : string) :
  String.prefix w s = true -> JsString.includes s w = true.
Proof. intros H. destruct s; cbn [JsString.includes]; rewrite H; reflexivity. Qed.

Lemma includes_append (head s w : string) :
  JsString.includes s w = true -> JsString.includes (head +++ s) w = true.
Proof.
  intros H. induction head as [| c head IH]; [exact H |].
  cbn [String.append JsString.includes]. rewrite IH. apply orb_true_r.
Qed.

Lemma includes_suffix (tail s w : string) :
  Suffix tail s -> JsString.includes tail w = true -> JsString.includes s w = true.
Proof. intros [head ->]. apply includes_append. Qed.

(** The continuation of a match is called on what is left of the input. *)
Lemma run_suffix {A} (r : regex) :
  forall (s : string) (cap : option string)
         (k : string -> option string -> option A) (x : A),
    run r s cap k = Some x ->
    exists s' cap', Suffix s' s /\ k s' cap' = Some x.
Proof.
  induction r as [| p | r1 IH1 r2 IH2 | r1 IH1 r2 IH2 | g r1 IH1 | r1 IH1 |];
    intros s cap k x H.
  - exists s, cap. split; [apply Suffix_refl | exact H].
  - destruct s as [| c s']; [discriminate |]. cbn [run] in H.
    destruct (p c); [| discriminate].
    exists s', cap. split; [apply Suffix_tail | exact H].
  - cbn [run] in H. apply IH1 in H as (s1 & c1 & Hs1 & H).
    apply IH2 in H as (s2 & c2 & Hs2 & H).
    exists s2, c2. split; [eapply Suffix_trans; eauto | exact H].
  - cbn [run] in H. destruct (run r1 s cap k) eqn:E.
    + injection H as ->. eapply IH1; eauto.
    + eapply IH2; eauto.
  - cbn [run] in H. revert H. generalize (String.length s) at 1.
    intros fuel. revert s cap x. induction fuel as [| fuel IHf]; intros s cap x H.
    + exists s, cap. split; [apply Suffix_refl | exact H].
    + lazy beta iota zeta fix in H.
      assert (Hagain : forall kk y,
        run r1 s cap kk = Some y ->
        (forall s' cap', kk s' cap' = Some y ->
           exists s2 cap2, Suffix s2 s' /\ k s2 cap2 = Some y) ->
        exists s' cap', Suffix s' s /\ k s' cap' = Some y).
      { intros kk y Hy Hkk. apply IH1 in Hy as (s1 & c1 & Hs1 & Hy).
        apply Hkk in Hy as (s2 & c2 & Hs2 & Hy).
        exists s2, c2. split; [eapply Suffix_trans; eauto | exact Hy]. }
      destruct g; lazy beta iota in H.
      * match type of H with
        | match ?a with _ => _ end = _ => destruct a as [y |] eqn:E
        end.
        -- injection H as ->. eapply Hagain; [exact E |].
           intros s' cap'. cbv beta.
           destruct (String.length s' <? String.length s)%nat; [| discriminate].
           intros Hy. apply IHf in Hy. exact Hy.
        -- exists s, cap. split; [apply Suffix_refl | exact H].
      * destruct (k s cap) as [y |] eqn:E.
        -- injection H as ->. exists s, cap. split; [apply Suffix_refl | exact E].
        -- eapply Hagain; [exact H |].
           intros s' cap'. cbv beta.
           destruct (String.length s' <? String.length s)%nat; [| discriminate].
           intros Hy. apply IHf in Hy. exact Hy.
  - cbn [run] in H. apply IH1 in H as (s1 & c1 & Hs1 & H).
    eexists s1, _. split; [exact Hs1 | exact H].
  - destruct s; [| discriminate]. exists EmptyString, cap.
    split; [apply Suffix_refl | exact H].
Qed.

Lemma prefix_nil (s : string) : String.prefix EmptyString s = true.
Proof. destruct s; reflexivity. Qed.

(** A literal matches only at a place where its text stands. *)
Lemma run_lit_prefix {A} (w' : string) :
  forall (w s : string) (cap : option string)
         (k : string -> option string -> option A) (x : A),
    String.prefix w w' = true ->
    run (lit w') s cap k = Some x -> String.prefix w s = true.
Proof.
  induction w' as [| c w' IH]; intros w s cap k x Hw H.
  - destruct w; [apply prefix_nil | discriminate].
  - cbn [lit run chr] in H. destruct s as [| d s]; [discriminate |].
    destruct (Ascii.eqb c d) eqn:Ecd; [| discriminate].
    apply Ascii.eqb_eq in Ecd. subst d.
    destruct w as [| a w]; [reflexivity |].
    cbn [String.prefix] in Hw |- *.
    destruct (ascii_dec a c); [| discriminate].
    eapply IH; eauto.
Qed.

Lemma requires_lit (w w' : string) :
  String.prefix w w' = true -> Requires w (lit w').
Proof.
  intros Hw A s cap k x H. apply prefix_includes.
  eapply run_lit_prefix; eauto.
Qed.

Lemma requires_seq_l (w : string) (r1 r2 : regex) :
  Requires w r1 -> Requires w (Seq r1 r2).
Proof. intros H A s cap k x Hrun. cbn [run] in Hrun. eapply H; eauto. Qed.

Lemma requires_seq_r (w : string) (r1 r2 : regex) :
  Requires w r2 -> Requires w (Seq r1 r2).
Proof.
  intros H A s cap k x Hrun. cbn [run] in Hrun.
  apply run_suffix in Hrun as (s1 & c1 & Hs1 & Hrun).
  eapply includes_suffix; [exact Hs1 |]. eapply H; eauto.
Qed.

Lemma requires_exec (w : string) (p : RegExp.t) (line : string) (m : MatchResult) :
  Requires w (body p) -> exec p line = Some m ->
  JsString.includes line w = true.
Proof.
  intros Hreq. unfold exec. destruct (anchored p).
  - unfold matchHere. intros H. eapply Hreq; eauto.
  - generalize 0. induction line as [| c line IH]; intros i H; cbn [search] in H.
    + destruct (matchHere (body p) i EmptyString) eqn:E; [| discriminate].
      unfold matchHere in E. eapply Hreq; eauto.
    + destruct (matchHere (body p) i (String c line)) eqn:E.
      * unfold matchHere in E. eapply Hreq; eauto.
      * apply IH in H. cbn [JsString.includes]. rewrite H. apply orb_true_r.
Qed.

Lemma requires_firstMatch (w : string) (patterns : list RegExp.t)
    (line : string) (m : string) :
  Forall (fun p => Requires w (body p)) patterns ->
  Extractor.firstMatch patterns line = Some m ->
  JsString.includes line w = true.
Proof.
  induction 1 as [| p patterns Hp _ IH]; cbn [Extractor.firstMatch]; [discriminate |].
  destruct (exec p line) as [r |] eqn:E.
  - intros _. eapply requires_exec; eauto.
  - exact IH.
Qed.

End MatcherFacts.

(** ** [parseImports] *)

Section ExtractorFacts.
Import RegExp Notions Extractor.

Ltac requires_step :=
  first [ solve [apply requires_lit; reflexivity]
        | solve [apply requires_seq_l; requires_step]
        | solve [apply requires_seq_r; requires_step] ].

Lemma es6_requires_import :
  Forall (fun p => Requires "import" (body p)) es6ImportPatterns.
Proof.
  unfold es6ImportPatterns, namedImportPattern.
  repeat constructor; cbn [body seqs]; requires_step.
Qed.

Lemma named_requires_import :
  Forall (fun p => Requires "import" (body p)) [namedImportPattern].
Proof.
  unfold namedImportPattern. repeat constructor; cbn [body seqs]; requires_step.
Qed.

Lemma cjs_requires_require :
  Forall (fun p => Requires "require(" (body p)) cjsRequirePatterns.
Proof.
  unfold cjsRequirePatterns, requireCall.
  repeat constructor; cbn [body seqs]; requires_step.
Qed.

Lemma dynamic_requires_import :
  Forall (fun p => Requires "import" (body p)) [dynamicImportPattern].
Proof.
  unfold dynamicImportPattern. repeat constructor; cbn [body seqs]; requires_step.
Qed.

Lemma firstMatch_none (w : string) (patterns : list RegExp.t) (line : string) :
  Forall (fun p => Requires w (body p)) patterns ->
  JsString.includes line w = false ->
  firstMatch patterns line = None.
Proof.
  intros Hreq Hline. destruct (firstMatch patterns line) as [m |] eqn:E; [| reflexivity].
  apply (requires_firstMatch w _ _ _ Hreq) in E. congruence.
Qed.

(** Lines that mention neither keyword give no statement. *)
Lemma scanLines_nothing (lines : list string) :
  Forall (fun line => JsString.includes line "import" = false /\
                      JsString.includes line "require(" = false) lines ->
  forall n start, scanLines lines n "" start = [].
Proof.
  induction 1 as [| line more [Himport Hrequire] _ IH]; intros n start; [reflexivity |].
  cbn [scanLines JsString.truthy andb]. rewrite Himport. cbn [andb].
  rewrite (firstMatch_none "import" _ _ es6_requires_import Himport).
  rewrite (firstMatch_none "require(" _ _ cjs_requires_require Hrequire).
  rewrite (firstMatch_none "import" _ _ dynamic_requires_import Himport).
  rewrite !IH. destruct (_ || _); reflexivity.
Qed.

(** *** The lines of a text are pieces of it *)

Lemma prefix_append (w s b : string) :
  String.prefix w s = true -> String.prefix w (s +++ b) = true.
Proof.
  revert s. induction w as [| a w IH]; intros s H; [apply prefix_nil |].
  destruct s as [| c s]; [discriminate |].
  cbn [String.prefix String.append] in H |- *.
  destruct (ascii_dec a c); [| discriminate]. apply IH. exact H.
Qed.

Lemma includes_append_r (s b w : string) :
  JsString.includes s w = true -> JsString.includes (s +++ b) w = true.
Proof.
  induction s as [| c s IH]; intros H.
  - cbn [JsString.includes] in H. rewrite orb_false_r in H.
    destruct w; [| discriminate]. apply prefix_includes, prefix_nil.
  - cbn [JsString.includes String.append] in H |- *.
    apply orb_true_iff in H as [H | H].
    + apply (prefix_append _ (String c s) b) in H. cbn [String.append] in H.
      rewrite H. reflexivity.
    + rewrite (IH H). apply orb_true_r.
Qed.

Lemma split_pieces (sep : ascii) (s : string) :
  exists x xs, JsString.split sep s = x :: xs /\
    (exists b, s = x +++ b) /\
    (forall l, In l xs -> exists a b, s = a +++ l +++ b).
Proof.
  induction s as [| c s (x & xs & Hsplit & [b Hx] & Hxs)].
  - exists EmptyString, []. split; [reflexivity |]. split; [exists EmptyString; reflexivity |].
    intros l [].
  - cbn [JsString.split]. destruct (Ascii.eqb c sep).
    + exists EmptyString, (JsString.split sep s). split; [reflexivity |].
      split; [exists (String c s); reflexivity |].
      intros l Hl. rewrite Hsplit in Hl. destruct Hl as [<- | Hl].
      * exists (String c EmptyString), b. cbn [String.append]. congruence.
      * destruct (Hxs l Hl) as (a & b' & ->). exists (String c a), b'. reflexivity.
    + rewrite Hsplit. exists (String c x), xs. split; [reflexivity |].
      split; [exists b; cbn [String.append]; congruence |].
      intros l Hl. destruct (Hxs l Hl) as (a & b' & ->).
      exists (String c a), b'. reflexivity.
Qed.

Lemma split_includes (sep : ascii) (s w : string) :
  JsString.includes s w = false ->
  Forall (fun line => JsString.includes line w = false) (JsString.split sep s).
Proof.
  intros Hs. destruct (split_pieces sep s) as (x & xs & -> & [b Hx] & Hxs).
  assert (Hpiece : forall a l b', s = a +++ l +++ b' -> JsString.includes l w = false).
  { intros a l b' ->. destruct (JsString.includes l w) eqn:E; [| reflexivity].
    rewrite (includes_append a _ w (includes_append_r l b' w E)) in Hs. discriminate. }
  constructor.
  - apply (Hpiece EmptyString x b). exact Hx.
  - apply Forall_forall. intros l Hl. destruct (Hxs l Hl) as (a & b' & H).
    eapply Hpiece; eauto.
Qed.

(** *** Line numbers *)

Lemma truthy_trim (s : string) :
  JsString.truthy (JsString.trim s) = true -> JsString.truthy s = true.
Proof. destruct s; [discriminate | reflexivity]. Qed.

Lemma truthy_append (a b : string) :
  JsString.truthy a = true -> JsString.truthy (a +++ b) = true.
Proof. destruct a; [discriminate | reflexivity]. Qed.

Lemma bounds_weaken (lo lo' hi hi' : nat) (l : list nat) :
  lo <= lo' -> hi' <= hi ->
  Forall (fun k => lo' <= k /\ k < hi') l -> Forall (fun k => lo <= k /\ k < hi) l.
Proof. intros Hlo Hhi. apply Forall_impl. intros k [? ?]. split; lia. Qed.

Lemma sorted_cons_bound (x lo' hi : nat) (l : list nat) :
  x < lo' -> StronglySorted lt l -> Forall (fun k => lo' <= k /\ k < hi) l ->
  StronglySorted lt (x :: l).
Proof.
  intros Hx Hs Hb. constructor; [exact Hs |].
  revert Hb. apply Forall_impl. intros k [? ?]. lia.
Qed.

(** The statements come out in the order of their lines, which are lines
    of the text; the statement of an import that spans several lines
    carries the line it started on, which is behind the current one. *)
Lemma scanLines_lineNumbers (lines : list string) :
  forall n multi start,
    (JsString.truthy multi = true -> start < n) ->
    StronglySorted lt (lineNumbers (scanLines lines n multi start)) /\
    Forall (fun k => (if JsString.truthy multi then start else n) <= k /\
                     k < n + length lines)
           (lineNumbers (scanLines lines n multi start)).
Proof.
  induction lines as [| line more IH]; intros n multi start Hinv.
  - split; constructor.
  - cbn [scanLines length].
    destruct (negb (JsString.truthy (JsString.trim line))
              || JsString.startsWith (JsString.trim line) "//") eqn:E1.
    { destruct (IH (S n) multi start) as [Hs Hb].
      { intros Hm. specialize (Hinv Hm). lia. }
      split; [exact Hs |]. revert Hb. apply bounds_weaken; [| lia].
      destruct (JsString.truthy multi); lia. }
    apply orb_false_iff in E1 as [E1 _]. apply negb_false_iff in E1.
    pose proof (truthy_trim _ E1) as Hline.
    destruct (JsString.includes line "import" && JsString.includes line "{"
              && negb (JsString.includes line "}")).
    { destruct (IH (S n) line n) as [Hs Hb]; [lia |].
      split; [exact Hs |]. rewrite Hline in Hb. revert Hb.
      apply bounds_weaken; [| lia].
      destruct (JsString.truthy multi) eqn:Hm; [specialize (Hinv eq_refl) |]; lia. }
    destruct (JsString.truthy multi) eqn:Hm; cbn [andb].
    + specialize (Hinv eq_refl).
      destruct (JsString.includes line "from"); cbn [negb].
      * assert (Htail :
          StronglySorted lt (lineNumbers (scanLines more (S n) "" start)) /\
          Forall (fun k => S n <= k /\ k < S n + length more)
                 (lineNumbers (scanLines more (S n) "" start))).
        { apply (IH (S n) "" start). discriminate. }
        destruct Htail as [Hs Hb].
        destruct (firstMatch [namedImportPattern] _).
        -- cbn [lineNumbers map ImportStatement.lineNumber].
           split.
           ++ eapply sorted_cons_bound; [| exact Hs | exact Hb]. lia.
           ++ constructor; [lia |]. revert Hb. apply bounds_weaken; lia.
        -- split; [exact Hs |]. revert Hb. apply bounds_weaken; lia.
      * destruct (IH (S n) (multi +++ " " +++ JsString.trim line) start) as [Hs Hb];
          [lia |].
        rewrite (truthy_append _ _ Hm) in Hb.
        split; [exact Hs |]. revert Hb. apply bounds_weaken; lia.
    + assert (Htail :
        StronglySorted lt (lineNumbers (scanLines more (S n) multi start)) /\
        Forall (fun k => S n <= k /\ k < S n + length more)
               (lineNumbers (scanLines more (S n) multi start))).
      { pose proof (IH (S n) multi start) as H. rewrite Hm in H.
        apply H. discriminate. }
      destruct Htail as [Hs Hb].
      assert (Hhead : forall stmt,
        ImportStatement.lineNumber stmt = n ->
        StronglySorted lt
          (lineNumbers (stmt :: scanLines more (S n) multi start)) /\
        Forall (fun k => n <= k /\ k < n + S (length more))
          (lineNumbers (stmt :: scanLines more (S n) multi start))).
      { intros stmt Hstmt. cbn [lineNumbers map]. rewrite Hstmt. split.
        - eapply sorted_cons_bound; [| exact Hs | exact Hb]. lia.
        - constructor; [lia |]. revert Hb. apply bounds_weaken; lia. }
      destruct (firstMatch es6ImportPatterns line); [apply Hhead; reflexivity |].
      destruct (firstMatch cjsRequirePatterns line); [apply Hhead; reflexivity |].
      destruct (firstMatch [dynamicImportPattern] line); [apply Hhead; reflexivity |].
      split; [exact Hs |]. revert Hb. apply bounds_weaken; lia.
Qed.

(** *** Outcomes *)

Lemma parseImports_cases (h : Host) (filePath : string) :
  parseImports h filePath =
  match existsSync h filePath with
  | Normal false => throw (mkError NotFound ("File not found: " +++ filePath))
  | Normal true =>
      match readTextFile h filePath with
      | Normal content => ret (scanLines (JsString.split "010" content) 1 "" 0)
      | Throw e =>
          throw (if isNotFound e then e
                 else mkError GenericError
                        ("Error parsing imports in " +++ filePath +++ ": "
                         +++ message e))
      end
  | Throw e =>
      throw (if isNotFound e then e
             else mkError GenericError
                    ("Error parsing imports in " +++ filePath +++ ": "
                     +++ message e))
  end.
Proof.
  unfold parseImports, tryCatch, bind, lift, throw, ret.
  destruct (existsSync h filePath) as [[|] | e]; cbn.
  - destruct (readTextFile h filePath) as [content | e]; cbn; [reflexivity |].
    destruct (isNotFound e); reflexivity.
  - reflexivity.
  - destruct (isNotFound e); reflexivity.
Qed.

End ExtractorFacts.

(** ** What the loop over the files pushes *)

Section Pushes.
Import Resolver Matcher Vocabulary Notions.

Variable h : Host.

(** The records pushed for a file: one for each static statement whose
    specifier resolves to a path that [select] accepts. *)
Lemma matchImports_In {A} importMap tsConfig (filePath : string)
    (select : ImportStatement.t -> string -> option A)
    (imports : list ImportStatement.t) (x : A) :
  In x (fst (fst (matchImports h importMap tsConfig filePath select imports))) <->
  exists imp p,
    In imp imports /\ ImportStatement.isDynamic imp = false /\
    fst (resolveImportPath h filePath (ImportStatement.module imp)
           importMap tsConfig) = Normal (Some p) /\
    JsString.truthy p = true /\ select imp p = Some x.
Proof.
  induction imports as [| imp more IH].
  - split; [intros [] | intros (imp & p & [] & _)].
  - cbn [matchImports]. destruct (ImportStatement.isDynamic imp) eqn:Hd.
    + rewrite IH. split.
      * intros (i & p & Hin & Hrest). exists i, p. split; [right; exact Hin | exact Hrest].
      * intros (i & p & [<- | Hin] & Hrest).
        -- destruct Hrest as [Hd' _]. congruence.
        -- exists i, p. split; [exact Hin | exact Hrest].
    + destruct (resolveImportPath_completes h filePath
                  (ImportStatement.module imp) importMap tsConfig)
        as (r & log & Hr).
      rewrite Hr.
      destruct (matchImports h importMap tsConfig filePath select more)
        as [[pushed c] log'].
      cbn [fst] in IH |- *.
      assert (Hhere :
        In x (match (match r with
                     | Some p => if JsString.truthy p then select imp p else None
                     | None => None
                     end) with
              | Some y => y :: pushed
              | None => pushed
              end) <->
        (exists p, r = Some p /\ JsString.truthy p = true /\ select imp p = Some x)
        \/ In x pushed).
      { destruct r as [p |].
        - destruct (JsString.truthy p) eqn:Ht.
          + destruct (select imp p) as [y |] eqn:Hs.
            * split.
              -- intros [<- | Hin]; [left; exists p; auto | right; exact Hin].
              -- intros [(p' & [= <-] & _ & Hs') | Hin]; [left; congruence | right; exact Hin].
            * split; [intros Hin; right; exact Hin |].
              intros [(p' & [= <-] & _ & Hs') | Hin]; [congruence | exact Hin].
          + split; [intros Hin; right; exact Hin |].
            intros [(p' & [= <-] & Ht' & _) | Hin]; [congruence | exact Hin].
        - split; [intros Hin; right; exact Hin |].
          intros [(p' & Hp & _) | Hin]; [discriminate | exact Hin]. }
      rewrite Hhere, IH. split.
      * intros [(p & -> & Ht & Hs) | (i & p & Hin & Hrest)].
        -- exists imp, p. rewrite Hr. cbn [fst].
           split; [left; reflexivity |]. split; [exact Hd |].
           split; [reflexivity |]. split; [exact Ht | exact Hs].
        -- exists i, p. split; [right; exact Hin | exact Hrest].
      * intros (i & p & [<- | Hin] & Hd' & Hres & Ht & Hs).
        -- left. exists p. rewrite Hr in Hres. cbn [fst] in Hres.
           injection Hres as ->. split; [reflexivity |]. split; [exact Ht | exact Hs].
        -- right. exists i, p. split; [exact Hin |]. split; [exact Hd' |].
           split; [exact Hres |]. split; [exact Ht | exact Hs].
Qed.

(** Two selections that agree up to a view push the same, up to it. *)
Lemma matchImports_map {A B C} importMap tsConfig (filePath : string)
    (select1 : ImportStatement.t -> string -> option A)
    (select2 : ImportStatement.t -> string -> option B)
    (view1 : A -> C) (view2 : B -> C) (imports : list ImportStatement.t) :
  (forall imp p, option_map view1 (select1 imp p) = option_map view2 (select2 imp p)) ->
  map view1 (fst (fst (matchImports h importMap tsConfig filePath select1 imports))) =
  map view2 (fst (fst (matchImports h importMap tsConfig filePath select2 imports))).
Proof.
  intros Hsel. induction imports as [| imp more IH]; [reflexivity |].
  cbn [matchImports]. destruct (ImportStatement.isDynamic imp); [exact IH |].
  destruct (resolveImportPath h filePath (ImportStatement.module imp)
              importMap tsConfig) as [[r | e] log]; [| reflexivity].
  destruct (matchImports h importMap tsConfig filePath select1 more)
    as [[pushed1 c1] log1].
  destruct (matchImports h importMap tsConfig filePath select2 more)
    as [[pushed2 c2] log2].
  cbn [fst] in IH |- *.
  destruct r as [p |]; [| exact IH].
  destruct (JsString.truthy p); [| exact IH].
  specialize (Hsel imp p).
  destruct (select1 imp p), (select2 imp p); cbn [option_map] in Hsel;
    try discriminate; cbn [map]; congruence.
Qed.

(** What the block of one file pushes, whether it throws or not. *)
Lemma guarded_pushed {A} (filePath : string) (body : Pushing A) :
  fst (guarded filePath body) = fst (fst body).
Proof. destruct body as [[pushed [u | e]] log]; reflexivity. Qed.

Lemma scanFile_In {A} importMap tsConfig (skip : string -> bool)
    (select : ImportStatement.t -> string -> option A) (filePath : string) (x : A) :
  In x (fst (guarded filePath
               (scanFile h importMap tsConfig skip select filePath))) <->
  skip (Path.resolve h [filePath]) = false /\
  existsSync h filePath = Normal true /\
  exists imports imp p,
    fst (Extractor.parseImports h filePath) = Normal imports /\
    In imp imports /\ ImportStatement.isDynamic imp = false /\
    fst (resolveImportPath h filePath (ImportStatement.module imp)
           importMap tsConfig) = Normal (Some p) /\
    JsString.truthy p = true /\ select imp p = Some x.
Proof.
  rewrite guarded_pushed. unfold scanFile.
  destruct (skip _).
  { split; [intros [] | intros [? _]; discriminate]. }
  destruct (existsSync h filePath) as [[|] | e'].
  - destruct (Extractor.parseImports h filePath) as [[imports | e'] log0].
    + pose proof (matchImports_In importMap tsConfig filePath select imports x) as Hin.
      destruct (matchImports h importMap tsConfig filePath select imports)
        as [[pushed c] log']. cbn [fst] in Hin |- *. rewrite Hin. split.
      * intros (imp & p & Hrest). split; [reflexivity |]. split; [reflexivity |].
        exists imports, imp, p. split; [reflexivity | exact Hrest].
      * intros (_ & _ & imports' & imp & p & [= <-] & Hrest). exists imp, p. exact Hrest.
    + cbn [fst]. split; [intros [] |].
      intros (_ & _ & imports' & imp & p & Hp & _). discriminate.
  - cbn [fst]. split; [intros [] | intros (_ & Hex & _); discriminate].
  - cbn [fst]. split; [intros [] | intros (_ & Hex & _); discriminate].
Qed.

Lemma scanFile_map {A B C} importMap tsConfig (skip : string -> bool)
    (select1 : ImportStatement.t -> string -> option A)
    (select2 : ImportStatement.t -> string -> option B)
    (view1 : A -> C) (view2 : B -> C) (filePath : string) :
  (forall imp p, option_map view1 (select1 imp p) = option_map view2 (select2 imp p)) ->
  map view1 (fst (guarded filePath
                    (scanFile h importMap tsConfig skip select1 filePath))) =
  map view2 (fst (guarded filePath
                    (scanFile h importMap tsConfig skip select2 filePath))).
Proof.
  intros Hsel. rewrite !guarded_pushed. unfold scanFile.
  destruct (skip _); [reflexivity |].
  destruct (existsSync h filePath) as [[|] | e']; try reflexivity.
  destruct (Extractor.parseImports h filePath) as [[imports | e'] log0];
    [| reflexivity].
  pose proof (matchImports_map importMap tsConfig filePath select1 select2
                view1 view2 imports Hsel) as Hmap.
  destruct (matchImports h importMap tsConfig filePath select1 imports)
    as [[pushed1 c1] log1].
  destruct (matchImports h importMap tsConfig filePath select2 imports)
    as [[pushed2 c2] log2].
  exact Hmap.
Qed.

End Pushes.

(** ** The map of groups *)

Section Groups.
Import Matcher Vocabulary Notions JsArray.

Lemma insertSorted_permutation {A} (cmp : A -> A -> comparison) (x : A) (l : list A) :
  Permutation (insertSorted cmp x l) (x :: l).
Proof.
  induction l as [| y l IH]; cbn [insertSorted]; [reflexivity |].
  destruct (cmp x y); try reflexivity.
  rewrite IH. apply perm_swap.
Qed.

(** Sorting rearranges, whatever the comparison. *)
Lemma sort_permutation {A} (cmp : A -> A -> comparison) (l : list A) :
  Permutation (sort cmp l) l.
Proof.
  induction l as [| x l IH]; cbn [sort]; [reflexivity |].
  rewrite insertSorted_permutation. now constructor.
Qed.

Lemma addImporter_keys (m : list (string * list Importer.t)) (k : string)
    (v : Importer.t) :
  map fst (addImporter m k v) =
  if existsb (fun e => (fst e =? k)%string) m then map fst m else map fst m ++ [k].
Proof.
  induction m as [| [k' vs] m IH]; [reflexivity |].
  cbn [addImporter existsb fst map]. destruct (k' =? k)%string; cbn [orb map fst].
  - reflexivity.
  - rewrite IH. destruct (existsb _ m); reflexivity.
Qed.

Lemma existsb_key_In (m : list (string * list Importer.t)) (k : string) :
  existsb (fun e => (fst e =? k)%string) m = false -> ~ In k (map fst m).
Proof.
  induction m as [| [k' vs] m IH]; cbn [existsb map fst In]; [tauto |].
  intros H. apply orb_false_iff in H as [Hk Hm].
  apply String.eqb_neq in Hk. intros [Heq | Hin]; [congruence | exact (IH Hm Hin)].
Qed.

Lemma addImporter_NoDup (m : list (string * list Importer.t)) (k : string)
    (v : Importer.t) :
  NoDup (map fst m) -> NoDup (map fst (addImporter m k v)).
Proof.
  intros Hm. rewrite addImporter_keys.
  destruct (existsb _ m) eqn:E; [exact Hm |].
  apply existsb_key_In in E.
  apply (Permutation_NoDup (l := k :: map fst m)).
  - apply Permutation_cons_append.
  - now constructor.
Qed.

Lemma addImporter_nonempty (m : list (string * list Importer.t)) (k : string)
    (v : Importer.t) :
  Forall (fun e => snd e <> []) m -> Forall (fun e => snd e <> []) (addImporter m k v).
Proof.
  induction 1 as [| [k' vs] m Hvs Hm IH]; cbn [addImporter].
  - constructor; [discriminate | constructor].
  - destruct (k' =? k)%string; constructor; try assumption.
    cbn [snd]. destruct vs; discriminate.
Qed.

Lemma addImporter_members (m : list (string * list Importer.t)) (k : string)
    (v : Importer.t) :
  Permutation (flat_map tagged (addImporter m k v)) ((k, v) :: flat_map tagged m).
Proof.
  induction m as [| [k' vs] m IH]; [reflexivity |].
  cbn [addImporter]. destruct (k' =? k)%string eqn:Hk; cbn [flat_map].
  - apply String.eqb_eq in Hk. subst k'. unfold tagged at 1 3. cbn [fst snd].
    rewrite map_app, <- app_assoc. cbn [map app]. symmetry. apply Permutation_middle.
  - rewrite IH. symmetry. apply Permutation_middle.
Qed.

(** The map after the loop: keys that differ, no empty list, and the
    importers that were pushed, each under its key. *)
Lemma collectGroups_invariant (pushed : list (string * Importer.t)) :
  NoDup (map fst (collectGroups pushed)) /\
  Forall (fun e => snd e <> []) (collectGroups pushed) /\
  Permutation (flat_map tagged (collectGroups pushed)) pushed.
Proof.
  unfold collectGroups.
  enough (Hgen : forall rest m,
    NoDup (map fst m) -> Forall (fun e => snd e <> []) m ->
    let m' := fold_left (fun m e => addImporter m (fst e) (snd e)) rest m in
    NoDup (map fst m') /\ Forall (fun e => snd e <> []) m' /\
    Permutation (flat_map tagged m') (flat_map tagged m ++ rest)).
  { apply (Hgen pushed []); constructor. }
  induction rest as [| [k v] rest IH]; intros m Hnd Hne; cbn [fold_left fst snd].
  - rewrite app_nil_r. auto.
  - destruct (IH (addImporter m k v)) as (H1 & H2 & H3).
    + now apply addImporter_NoDup.
    + now apply addImporter_nonempty.
    + split; [exact H1 |]. split; [exact H2 |].
      rewrite H3, addImporter_members. cbn [app].
      apply Permutation_middle.
Qed.

Lemma entries_length (groups : list ImportGroup.t) :
  length (entries groups) = length (flat_map ImportGroup.importers groups).
Proof.
  unfold entries. induction groups as [| g groups IH]; [reflexivity |].
  cbn [flat_map]. rewrite !length_app, length_map, IH. reflexivity.
Qed.

Lemma countImporters_sum (groups : list ImportGroup.t) :
  countImporters groups = length (flat_map ImportGroup.importers groups).
Proof.
  unfold countImporters.
  enough (Hgen : forall n, fold_left (fun sum g => sum + length (ImportGroup.importers g))
                             groups n
                           = n + length (flat_map ImportGroup.importers groups))
    by apply (Hgen 0).
  induction groups as [| g groups IH]; intros n; cbn [fold_left flat_map length]; [lia |].
  rewrite IH, length_app. lia.
Qed.

Variable h : Host.

(** The groups of the result, read off the map. *)
Lemma sortedGroups_invariant (m : list (string * list Importer.t)) :
  NoDup (map fst m) -> Forall (fun e => snd e <> []) m ->
  NoDup (map ImportGroup.importedFile (sortedGroups h m)) /\
  Forall (fun g => ImportGroup.importers g <> []) (sortedGroups h m) /\
  Permutation (entries (sortedGroups h m)) (flat_map tagged m).
Proof.
  intros Hnd Hne. unfold sortedGroups.
  set (groups := map (fun e => ImportGroup.mk (fst e) (snd e)) m).
  pose proof (sort_permutation (byImportedFile h) groups) as Hperm.
  split; [| split].
  - rewrite map_map. cbn [ImportGroup.importedFile].
    apply (Permutation_NoDup (l := map ImportGroup.importedFile groups)).
    + symmetry. apply Permutation_map. exact Hperm.
    + unfold groups. rewrite map_map. cbn [ImportGroup.importedFile]. exact Hnd.
  - apply Forall_map. cbn [ImportGroup.importers].
    refine (Permutation_Forall (Permutation_sym Hperm) _).
    unfold groups. apply Forall_map. cbn [ImportGroup.importers].
    revert Hne. apply Forall_impl. intros [k vs] Hvs. cbn [snd] in *.
    intros Hsort. apply sort_nil_inv in Hsort. contradiction.
  - unfold entries. rewrite flat_map_concat_map, map_map.
    cbn [ImportGroup.importers ImportGroup.importedFile].
    rewrite <- flat_map_concat_map.
    transitivity (entries (sort (byImportedFile h) groups)).
    + unfold entries. generalize (sort (byImportedFile h) groups). intros l.
      induction l as [| g l IH]; cbn [flat_map]; [reflexivity |].
      apply Permutation_app; [| exact IH].
      apply Permutation_map, sort_permutation.
    + transitivity (entries groups).
      * unfold entries. apply Permutation_flat_map. exact Hperm.
      * unfold entries, groups. rewrite !flat_map_concat_map, map_map. reflexivity.
Qed.

End Groups.

(** ** The extension of a path *)

Section ExtensionFacts.
Import RegExp Notions Resolver.

(** [[^/.]*] followed by the end of the input: all of it or nothing. *)
Lemma run_star_to_end {A} (p : ascii -> bool) (s : string) (cap : option string)
    (k : string -> option string -> option A) :
  run (Star true (Chr p)) s cap (fun s' cap' => run Eol s' cap' k) =
  if allChars p s then k EmptyString cap else None.
Proof.
  induction s as [| c s IH].
  - rewrite run_star_chr_nil. reflexivity.
  - rewrite run_star_chr_cons. cbv zeta beta. cbn [allChars].
    destruct (p c); cbn [andb]; [| reflexivity].
    rewrite IH. destruct (allChars p s); [| reflexivity].
    destruct (k EmptyString cap); reflexivity.
Qed.

Lemma substring_all (s : string) : String.substring 0 (String.length s) s = s.
Proof. induction s as [| c s IH]; cbn; [reflexivity | now rewrite IH]. Qed.

Lemma substring_prefix (p s : string) :
  String.substring 0 (String.length p) (p +++ s) = p.
Proof.
  induction p as [| c p IH]; cbn.
  - destruct s; reflexivity.
  - now rewrite IH.
Qed.

Lemma run_seq {A} (r1 r2 : regex) (s : string) (cap : option string)
    (k : string -> option string -> option A) :
  run (Seq r1 r2) s cap k = run r1 s cap (fun s' cap' => run r2 s' cap' k).
Proof. reflexivity. Qed.

Lemma run_chr {A} (p : ascii -> bool) (s : string) (cap : option string)
    (k : string -> option string -> option A) :
  run (Chr p) s cap k =
  match s with
  | String c s' => if p c then k s' cap else None
  | EmptyString => None
  end.
Proof. reflexivity. Qed.

(** The pattern at one place: a dot, then extension characters to the
    end, at least one. *)
Lemma matchHere_extension (i : nat) (s : string) :
  matchHere (body extensionPattern) i s =
  match s with
  | String c e =>
      if Ascii.eqb "." c && isExtensionName e
      then Some (mkMatch i s None EmptyString) else None
  | EmptyString => None
  end.
Proof.
  unfold matchHere, extensionPattern. cbn [body seqs]. unfold plus, chr.
  change (fun c0 : ascii => negb (Ascii.eqb c0 "/" || Ascii.eqb c0 "."))
    with extensionChar.
  rewrite run_seq, run_chr.
  destruct s as [| c e]; [reflexivity |].
  destruct (Ascii.eqb "." c); cbn [andb]; [| reflexivity].
  rewrite !run_seq, run_chr.
  destruct e as [| d e]; [reflexivity |].
  unfold isExtensionName. cbn [JsString.truthy allChars andb].
  destruct (extensionChar d); cbn [andb]; [| reflexivity].
  rewrite run_star_to_end. destruct (allChars extensionChar e); [| reflexivity].
  cbn [String.length]. rewrite Nat.sub_0_r.
  change (S (S (String.length e))) with (String.length (String c (String d e))).
  rewrite substring_all. reflexivity.
Qed.

Lemma allChars_dot (a b : string) :
  allChars extensionChar (a +++ String "." b) = false.
Proof.
  induction a as [| c a IH]; [reflexivity |].
  cbn [String.append allChars]. rewrite IH. apply andb_false_r.
Qed.

Lemma search_extension (e : string) :
  isExtensionName e = true ->
  forall p i,
    search (body extensionPattern) i (p +++ String "." e)
    = Some (mkMatch (i + String.length p) (String "." e) None EmptyString).
Proof.
  intros He. induction p as [| c p IH]; intros i.
  - cbn [String.append search]. rewrite matchHere_extension.
    cbn [Ascii.eqb Bool.eqb andb]. rewrite He. cbn [String.length].
    now rewrite Nat.add_0_r.
  - cbn [String.append search]. rewrite matchHere_extension.
    assert (Hno : Ascii.eqb "." c && isExtensionName (p +++ String "." e) = false).
    { unfold isExtensionName. rewrite allChars_dot.
      now rewrite andb_false_r, andb_false_r. }
    rewrite Hno, IH. cbn [String.length]. f_equal. f_equal. lia.
Qed.

Lemma search_extension_inv (s : string) :
  forall i m,
    search (body extensionPattern) i s = Some m ->
    exists p e, s = p +++ String "." e /\ isExtensionName e = true.
Proof.
  induction s as [| c s IH]; intros i m; cbn [search];
    rewrite matchHere_extension; [discriminate |].
  destruct (Ascii.eqb "." c && isExtensionName s) eqn:E.
  - intros _. apply andb_true_iff in E as [Hc He].
    apply Ascii.eqb_eq in Hc. subst c.
    exists EmptyString, s. split; [reflexivity | exact He].
  - intros H. apply IH in H as (p & e & -> & He).
    exists (String c p), e. split; [reflexivity | exact He].
Qed.

End ExtensionFacts.

(** ** The probes of [resolveImportPath] *)

Section ProbeFacts.
Import Resolver.

Variable h : Host.

Lemma firstExisting_first (mk : string -> string) (before : list string)
    (ext : string) (after : list string) :
  (forall e, In e before -> existsSync h (mk e) = Normal false) ->
  existsSync h (mk ext) = Normal true ->
  firstExisting h mk (before ++ ext :: after) = ret (Some (mk ext)).
Proof.
  intros Hbefore Hext. induction before as [| e before IH]; cbn [app firstExisting].
  - rewrite Hext, bind_lift_normal. reflexivity.
  - rewrite (Hbefore e (or_introl eq_refl)), bind_lift_normal.
    apply IH. intros e' He'. apply Hbefore. now right.
Qed.

(** The loop over the extensions writes nothing; what it returns exists. *)
Lemma firstExisting_result (mk : string -> string) (exts : list string)
    (r : Completion (option string)) (log : list LogEntry) :
  firstExisting h mk exts = (r, log) ->
  log = [] /\
  forall p, r = Normal (Some p) ->
    exists ext, In ext exts /\ p = mk ext /\ existsSync h p = Normal true.
Proof.
  revert r log. induction exts as [| ext more IH]; intros r log; cbn [firstExisting].
  - intros [= <- <-]. split; [reflexivity | discriminate].
  - destruct (existsSync h (mk ext)) as [[|] | e] eqn:Hex; unfold lift.
    + rewrite bind_normal_nil. intros [= <- <-]. split; [reflexivity |].
      intros p [= <-]. exists ext. split; [now left |]. split; [reflexivity | exact Hex].
    + rewrite bind_normal_nil. intros H. apply IH in H as [Hlog Hr].
      split; [exact Hlog |]. intros p Hp. destruct (Hr p Hp) as (ext' & Hin & Hrest).
      exists ext'. split; [now right | exact Hrest].
    + rewrite bind_throw. intros [= <- <-]. split; [reflexivity | discriminate].
Qed.

(** When nothing is at the resolved path, the search for an index file
    cannot start: the inspection of the path fails as the test for its
    existence did. *)
Lemma resolveRelative_missing (importerPath importPath : string) :
  existsSync h (Path.resolve h [Path.dirname importerPath; importPath]) = Normal false ->
  resolveRelative h importerPath importPath =
  (withExt <- firstExisting h
                (fun ext => extensionBase
                              (Path.resolve h [Path.dirname importerPath; importPath])
                            +++ ext) extensions ;;
   match withExt with
   | Some p => ret (Some p)
   | None => ret (Some (Path.resolve h [Path.dirname importerPath; importPath]))
   end).
Proof.
  intros Hex. unfold resolveRelative.
  rewrite Hex, bind_lift_normal. cbn [negb].
  destruct (existsSync_false_stat h _ Hex) as (e & Hstat & _).
  rewrite Hstat. unfold lift at 1. rewrite bind_throw. cbn [tryCatch ret].
  rewrite bind_normal_nil.
  destruct (firstExisting h _ extensions) as [[[p |] | e'] log] eqn:Hfirst;
    try reflexivity.
  apply firstExisting_result in Hfirst as [-> _].
  rewrite !bind_normal_nil.
  destruct (negb (hasExtension _)); [| rewrite bind_ret; reflexivity].
  unfold lift. rewrite bind_normal_nil. reflexivity.
Qed.

Lemma resolve_cwd (h' : Host) (pathSegments : list string) :
  cwd h = cwd h' -> Path.resolve h pathSegments = Path.resolve h' pathSegments.
Proof. intros Hcwd. unfold Path.resolve. now rewrite Hcwd. Qed.

Lemma resolveWithImportMap_cwd (h' : Host) (importerPath importPath : string)
    (importMap : option ImportMap) :
  cwd h = cwd h' ->
  resolveWithImportMap h importerPath importPath importMap
  = resolveWithImportMap h' importerPath importPath importMap.
Proof.
  intros Hcwd. unfold resolveWithImportMap.
  destruct importMap as [[[entries |] sc] |]; try reflexivity.
  destruct (getProperty entries importPath) as [value | |]; try reflexivity.
  - destruct (JsString.truthy value).
    + now rewrite (resolve_cwd h' _ Hcwd).
    + rewrite !bind_ret. destruct (prefixEntry entries importPath) as [[prefix repl] |];
        [| reflexivity].
      now rewrite (resolve_cwd h' _ Hcwd).
  - rewrite !bind_ret. destruct (prefixEntry entries importPath) as [[prefix repl] |];
      [| reflexivity].
    now rewrite (resolve_cwd h' _ Hcwd).
Qed.

Lemma resolveWithTsConfig_cwd (h' : Host) (importerPath importPath : string)
    (tsConfig : option TsConfig) :
  cwd h = cwd h' ->
  resolveWithTsConfig h importerPath importPath tsConfig
  = resolveWithTsConfig h' importerPath importPath tsConfig.
Proof.
  intros Hcwd. unfold resolveWithTsConfig.
  destruct tsConfig as [[[[[base |] [entries |]] |]] |]; try reflexivity.
  destruct (JsString.truthy base); [| reflexivity].
  rewrite !PatternFacts.matchPaths_literal.
  destruct (find (Vocabulary.hits importPath) entries) as [[pattern [| first rest]] |];
    try reflexivity.
  now rewrite (resolve_cwd h' _ Hcwd).
Qed.

End ProbeFacts.

(** ** The loop of [scan] *)

Section ScanLoop.
Import Scanner Notions.

Variables (rt : Runtime) (rootPath : string) (extensions : list string)
          (ignoreRegexes : list (string -> bool)).

Lemma existsb_nat_In (n : nat) (l : list nat) :
  existsb (Nat.eqb n) l = true <-> In n l.
Proof.
  rewrite existsb_exists. split.
  - intros (x & Hin & Heq). apply Nat.eqb_eq in Heq. now subst.
  - intros Hin. exists n. split; [exact Hin | apply Nat.eqb_refl].
Qed.

Lemma existsb_string_In (s : string) (l : list string) :
  existsb (String.eqb s) l = true <-> In s l.
Proof.
  rewrite existsb_exists. split.
  - intros (x & Hin & Heq). apply String.eqb_eq in Heq. now subst.
  - intros Hin. exists s. split; [exact Hin | apply String.eqb_refl].
Qed.

(** One entry: the caches grow by the entry, and the entry is pushed
    when it was not cached and passes the filters. *)
Lemma visit_spec (st st1 : State) (q : string) :
  cachesAgree rt st ->
  visit rt rootPath extensions ignoreRegexes st q = Normal st1 ->
  cachesAgree rt st1 /\
  (forall p, cached rt st1 p
             = cached rt st p || ((p =? q)%string || sameInode rt q p)) /\
  matchedFiles st1 =
    matchedFiles st ++
    (if negb (cached rt st q) && passesFilters rt rootPath extensions ignoreRegexes q
     then [q] else []).
Proof.
  intros Hagree. unfold visit.
  destruct (stat rt q) as [fileInfo | e] eqn:Hstat; [| discriminate].
  assert (Hino : inodeOf rt q = ino fileInfo) by (unfold inodeOf; now rewrite Hstat).
  assert (Hskip : cached rt st q = true ->
            cachesAgree rt st /\
            (forall p, cached rt st p
                       = cached rt st p || ((p =? q)%string || sameInode rt q p)) /\
            matchedFiles st = matchedFiles st ++
              (if negb (cached rt st q)
                  && passesFilters rt rootPath extensions ignoreRegexes q
               then [q] else [])).
  { intros Hq. split; [exact Hagree |]. split.
    - intros p. destruct (cached rt st p) eqn:Hp; [reflexivity |]. cbn [orb].
      symmetry. apply orb_false_iff. split.
      + destruct (String.eqb_spec p q) as [-> |]; [congruence | reflexivity].
      + unfold sameInode. destruct (inodeOf rt q) as [a |] eqn:Ha; [| reflexivity].
        destruct (inodeOf rt p) as [b |] eqn:Hb; [| reflexivity].
        destruct (Nat.eqb_spec a b) as [<- |]; [| reflexivity].
        exfalso. unfold cached in Hp, Hq. rewrite Ha in Hq. rewrite Hb in Hp.
        apply orb_false_iff in Hp as [Hp _].
        apply orb_true_iff in Hq as [Hq | Hq]; [congruence |].
        apply existsb_string_In in Hq. pose proof (Hagree q a Hq Ha) as Hin.
        apply existsb_nat_In in Hin. congruence.
    - rewrite Hq. cbn [negb andb]. now rewrite app_nil_r. }
  unfold hasInode.
  destruct (match ino fileInfo with
            | Some n => existsb (Nat.eqb n) (processedInodes st)
            | None => false
            end) eqn:Hseen.
  { intros [= <-]. apply Hskip. unfold cached. rewrite Hino, Hseen. reflexivity. }
  destruct (existsb (String.eqb q) (processedFiles st)) eqn:Hpath.
  { intros [= <-]. apply Hskip. unfold cached. rewrite Hpath. apply orb_true_r. }
  assert (Hfresh : cached rt st q = false).
  { unfold cached. rewrite Hino, Hseen, Hpath. reflexivity. }
  rewrite Hfresh. cbn [negb andb].
  set (inodes := match ino fileInfo with
                 | Some n => n :: processedInodes st
                 | None => processedInodes st
                 end).
  assert (Hcaches : forall matched,
    cachesAgree rt (mkState (q :: processedFiles st) inodes matched) /\
    forall p, cached rt (mkState (q :: processedFiles st) inodes matched) p
              = cached rt st p || ((p =? q)%string || sameInode rt q p)).
  { intros matched. split.
    - intros x n. cbn [processedFiles processedInodes]. intros [<- | Hx] Hn.
      + unfold inodes. rewrite Hino in Hn. rewrite Hn. now left.
      + pose proof (Hagree x n Hx Hn) as Hin. unfold inodes.
        destruct (ino fileInfo); [now right | exact Hin].
    - intros p. unfold cached, sameInode. cbn [processedFiles processedInodes existsb].
      rewrite Hino. unfold inodes.
      destruct (inodeOf rt p) as [b |]; destruct (ino fileInfo) as [a |];
        cbn [existsb orb].
      + rewrite (Nat.eqb_sym a b).
        destruct (b =? a)%nat, (existsb (Nat.eqb b) (processedInodes st)),
          (p =? q)%string, (existsb (String.eqb p) (processedFiles st)); reflexivity.
      + destruct (existsb (Nat.eqb b) (processedInodes st)),
          (p =? q)%string, (existsb (String.eqb p) (processedFiles st)); reflexivity.
      + destruct (p =? q)%string, (existsb (String.eqb p) (processedFiles st));
          reflexivity.
      + destruct (p =? q)%string, (existsb (String.eqb p) (processedFiles st));
          reflexivity. }
  unfold passesFilters.
  destruct (existsb (String.eqb (extname rt q)) extensions); cbn [negb andb].
  - destruct (shouldIgnore ignoreRegexes _); cbn [negb]; intros [= <-];
      (split; [apply Hcaches |]); (split; [apply Hcaches |]);
      cbn [matchedFiles]; [now rewrite app_nil_r | reflexivity].
  - intros [= <-]. split; [apply Hcaches |]. split; [apply Hcaches |].
    cbn [matchedFiles]. now rewrite app_nil_r.
Qed.

Lemma visit_throws (st : State) (q : string) (e : JsError) :
  visit rt rootPath extensions ignoreRegexes st q = Throw e <-> stat rt q = Throw e.
Proof.
  unfold visit. destruct (stat rt q) as [fileInfo | e'].
  - split; [| discriminate].
    destruct (hasInode st fileInfo); [discriminate |].
    destruct (existsb _ (processedFiles st)); [discriminate |].
    destruct (negb _); [discriminate |].
    destruct (shouldIgnore _ _); discriminate.
  - split; intros [= ->]; reflexivity.
Qed.

(** The whole loop: what is pushed is, in order, each entry that passes
    the filters and that was not cached, neither at the start nor by an
    earlier entry. *)
Lemma visitAll_spec (entries : list string) :
  forall st st',
    cachesAgree rt st ->
    visitAll rt rootPath extensions ignoreRegexes entries st = Normal st' ->
    exists kept,
      matchedFiles st' = matchedFiles st ++ kept /\
      Subsequence kept entries /\
      NoDup kept /\
      (forall p, In p kept -> cached rt st p = false) /\
      (forall p, In p kept <->
         exists pre post,
           entries = pre ++ p :: post /\
           cached rt st p = false /\ metBefore rt pre p = false /\
           passesFilters rt rootPath extensions ignoreRegexes p = true).
Proof.
  induction entries as [| q more IH]; intros st st' Hagree; cbn [visitAll].
  - intros [= <-]. exists []. rewrite app_nil_r.
    split; [reflexivity |]. split; [constructor |]. split; [constructor |].
    split; [intros p [] |]. intros p. split; [intros [] |].
    intros (pre & post & Heq & _). destruct pre; discriminate.
  - destruct (visit rt rootPath extensions ignoreRegexes st q) as [st1 | e] eqn:Hvisit;
      [| discriminate].
    destruct (visit_spec st st1 q Hagree Hvisit) as (Hagree1 & Hcached & Hmatched).
    intros Hrest.
    destruct (IH st1 st' Hagree1 Hrest) as (kept & Hkept & Hsub & Hnd & Hnew & Hin).
    assert (Hq1 : cached rt st1 q = true).
    { rewrite Hcached, String.eqb_refl. cbn [orb]. apply orb_true_r. }
    assert (Hstep : forall p pre,
      (cached rt st1 p = false /\ metBefore rt pre p = false) <->
      (cached rt st p = false /\ metBefore rt (q :: pre) p = false)).
    { intros p pre. rewrite Hcached. unfold metBefore. cbn [existsb].
      rewrite !orb_false_iff. tauto. }
    set (here := if negb (cached rt st q)
                    && passesFilters rt rootPath extensions ignoreRegexes q
                 then [q] else []) in *.
    exists (here ++ kept). split; [rewrite Hkept, Hmatched, <- app_assoc; reflexivity |].
    assert (Hhere : forall p, In p here <->
              p = q /\ cached rt st q = false /\
              passesFilters rt rootPath extensions ignoreRegexes q = true).
    { intros p. unfold here.
      destruct (cached rt st q); cbn [negb andb].
      - split; [intros [] | intros (_ & H & _); discriminate].
      - destruct (passesFilters rt rootPath extensions ignoreRegexes q).
        + split; [intros [<- | []]; auto | intros (-> & _); now left].
        + split; [intros [] | intros (_ & _ & H); discriminate]. }
    split; [| split; [| split]].
    + unfold here. destruct (_ && _); cbn [app]; now constructor.
    + unfold here. destruct (_ && _); cbn [app]; [| exact Hnd].
      constructor; [| exact Hnd]. intros Hq. apply Hnew in Hq. congruence.
    + intros p Hp. apply in_app_or in Hp as [Hp | Hp].
      * apply Hhere in Hp as (-> & Hc & _). exact Hc.
      * pose proof (Hnew p Hp) as Hc. rewrite Hcached in Hc.
        apply orb_false_iff in Hc. tauto.
    + intros p. rewrite in_app_iff, Hhere, Hin. split.
      * intros [(-> & Hc & Hpass) | (pre & post & -> & Hc & Hmet & Hpass)].
        -- exists [], more. repeat split; assumption.
        -- exists (q :: pre), post. split; [reflexivity |].
           destruct (proj1 (Hstep p pre) (conj Hc Hmet)) as [Hc0 Hmet0].
           repeat split; assumption.
      * intros (pre & post & Heq & Hc & Hmet & Hpass).
        destruct pre as [| q' pre]; cbn [app] in Heq; injection Heq as <- ->.
        -- left. repeat split; assumption.
        -- right. exists pre, post. split; [reflexivity |].
           destruct (proj2 (Hstep p pre) (conj Hc Hmet)) as [Hc1 Hmet1].
           repeat split; assumption.
Qed.

(** The loop stops at the first entry that cannot be inspected. *)
Lemma visitAll_throws (pre : list string) (p : string) (post : list string)
    (e : JsError) :
  (forall q, In q pre -> exists fileInfo, stat rt q = Normal fileInfo) ->
  stat rt p = Throw e ->
  forall st, visitAll rt rootPath extensions ignoreRegexes (pre ++ p :: post) st
             = Throw e.
Proof.
  intros Hpre Hp. induction pre as [| q pre IH]; intros st; cbn [app visitAll].
  - now rewrite (proj2 (visit_throws st p e) Hp).
  - destruct (visit rt rootPath extensions ignoreRegexes st q) as [st1 | e'] eqn:Hvisit.
    + apply IH. intros x Hx. apply Hpre. now right.
    + apply visit_throws in Hvisit.
      destruct (Hpre q (or_introl eq_refl)) as [fileInfo Hq]. congruence.
Qed.

Lemma visitAll_completes (entries : list string) :
  (forall q, In q entries -> exists fileInfo, stat rt q = Normal fileInfo) ->
  forall st, exists st',
    visitAll rt rootPath extensions ignoreRegexes entries st = Normal st'.
Proof.
  induction entries as [| q more IH]; intros Hall st; cbn [visitAll].
  - now exists st.
  - destruct (visit rt rootPath extensions ignoreRegexes st q) as [st1 | e] eqn:Hvisit.
    + apply IH. intros x Hx. apply Hall. now right.
    + apply visit_throws in Hvisit.
      destruct (Hall q (or_introl eq_refl)) as [fileInfo Hq]. congruence.
Qed.

End ScanLoop.

(** [scan], once its patterns are compiled: the loop, then the error of
    the walk, and the conversion of [NotFound]. *)
Lemma scan_unfold (rt : Runtime) (rootPath : string) (options : ScannerOptions.t)
    (ignoreRegexes : list (string -> bool)) :
  Scanner.compilePatterns rt
    (Scanner.orDefault (ScannerOptions.ignore options) Scanner.defaultIgnore)
  = Normal ignoreRegexes ->
  Scanner.scan rt rootPath options =
  match Scanner.visitAll rt rootPath
          (Scanner.orDefault (ScannerOptions.extensions options)
             Scanner.defaultExtensions)
          ignoreRegexes
          (fst (walk rt rootPath (Scanner.walkOptions options)))
          (Scanner.mkState [] [] []) with
  | Throw e => Throw (Notions.scanFailure rootPath e)
  | Normal st =>
      match snd (walk rt rootPath (Scanner.walkOptions options)) with
      | Some e => Throw (Notions.scanFailure rootPath e)
      | None => Normal (Scanner.matchedFiles st)
      end
  end.
Proof.
  intros Hcompile. unfold Scanner.scan. rewrite Hcompile.
  destruct (walk rt rootPath (Scanner.walkOptions options)) as [entries failure].
  cbn [fst snd]. unfold Notions.scanFailure.
  destruct (Scanner.visitAll _ _ _ _ entries _) as [st | e].
  - destruct failure as [e |]; [| reflexivity]. destruct (isNotFound e); reflexivity.
  - destruct (isNotFound e); reflexivity.
Qed.

(** ** The pieces of a relative path *)

Section PartialPaths.
Import Scanner.

Lemma split_nonempty (sep : ascii) (s : string) : JsString.split sep s <> [].
Proof.
  destruct s as [| c s]; cbn [JsString.split]; [discriminate |].
  destruct (Ascii.eqb c sep); [discriminate |].
  destruct (JsString.split sep s); discriminate.
Qed.

Lemma split_app_sep (sep : ascii) (a b : string) :
  JsString.split sep (a +++ String sep b)
  = JsString.split sep a ++ JsString.split sep b.
Proof.
  induction a as [| c a IH]; cbn [String.append JsString.split].
  - now rewrite Ascii.eqb_refl.
  - destruct (Ascii.eqb c sep); rewrite IH; [reflexivity |].
    pose proof (split_nonempty sep a) as Hne.
    destruct (JsString.split sep a) as [| x xs]; [contradiction | reflexivity].
Qed.

(** Joining what [split] gave returns the text. *)
Lemma concat_split (s : string) :
  String.concat "/" (JsString.split "/" s) = s.
Proof.
  induction s as [| c s IH]; [reflexivity |].
  cbn [JsString.split]. pose proof (split_nonempty "/" s) as Hne.
  destruct (Ascii.eqb c "/") eqn:Hc.
  - apply Ascii.eqb_eq in Hc. subst c.
    destruct (JsString.split "/" s) as [| x xs]; [contradiction |].
    rewrite <- IH. reflexivity.
  - destruct (JsString.split "/" s) as [| x xs]; [contradiction |].
    rewrite <- IH. destruct xs as [| y ys]; reflexivity.
Qed.

Lemma slices_app {A} (l1 l2 : list A) : l1 <> [] -> In l1 (slices (l1 ++ l2)).
Proof.
  induction l1 as [| x l1 IH]; intros Hne; [contradiction |].
  cbn [app slices]. destruct l1 as [| y l1]; [now left |].
  right. apply in_map. apply IH. discriminate.
Qed.

(** The path of a directory on the way to a file is one of the partial
    paths the ignore patterns are tried on. *)
Lemma partialPaths_directory (dir below : string) :
  In dir (partialPaths (dir +++ "/" +++ below)).
Proof.
  unfold partialPaths. change ("/" +++ below) with (String "/" below).
  rewrite split_app_sep. rewrite <- (concat_split dir) at 1.
  apply in_map. apply slices_app. apply split_nonempty.
Qed.

Lemma shouldIgnore_directory (ignoreRegexes : list (string -> bool))
    (regex : string -> bool) (dir below : string) :
  In regex ignoreRegexes -> regex dir = true ->
  shouldIgnore ignoreRegexes (dir +++ "/" +++ below) = true.
Proof.
  intros Hin Hdir. unfold shouldIgnore. apply existsb_exists.
  exists regex. split; [exact Hin |]. apply existsb_exists.
  exists dir. split; [apply partialPaths_directory | exact Hdir].
Qed.

End PartialPaths.

(** ** The semicolon of the import patterns *)

Section SemicolonFacts.
Import RegExp Notions Extractor.

Lemma requires_chr (c : ascii) : Requires (String c EmptyString) (chr c).
Proof.
  intros A s cap k x H. unfold chr in H. rewrite run_chr in H.
  destruct s as [| d s]; [discriminate |].
  destruct (Ascii.eqb c d) eqn:E; [| discriminate].
  apply Ascii.eqb_eq in E. subst d. apply prefix_includes.
  cbn [String.prefix]. destruct (ascii_dec c c) as [_ | Hne]; [apply prefix_nil |].
  now elim Hne.
Qed.

Ltac ends_with_semicolon :=
  first [ solve [apply requires_chr]
        | solve [apply requires_seq_r; ends_with_semicolon] ].

Lemma es6_requires_semicolon :
  Forall (fun p => Requires ";" (body p)) es6ImportPatterns.
Proof.
  unfold es6ImportPatterns, namedImportPattern.
  repeat constructor; cbn [body seqs]; ends_with_semicolon.
Qed.

Lemma named_requires_semicolon :
  Forall (fun p => Requires ";" (body p)) [namedImportPattern].
Proof.
  unfold namedImportPattern. repeat constructor; cbn [body seqs]; ends_with_semicolon.
Qed.

(** *** One character in a text *)

Lemma prefix_char (c d : ascii) (s : string) :
  String.prefix (String c EmptyString) (String d s) = Ascii.eqb c d.
Proof.
  cbn [String.prefix]. destruct (ascii_dec c d) as [-> | Hne].
  - now rewrite prefix_nil, Ascii.eqb_refl.
  - symmetry. now apply Ascii.eqb_neq.
Qed.

Lemma includes_char_app (c : ascii) (a b : string) :
  JsString.includes (a +++ b) (String c EmptyString)
  = JsString.includes a (String c EmptyString)
    || JsString.includes b (String c EmptyString).
Proof.
  induction a as [| d a IH]; [reflexivity |].
  cbn [String.append JsString.includes]. rewrite !prefix_char, IH.
  now rewrite orb_assoc.
Qed.

Lemma trimStart_suffix (s : string) : Suffix (JsString.trimStart s) s.
Proof.
  induction s as [| c s IH]; [apply Suffix_refl |].
  cbn [JsString.trimStart]. destruct (JsString.isSpace c); [| apply Suffix_refl].
  eapply Suffix_trans; [exact IH | apply Suffix_tail].
Qed.

Lemma trimEnd_prefix (s : string) : exists rest, s = JsString.trimEnd s +++ rest.
Proof.
  induction s as [| c s [rest IH]]; [now exists EmptyString |].
  cbn [JsString.trimEnd]. destruct (JsString.trimEnd s) as [| d kept].
  - destruct (JsString.isSpace c).
    + now exists (String c s).
    + now exists s.
  - exists rest. subst s. reflexivity.
Qed.

(** What is in a trimmed text is in the text. *)
Lemma trim_includes (s w : string) :
  JsString.includes (JsString.trim s) w = true -> JsString.includes s w = true.
Proof.
  unfold JsString.trim. intros H.
  destruct (trimEnd_prefix (JsString.trimStart s)) as [rest Hrest].
  apply (includes_suffix _ _ _ (trimStart_suffix s)).
  rewrite Hrest. now apply includes_append_r.
Qed.

Lemma trim_without (s w : string) :
  JsString.includes s w = false -> JsString.includes (JsString.trim s) w = false.
Proof.
  intros H. destruct (JsString.includes (JsString.trim s) w) eqn:E; [| reflexivity].
  apply trim_includes in E. congruence.
Qed.

(** Without a semicolon no line matches a pattern of the [import ... from]
    forms: what is found comes from a [require] or is a dynamic import. *)
Lemma scanLines_semicolon (lines : list string) :
  Forall (fun line => JsString.includes line ";" = false) lines ->
  forall n multi start,
    JsString.includes multi ";" = false ->
    Forall (fun imp => ImportStatement.type imp = commonjs \/
                       ImportStatement.isDynamic imp = true)
           (scanLines lines n multi start).
Proof.
  induction 1 as [| line more Hline _ IH]; intros n multi start Hmulti;
    [constructor |].
  cbn [scanLines].
  assert (Hjoined : JsString.includes (multi +++ " " +++ JsString.trim line) ";" = false).
  { rewrite !includes_char_app, Hmulti, (trim_without _ _ Hline). reflexivity. }
  destruct (_ || _); [now apply IH |].
  destruct (_ && _); [now apply IH |].
  destruct (_ && _); [now apply IH |].
  destruct (_ && _).
  - rewrite (firstMatch_none ";" _ _ named_requires_semicolon Hjoined).
    now apply IH.
  - rewrite (firstMatch_none ";" _ _ es6_requires_semicolon Hline).
    destruct (firstMatch cjsRequirePatterns line).
    + constructor; [now left | now apply IH].
    + destruct (firstMatch [dynamicImportPattern] line).
      * constructor; [now right | now apply IH].
      * now apply IH.
Qed.

End SemicolonFacts.
(** ** The order of the files *)

Lemma checkTargetDirectory_cases (h : Host) (targetDirectoryPath : string) :
  Matcher.checkTargetDirectory h targetDirectoryPath =
  match statSync h (Path.resolve h [targetDirectoryPath]) with
  | Normal info =>
      if isDirectory info then ret (Path.resolve h [targetDirectoryPath])
      else throw (mkError GenericError
                    ("Target is not a directory: " +++ targetDirectoryPath))
  | Throw e =>
      if isNotFound e then
        throw (mkError NotFound
                 ("Target directory not found: " +++ targetDirectoryPath))
      else throw e
  end.
Proof.
  unfold Matcher.checkTargetDirectory, tryCatch, bind, lift, throw, ret.
  destruct (statSync h (Path.resolve h [targetDirectoryPath])) as [info | e]; cbn.
  - destruct (isDirectory info); reflexivity.
  - destruct (isNotFound e); reflexivity.
Qed.

(** The comparison that ignores soft hyphens is a collation. *)
Lemma ignoringSoftHyphen_collation : Vocabulary.Collation Scenario.ignoringSoftHyphen.
Proof.
  destruct string_compare_collation as [Hanti Htrans].
  unfold Scenario.ignoringSoftHyphen. split.
  - intros a b. apply Hanti.
  - intros a b c. apply Htrans.
Qed.




(** ** Where a statement comes from *)

Section LineFacts.
Import Notions Extractor.

Lemma firstMatch_app (a b : list RegExp.t) (line : string) :
  firstMatch (a ++ b) line =
  match firstMatch a line with
  | Some m => Some m
  | None => firstMatch b line
  end.
Proof.
  induction a as [| p a IH]; [reflexivity |].
  cbn [app firstMatch]. destruct (RegExp.exec p line); [reflexivity | exact IH].
Qed.

Lemma startedAt_later (done : list string) (line multi : string) (start : nat) :
  startedAt done multi start -> startedAt (done ++ [line]) multi start.
Proof.
  intros Hinv Hm. destruct (Hinv Hm) as (opening & Hnth & Hsk & Hop).
  exists opening. split; [| split; assumption].
  rewrite nth_error_app1; [exact Hnth |].
  apply nth_error_Some. congruence.
Qed.

Lemma startedAt_here (done : list string) (line : string) :
  skipped line = false -> opensImport line = true ->
  startedAt (done ++ [line]) line (S (length done)).
Proof.
  intros Hsk Hop _. exists line. split; [| split; assumption].
  replace (S (length done) - 1) with (length done) by lia.
  rewrite nth_error_app2; [| lia]. rewrite Nat.sub_diag. reflexivity.
Qed.

Lemma startedAt_none (done : list string) (start : nat) : startedAt done "" start.
Proof. intros H. discriminate. Qed.

Lemma scanLines_origin (lines : list string) :
  forall done multi start,
    startedAt done multi start ->
    Forall (comesFrom (done ++ lines))
      (scanLines lines (S (length done)) multi start).
Proof.
  induction lines as [| line more IH]; intros done multi start Hinv;
    [constructor |].
  assert (Hstep : forall multi' start',
            startedAt (done ++ [line]) multi' start' ->
            Forall (comesFrom (done ++ line :: more))
              (scanLines more (S (S (length done))) multi' start')).
  { intros multi' start' H. specialize (IH (done ++ [line]) multi' start' H).
    rewrite length_app in IH. cbn [length] in IH. rewrite Nat.add_1_r in IH.
    replace (done ++ line :: more) with ((done ++ [line]) ++ more)
      by (rewrite <- app_assoc; reflexivity).
    exact IH. }
  cbn [scanLines].
  destruct (negb (JsString.truthy (JsString.trim line))
            || JsString.startsWith (JsString.trim line) "//") eqn:Hsk.
  { apply Hstep. now apply startedAt_later. }
  destruct (JsString.includes line "import" && JsString.includes line "{"
            && negb (JsString.includes line "}")) eqn:Hop.
  { apply Hstep. now apply startedAt_here. }
  assert (Hhere : forall imp,
            ImportStatement.lineNumber imp = S (length done) ->
            firstMatch singleLinePatterns line = Some (ImportStatement.module imp) ->
            comesFrom (done ++ line :: more) imp).
  { intros imp Hn Hm. exists line. rewrite Hn.
    replace (S (length done) - 1) with (length done) by lia.
    rewrite nth_error_app2; [| lia]. rewrite Nat.sub_diag.
    split; [reflexivity |]. split; [exact Hsk |]. right. split; assumption. }
  destruct (JsString.truthy multi) eqn:Hm; cbn [andb].
  - destruct (JsString.includes line "from"); cbn [negb].
    + destruct (firstMatch [namedImportPattern] _) as [m |].
      * constructor; [| apply Hstep, startedAt_none].
        destruct (Hinv Hm) as (opening & Hnth & Hsko & Hopo).
        exists opening. cbn [ImportStatement.lineNumber].
        split; [| split; [exact Hsko | left; repeat split; assumption]].
        rewrite nth_error_app1; [exact Hnth |].
        apply nth_error_Some. congruence.
      * apply Hstep, startedAt_none.
    + apply Hstep. intros _. apply (startedAt_later done line multi start Hinv Hm).
  - unfold singleLinePatterns in Hhere.
    destruct (firstMatch es6ImportPatterns line) as [m |] eqn:H1.
    { constructor; [| apply Hstep; now apply startedAt_later].
      apply Hhere; [reflexivity |]. rewrite firstMatch_app, H1. reflexivity. }
    destruct (firstMatch cjsRequirePatterns line) as [m |] eqn:H2.
    { constructor; [| apply Hstep; now apply startedAt_later].
      apply Hhere; [reflexivity |].
      rewrite firstMatch_app, H1, firstMatch_app, H2. reflexivity. }
    destruct (firstMatch [dynamicImportPattern] line) as [m |] eqn:H3.
    { constructor; [| apply Hstep; now apply startedAt_later].
      apply Hhere; [reflexivity |].
      rewrite firstMatch_app, H1, firstMatch_app, H2. exact H3. }
    apply Hstep. now apply startedAt_later.
Qed.

(** The scan of a text from the scan of its first lines. *)
Lemma scanLines_app (pre : list string) :
  forall rest n multi start,
    exists out multi' start',
      scanLines (pre ++ rest) n multi start
      = out ++ scanLines rest (n + length pre) multi' start'.
Proof.
  induction pre as [| line pre IH]; intros rest n multi start.
  - exists [], multi, start. rewrite Nat.add_0_r. reflexivity.
  - cbn [app length scanLines].
    repeat match goal with
           | |- context [if ?c then _ else _] => destruct c
           | |- context [match firstMatch ?p ?l with _ => _ end] =>
               destruct (firstMatch p l)
           end;
      match goal with
      | |- exists _ _ _, ?stmt :: scanLines _ _ ?M ?S0 = _ =>
          destruct (IH rest (S n) M S0) as (out & m' & s' & ->);
          exists (stmt :: out), m', s'; rewrite Nat.add_succ_r; reflexivity
      | |- exists _ _ _, scanLines _ _ ?M ?S0 = _ =>
          destruct (IH rest (S n) M S0) as (out & m' & s' & ->);
          exists out, m', s'; rewrite Nat.add_succ_r; reflexivity
      end.
Qed.

(** A line that opens an import starts the gathering, whatever was
    gathered before. *)
Lemma scanLines_open (opening : string) (rest : list string) (n : nat)
    (multi : string) (start : nat) :
  skipped opening = false -> opensImport opening = true ->
  scanLines (opening :: rest) n multi start = scanLines rest (S n) opening n.
Proof.
  unfold skipped, opensImport. intros Hsk Hop.
  cbn [scanLines]. rewrite Hsk, Hop. reflexivity.
Qed.

(** The lines inside the import are gathered. *)
Lemma scanLines_gather (middle : list string) :
  forall rest n multi start,
    JsString.truthy multi = true ->
    Forall (fun line => goesOn line = true) middle ->
    scanLines (middle ++ rest) n multi start
    = scanLines rest (n + length middle) (gathered multi middle) start.
Proof.
  induction middle as [| line middle IH]; intros rest n multi start Hm Hall.
  - cbn [app length gathered fold_left]. rewrite Nat.add_0_r. reflexivity.
  - inversion Hall as [| ? ? Hline Hall']; subst.
    cbn [app length scanLines]. unfold gathered. cbn [fold_left].
    fold (gathered (if skipped line then multi
                    else multi +++ " " +++ JsString.trim line) middle).
    rewrite Nat.add_succ_r. unfold goesOn in Hline.
    change (negb (JsString.truthy (JsString.trim line))
            || JsString.startsWith (JsString.trim line) "//")
      with (skipped line).
    destruct (skipped line); [now apply IH |].
    cbn [orb] in Hline. apply andb_true_iff in Hline as [Hop Hfrom].
    apply negb_true_iff in Hop. unfold opensImport in Hop. rewrite Hop.
    rewrite Hm. cbn [andb]. rewrite Hfrom.
    apply IH; [| exact Hall']. now apply truthy_append.
Qed.

(** The line with [from] closes the import: the gathered text is matched
    and the statement carries the line the gathering started at. *)
Lemma scanLines_close (closing : string) (rest : list string) (n : nat)
    (multi : string) (start : nat) (m : string) :
  skipped closing = false -> opensImport closing = false ->
  JsString.truthy multi = true ->
  JsString.includes closing "from" = true ->
  firstMatch [namedImportPattern] (multi +++ " " +++ JsString.trim closing) = Some m ->
  scanLines (closing :: rest) n multi start
  = ImportStatement.mk es6 m false start :: scanLines rest (S n) "" start.
Proof.
  unfold skipped, opensImport. intros Hsk Hop Hm Hfrom Hmatch.
  cbn [scanLines]. rewrite Hsk, Hop, Hm, Hfrom. cbn [andb negb].
  rewrite Hmatch. reflexivity.
Qed.

(** An import over several lines is reported at its first line. *)
Lemma scanLines_several_lines (pre middle post : list string)
    (opening closing m : string) :
  skipped opening = false -> opensImport opening = true ->
  Forall (fun line => goesOn line = true) middle ->
  skipped closing = false -> opensImport closing = false ->
  JsString.includes closing "from" = true ->
  firstMatch [namedImportPattern]
    (gathered opening middle +++ " " +++ JsString.trim closing) = Some m ->
  In (ImportStatement.mk es6 m false (S (length pre)))
     (scanLines (pre ++ opening :: middle ++ closing :: post) 1 "" 0).
Proof.
  intros Hsk Hop Hmid Hskc Hopc Hfrom Hmatch.
  destruct (scanLines_app pre (opening :: middle ++ closing :: post) 1 "" 0)
    as (out & multi' & start' & ->).
  apply in_or_app. right. cbn [Nat.add].
  rewrite (scanLines_open _ _ _ _ _ Hsk Hop).
  assert (Htruthy : JsString.truthy opening = true).
  { apply truthy_trim. unfold skipped in Hsk.
    apply orb_false_iff in Hsk as [Hsk _]. now apply negb_false_iff in Hsk. }
  rewrite (scanLines_gather middle _ _ _ _ Htruthy Hmid).
  assert (Hgathered : JsString.truthy (gathered opening middle) = true).
  { clear - Htruthy. revert opening Htruthy.
    induction middle as [| line middle IH]; intros opening Htruthy; [exact Htruthy |].
    unfold gathered. cbn [fold_left]. apply IH.
    destruct (skipped line); [exact Htruthy | now apply truthy_append]. }
  rewrite (scanLines_close _ _ _ _ _ m Hskc Hopc Hgathered Hfrom Hmatch).
  now left.
Qed.

End LineFacts.

(** ** What [parseImports] returns and how it fails *)

Lemma sorted_bounded_length (l : list nat) :
  forall lo hi,
    StronglySorted lt l -> Forall (fun k => lo <= k /\ k < hi) l ->
    length l <= hi - lo.
Proof.
  induction l as [| x l IH]; intros lo hi Hs Hb; cbn [length]; [lia |].
  inversion Hs as [| ? ? Hs' Hx]; subst. inversion Hb as [| ? ? [Hlo Hhi] Hb']; subst.
  assert (Hb2 : Forall (fun k => S x <= k /\ k < hi) l).
  { apply Forall_forall. intros k Hk.
    pose proof (proj1 (Forall_forall _ _) Hx k Hk).
    pose proof (proj1 (Forall_forall _ _) Hb' k Hk). cbv beta in *. lia. }
  specialize (IH (S x) hi Hs' Hb2). lia.
Qed.

(** X1.  The statements [parseImports] returns follow the lines of the
    text: their line numbers increase strictly and each one is the number
    of a line of the file, counted from 1, so no line gives two
    statements; the line of a statement is not blank nor a comment, and
    either it opens an import that goes on below ([import] and [{]
    without [}]), the statement being a static import, or it is matched
    on its own by one of the patterns for single lines, with the
    specifier of the statement.  An import that spans several lines is
    reported at the line it starts on: when a line that opens an import
    is followed by lines that are left out or have neither [from] nor
    another opening, and then by a line with [from], not left out and
    not opening, and the gathered text matches the pattern for named
    imports, the result holds a static import with the matched
    specifier at the number of the opening line. *)
Theorem parseImports_line_numbers (h : Host) (filePath : string)
    (imports : list ImportStatement.t) (log : list LogEntry) :
  Extractor.parseImports h filePath = (Normal imports, log) ->
  exists content,
    readTextFile h filePath = Normal content /\
    StronglySorted lt (Notions.lineNumbers imports) /\
    Forall (fun n => 1 <= n <= length (JsString.split "010" content))
           (Notions.lineNumbers imports) /\
    length imports <= length (JsString.split "010" content) /\
    Forall (Notions.comesFrom (JsString.split "010" content)) imports /\
    (forall pre opening middle closing post m,
       JsString.split "010" content = pre ++ opening :: middle ++ closing :: post ->
       Notions.skipped opening = false -> Notions.opensImport opening = true ->
       Forall (fun line => Notions.goesOn line = true) middle ->
       Notions.skipped closing = false -> Notions.opensImport closing = false ->
       JsString.includes closing "from" = true ->
       Extractor.firstMatch [Extractor.namedImportPattern]
         (Notions.gathered opening middle +++ " " +++ JsString.trim closing)
       = Some m ->
       In (ImportStatement.mk es6 m false (S (length pre))) imports).
Proof.
  rewrite parseImports_cases.
  destruct (existsSync h filePath) as [[|] | e]; [| discriminate | discriminate].
  destruct (readTextFile h filePath) as [content | e]; [| discriminate].
  intros H. injection H as <- _. exists content. split; [reflexivity |].
  destruct (scanLines_lineNumbers (JsString.split "010" content) 1 "" 0) as [Hs Hb];
    [discriminate |].
  cbn [JsString.truthy] in Hb. split; [exact Hs |]. split; [| split; [| split]].
  - revert Hb. apply Forall_impl. intros k [? ?]. lia.
  - pose proof (sorted_bounded_length _ _ _ Hs Hb) as Hlen.
    unfold Notions.lineNumbers in Hlen. rewrite length_map in Hlen. lia.
  - apply (scanLines_origin (JsString.split "010" content) [] "" 0).
    apply startedAt_none.
  - intros pre opening middle closing post m -> Hsk Hop Hmid Hskc Hopc Hfrom Hmatch.
    now apply scanLines_several_lines.
Qed.

(** The import of [main.ts] that spans lines 1 to 4 is reported at line 1,
    the [require] at line 5, of the six pieces the text splits into; the
    first is there because line 1 opens an import, lines 2 and 3 go on
    and line 4 closes it. *)
Lemma parseImports_line_numbers_witness :
  Extractor.parseImports Scenario.multiLine "/r/main.ts"
  = (Normal [ImportStatement.mk es6 "./lib/x.ts" false 1;
             ImportStatement.mk commonjs "./lib/y" false 5], []) /\
  exists content,
    readTextFile Scenario.multiLine "/r/main.ts" = Normal content /\
    StronglySorted lt [1; 5] /\
    Forall (fun n => 1 <= n <= length (JsString.split "010" content)) [1; 5] /\
    2 <= length (JsString.split "010" content) /\
    Forall (Notions.comesFrom (JsString.split "010" content))
      [ImportStatement.mk es6 "./lib/x.ts" false 1;
       ImportStatement.mk commonjs "./lib/y" false 5] /\
    In (ImportStatement.mk es6 "./lib/x.ts" false 1)
       [ImportStatement.mk es6 "./lib/x.ts" false 1;
        ImportStatement.mk commonjs "./lib/y" false 5].
Proof.
  assert (Hrun : Extractor.parseImports Scenario.multiLine "/r/main.ts"
                 = (Normal [ImportStatement.mk es6 "./lib/x.ts" false 1;
                            ImportStatement.mk commonjs "./lib/y" false 5], []))
    by (vm_compute; reflexivity).
  split; [exact Hrun |].
  destruct (parseImports_line_numbers Scenario.multiLine "/r/main.ts" _ _ Hrun)
    as (content & Hread & Hsorted & Hbounds & Hlen & Hfrom & Hseveral).
  exists content. repeat (split; [assumption |]).
  vm_compute in Hread. injection Hread as <-.
  apply (Hseveral [] "import {" ["  a,"; "  b"] "} from './lib/x.ts';"
           ["const y = require('./lib/y');"; ""] "./lib/x.ts");
    try (vm_compute; reflexivity).
  repeat constructor.
Defined.

(** X2.  A file that can be read and whose text holds neither [import]
    nor [require(] has no import statement: [parseImports] returns the
    empty list. *)
Theorem parseImports_without_keywords (h : Host) (filePath content : string) :
  existsSync h filePath = Normal true ->
  readTextFile h filePath = Normal content ->
  JsString.includes content "import" = false ->
  JsString.includes content "require(" = false ->
  Extractor.parseImports h filePath = (Normal [], []).
Proof.
  intros Hexists Hread Himport Hrequire.
  rewrite parseImports_cases, Hexists, Hread. unfold ret.
  rewrite scanLines_nothing; [reflexivity |].
  pose proof (split_includes "010" content _ Himport) as H1.
  pose proof (split_includes "010" content _ Hrequire) as H2.
  apply Forall_forall. intros line Hline. split.
  - exact (proj1 (Forall_forall _ _) H1 line Hline).
  - exact (proj1 (Forall_forall _ _) H2 line Hline).
Qed.

(** [button.tsx] of the fixture tree only exports. *)
Lemma parseImports_without_keywords_witness :
  Extractor.parseImports Sample.fixtures "/r/button.tsx" = (Normal [], []).
Proof.
  apply (parseImports_without_keywords Sample.fixtures "/r/button.tsx"
           ("export default function Button() {}" +++ Sample.newline));
    reflexivity.
Defined.

(** X3.  [parseImports] writes nothing to the console, and it fails in
    three ways only: with the [NotFound] it raises itself when the file
    does not exist, with the [NotFound] of the read when the file
    disappears in between, and, for every other cause, with a plain error
    whose message is [Error parsing imports in], the path, a colon and the
    message of the cause; the class of that cause is lost. *)
Theorem parseImports_failures (h : Host) (filePath : string) :
  snd (Extractor.parseImports h filePath) = [] /\
  forall e, fst (Extractor.parseImports h filePath) = Throw e ->
    (existsSync h filePath = Normal false /\
     e = mkError NotFound ("File not found: " +++ filePath)) \/
    (existsSync h filePath = Normal true /\
     readTextFile h filePath = Throw e /\ isNotFound e = true) \/
    (exists cause,
       (existsSync h filePath = Throw cause \/
        existsSync h filePath = Normal true /\ readTextFile h filePath = Throw cause) /\
       isNotFound cause = false /\
       e = mkError GenericError
             ("Error parsing imports in " +++ filePath +++ ": " +++ message cause)).
Proof.
  rewrite parseImports_cases.
  destruct (existsSync h filePath) as [[|] | cause] eqn:Hexists.
  - destruct (readTextFile h filePath) as [content | cause] eqn:Hread;
      (split; [reflexivity |]); cbn [fst throw ret]; intros e He; [discriminate |].
    injection He as <-. destruct (isNotFound cause) eqn:Hnf.
    + right. left. split; [reflexivity | split; [reflexivity | exact Hnf]].
    + right. right. exists cause. split; [right; split; reflexivity |].
      split; [exact Hnf | reflexivity].
  - split; [reflexivity |]. cbn [fst throw]. intros e He. injection He as <-.
    left. split; reflexivity.
  - split; [reflexivity |]. cbn [fst throw]. intros e He. injection He as <-.
    assert (Hnf : isNotFound cause = false).
    { unfold existsSync in Hexists. destruct (statSync h filePath) as [info | e0];
        [discriminate |].
      destruct (isNotFound e0) eqn:E0; [discriminate |].
      destruct (isPermissionDenied e0 && readGranted h filePath); [discriminate |].
      injection Hexists as <-. exact E0. }
    rewrite Hnf. right. right. exists cause. split; [left; reflexivity |].
    split; [exact Hnf | reflexivity].
Qed.

(** The read of [unreadable.ts] is refused: the error that comes out is
    a plain one. *)
Lemma parseImports_failures_witness :
  readTextFile Sample.faulty "/r/unreadable.ts"
  = Throw (mkError PermissionDenied "Permission denied (os error 13)") /\
  exists cause,
    isNotFound cause = false /\
    mkError GenericError
      "Error parsing imports in /r/unreadable.ts: Permission denied (os error 13)"
    = mkError GenericError
        ("Error parsing imports in " +++ "/r/unreadable.ts" +++ ": " +++ message cause).
Proof.
  split; [reflexivity |].
  destruct (proj2 (parseImports_failures Sample.faulty "/r/unreadable.ts")
              (mkError GenericError
                 "Error parsing imports in /r/unreadable.ts: Permission denied (os error 13)")
              eq_refl)
    as [[Hex _] | [(_ & Hread & _) | (cause & _ & Hnf & Heq)]].
  - discriminate Hex.
  - discriminate Hread.
  - exists cause. split; [exact Hnf | exact Heq].
Defined.

(** X4.  The patterns for [import ... from] and for [import] of a bare
    path all end with a semicolon: in a text without semicolon no such
    statement is found, and every statement [parseImports] returns is
    either a [require] or a dynamic import, which the search skips. *)
Theorem static_imports_need_a_semicolon (h : Host) (filePath content : string)
    (imports : list ImportStatement.t) (log : list LogEntry) :
  readTextFile h filePath = Normal content ->
  JsString.includes content ";" = false ->
  Extractor.parseImports h filePath = (Normal imports, log) ->
  Forall (fun imp => ImportStatement.type imp = commonjs \/
                     ImportStatement.isDynamic imp = true) imports.
Proof.
  intros Hread Hsemi. rewrite parseImports_cases, Hread.
  destruct (existsSync h filePath) as [[|] | e]; [| discriminate | discriminate].
  intros [= <- _]. apply scanLines_semicolon; [| reflexivity].
  apply split_includes. exact Hsemi.
Qed.

(** The import of [button.tsx] written without semicolon is not seen. *)
Lemma static_imports_need_a_semicolon_witness :
  Extractor.parseImports Scenario.noSemicolon "/r/component1.tsx" = (Normal [], []) /\
  Forall (fun imp => ImportStatement.type imp = commonjs \/
                     ImportStatement.isDynamic imp = true) [].
Proof.
  split; [reflexivity |].
  apply (static_imports_need_a_semicolon Scenario.noSemicolon "/r/component1.tsx"
           ("import Button from './button.tsx'" +++ Sample.newline) [] []);
    reflexivity.
Defined.

(** ** What [findImporters] reports *)

(** X5.  Every match [findImporters] reports is backed by the file it
    names: the file parses, one of its static statements has the reported
    specifier and line, [resolveImportPath] gives the reported path for
    it, and that path, made absolute, is the target, or starts with it
    when the target is a directory. *)
Theorem findImporters_sound (h : Host) (targetFilePath : string)
    (files : list string) (rootPath : string)
    (importers : list ResolvedImport.t) (log : list LogEntry) :
  Matcher.findImporters h targetFilePath files rootPath = (Normal importers, log) ->
  exists normalized isDir,
    fst (Matcher.normalizeTarget h targetFilePath) = Normal (normalized, isDir) /\
    forall r, In r importers ->
      exists imports imp,
        fst (Extractor.parseImports h (ResolvedImport.sourceFile r)) = Normal imports /\
        In imp imports /\
        ImportStatement.isDynamic imp = false /\
        ImportStatement.module imp = ResolvedImport.importPath r /\
        ImportStatement.lineNumber imp = ResolvedImport.lineNumber r /\
        fst (Resolver.resolveImportPath h (ResolvedImport.sourceFile r)
               (ResolvedImport.importPath r)
               (Vocabulary.loadedImportMap h rootPath)
               (Vocabulary.loadedTsConfig h rootPath))
        = Normal (Some (ResolvedImport.resolvedPath r)) /\
        Matcher.hitsTarget isDir normalized
          (Path.resolve h [ResolvedImport.resolvedPath r]) = true.
Proof.
  destruct (findImporters_unfold h targetFilePath files rootPath) as [configLog ->].
  destruct (Matcher.normalizeTarget h targetFilePath) as [[[normalized isDir] | e] log0];
    [| discriminate].
  cbn [fst snd]. intros [= <- _]. exists normalized, isDir. split; [reflexivity |].
  intros r Hin. apply in_flat_map in Hin as (f & _ & Hin).
  apply scanFile_In in Hin
    as (_ & _ & imports & imp & p & Hparse & Himp & Hdyn & Hres & _ & Hsel).
  unfold Matcher.selectImporter in Hsel.
  destruct (Matcher.hitsTarget isDir normalized (Path.resolve h [p])) eqn:Hhit;
    [| discriminate].
  injection Hsel as <-. cbn [ResolvedImport.sourceFile ResolvedImport.importPath
    ResolvedImport.lineNumber ResolvedImport.resolvedPath].
  exists imports, imp. repeat split; assumption.
Qed.

(** The match of the fixture tree: the statement at line 1 of
    [component1.tsx]. *)
Lemma findImporters_sound_witness :
  exists imports imp,
    fst (Extractor.parseImports Sample.fixtures "/r/component1.tsx") = Normal imports /\
    In imp imports /\
    ImportStatement.isDynamic imp = false /\
    ImportStatement.module imp = "./button.tsx" /\
    ImportStatement.lineNumber imp = 1 /\
    fst (Resolver.resolveImportPath Sample.fixtures "/r/component1.tsx" "./button.tsx"
           (Vocabulary.loadedImportMap Sample.fixtures "/r")
           (Vocabulary.loadedTsConfig Sample.fixtures "/r"))
    = Normal (Some "/r/button.tsx") /\
    Matcher.hitsTarget false "/r/button.tsx"
      (Path.resolve Sample.fixtures ["/r/button.tsx"]) = true.
Proof.
  destruct (findImporters_sound Sample.fixtures "/r/button.tsx"
              ["/r/component1.tsx"; "/r/button.tsx"] "/r"
              [ResolvedImport.mk "/r/component1.tsx" "./button.tsx" "/r/button.tsx" 1]
              [] eq_refl)
    as (normalized & isDir & Hn & Hall).
  vm_compute in Hn. injection Hn as <- <-.
  exact (Hall _ (or_introl eq_refl)).
Defined.

(** X6.  Nothing is missed: a static statement of a listed file that
    exists, parses and is not the target itself is reported, with its
    specifier, its line and the resolved path, as soon as its specifier
    resolves to a non-empty path that is the target, or starts with it
    when the target is a directory. *)
Theorem findImporters_complete (h : Host) (targetFilePath : string)
    (files : list string) (rootPath : string) (normalized : string) (isDir : bool)
    (filePath : string) (imports : list ImportStatement.t)
    (imp : ImportStatement.t) (p : string) :
  fst (Matcher.normalizeTarget h targetFilePath) = Normal (normalized, isDir) ->
  In filePath files ->
  Matcher.hitsTarget isDir normalized (Path.resolve h [filePath]) = false ->
  existsSync h filePath = Normal true ->
  fst (Extractor.parseImports h filePath) = Normal imports ->
  In imp imports ->
  ImportStatement.isDynamic imp = false ->
  fst (Resolver.resolveImportPath h filePath (ImportStatement.module imp)
         (Vocabulary.loadedImportMap h rootPath)
         (Vocabulary.loadedTsConfig h rootPath)) = Normal (Some p) ->
  JsString.truthy p = true ->
  Matcher.hitsTarget isDir normalized (Path.resolve h [p]) = true ->
  exists importers,
    fst (Matcher.findImporters h targetFilePath files rootPath) = Normal importers /\
    In (ResolvedImport.mk filePath (ImportStatement.module imp) p
          (ImportStatement.lineNumber imp)) importers.
Proof.
  intros Hn Hfile Hskip Hexists Hparse Himp Hdyn Hres Htruthy Hhit.
  destruct (findImporters_unfold h targetFilePath files rootPath) as [configLog ->].
  destruct (Matcher.normalizeTarget h targetFilePath) as [[target | e] log0];
    [| discriminate].
  cbn [fst] in Hn. injection Hn as ->. cbn [fst snd].
  eexists. split; [reflexivity |].
  apply in_flat_map. exists filePath. split; [exact Hfile |].
  apply scanFile_In. split; [exact Hskip |]. split; [exact Hexists |].
  exists imports, imp, p. repeat split; try assumption.
  unfold Matcher.selectImporter. rewrite Hhit. reflexivity.
Qed.

(** The [require] of [a.ts] in the tree [library], for the target
    [/r/lib/x.ts]: the specifier has no extension. *)
Lemma findImporters_complete_witness :
  exists importers,
    fst (Matcher.findImporters Sample.library "/r/lib/x.ts"
           ["/r/b.ts"; "/r/a.ts"] "/r") = Normal importers /\
    In (ResolvedImport.mk "/r/a.ts" "./lib/x" "/r/lib/x.ts" 1) importers.
Proof.
  apply (findImporters_complete Sample.library "/r/lib/x.ts"
           ["/r/b.ts"; "/r/a.ts"] "/r" "/r/lib/x.ts" false "/r/a.ts"
           [ImportStatement.mk commonjs "./lib/x" false 1]
           (ImportStatement.mk commonjs "./lib/x" false 1) "/r/lib/x.ts");
    try (vm_compute; reflexivity).
  - right. left. reflexivity.
  - left. reflexivity.
Defined.

(** X7.  The files are looked at one by one and in order: the matches of
    a list of files are the matches of its first part followed by the
    matches of the rest. *)
Theorem findImporters_app (h : Host) (targetFilePath : string)
    (files1 files2 : list string) (rootPath : string)
    (importers1 importers2 : list ResolvedImport.t) :
  fst (Matcher.findImporters h targetFilePath files1 rootPath) = Normal importers1 ->
  fst (Matcher.findImporters h targetFilePath files2 rootPath) = Normal importers2 ->
  fst (Matcher.findImporters h targetFilePath (files1 ++ files2) rootPath)
  = Normal (importers1 ++ importers2).
Proof.
  destruct (findImporters_unfold h targetFilePath files1 rootPath) as [log1 ->].
  destruct (findImporters_unfold h targetFilePath files2 rootPath) as [log2 ->].
  destruct (findImporters_unfold h targetFilePath (files1 ++ files2) rootPath)
    as [log3 ->].
  destruct (Matcher.normalizeTarget h targetFilePath) as [[target | e] log0];
    [| discriminate].
  cbn [fst]. intros [= <-] [= <-]. now rewrite flat_map_app.
Qed.

(** The two importers of [/r/lib] in the tree [library], one file each. *)
Lemma findImporters_app_witness :
  fst (Matcher.findImporters Sample.library "/r/lib" (["/r/b.ts"] ++ ["/r/a.ts"]) "/r")
  = Normal ([ResolvedImport.mk "/r/b.ts" "./lib/y.ts" "/r/lib/y.ts" 1;
             ResolvedImport.mk "/r/b.ts" "./lib/x.ts" "/r/lib/x.ts" 2]
            ++ [ResolvedImport.mk "/r/a.ts" "./lib/x" "/r/lib/x.ts" 1]).
Proof.
  apply (findImporters_app Sample.library "/r/lib" ["/r/b.ts"] ["/r/a.ts"] "/r");
    vm_compute; reflexivity.
Defined.



(** ** Configuration that does not load *)

Lemma loadOrWarn_throw {A} (load : M (option A)) (label : string)
    (e : JsError) (log : list LogEntry) :
  load = (Throw e, log) ->
  Matcher.loadOrWarn load label = (None, log ++ [ConsoleWarn [label; message e]]).
Proof. intros ->. reflexivity. Qed.



(** ** The result for a directory *)



(** X11.  In the result for a directory no two groups have the same
    referenced path, no group is empty, and [count] is the number of
    importers over all the groups; so [count] is zero exactly when there
    is no group. *)
Theorem directory_result_invariants (h : Host) (targetDirectoryPath : string)
    (files : list string) (rootPath : string) (result : DirectoryImporterResult.t) :
  fst (Matcher.findDirectoryImporters h targetDirectoryPath files rootPath)
  = Normal result ->
  DirectoryImporterResult.target result = targetDirectoryPath /\
  DirectoryImporterResult.root result = rootPath /\
  NoDup (map ImportGroup.importedFile (DirectoryImporterResult.groups result)) /\
  Forall (fun g => ImportGroup.importers g <> [])
         (DirectoryImporterResult.groups result) /\
  DirectoryImporterResult.count result
  = length (flat_map ImportGroup.importers (DirectoryImporterResult.groups result)) /\
  (DirectoryImporterResult.count result = 0 <->
   DirectoryImporterResult.groups result = []).
Proof.
  destruct (findDirectoryImporters_unfold h targetDirectoryPath files rootPath)
    as [configLog ->].
  destruct (Matcher.checkTargetDirectory h targetDirectoryPath)
    as [[normalized | e] log]; [| discriminate].
  cbn [fst]. intros [= <-].
  cbn [DirectoryImporterResult.target DirectoryImporterResult.root
       DirectoryImporterResult.groups DirectoryImporterResult.count].
  set (pushed := flat_map _ files).
  destruct (collectGroups_invariant pushed) as (Hnd & Hne & _).
  destruct (sortedGroups_invariant h _ Hnd Hne) as (Hkeys & Hfull & _).
  repeat (split; [first [reflexivity | assumption | apply countImporters_sum] |]).
  rewrite countImporters_sum. split.
  - intros Hzero. destruct (Matcher.sortedGroups h _) as [| g groups]; [reflexivity |].
    inversion Hfull as [| ? ? Hg _]; subst. cbn [flat_map] in Hzero.
    rewrite length_app in Hzero. destruct (ImportGroup.importers g); [contradiction |].
    cbn [length] in Hzero. lia.
  - intros ->. reflexivity.
Qed.

(** The two groups of the tree [library]. *)
Lemma directory_result_invariants_witness :
  exists result,
    fst (Matcher.findDirectoryImporters Sample.library "/r/lib"
           ["/r/b.ts"; "/r/a.ts"] "/r") = Normal result /\
    map ImportGroup.importedFile (DirectoryImporterResult.groups result)
    = ["x.ts"; "y.ts"] /\
    DirectoryImporterResult.count result = 3 /\
    NoDup (map ImportGroup.importedFile (DirectoryImporterResult.groups result)).
Proof.
  eexists. split; [vm_compute; reflexivity |].
  split; [reflexivity |]. split; [reflexivity |].
  eapply (directory_result_invariants Sample.library "/r/lib"
            ["/r/b.ts"; "/r/a.ts"] "/r").
  vm_compute. reflexivity.
Defined.

Lemma flat_map_map {A B C} (f : A -> list B) (g : B -> C) (l : list A) :
  map g (flat_map f l) = flat_map (fun a => map g (f a)) l.
Proof.
  induction l as [| a l IH]; [reflexivity |].
  cbn [flat_map]. now rewrite map_app, IH.
Qed.

(** X12.  For a target that is a directory the two entry points see the
    same imports: the importers in the groups of
    [findDirectoryImporters], each with the referenced path of its
    group, are the matches of [findImporters] rearranged, each under its
    resolved path taken relative to the target, and [count] is the number
    of matches. *)
Theorem directory_result_regroups_matches (h : Host) (targetDirectoryPath : string)
    (files : list string) (rootPath : string) (result : DirectoryImporterResult.t) :
  fst (Matcher.findDirectoryImporters h targetDirectoryPath files rootPath)
  = Normal result ->
  exists importers,
    fst (Matcher.findImporters h targetDirectoryPath files rootPath)
    = Normal importers /\
    Permutation
      (Notions.entries (DirectoryImporterResult.groups result))
      (map (fun r => (Path.relative h (Path.resolve h [targetDirectoryPath])
                        (ResolvedImport.resolvedPath r),
                      Notions.toImporter r)) importers) /\
    DirectoryImporterResult.count result = length importers.
Proof.
  destruct (findDirectoryImporters_unfold h targetDirectoryPath files rootPath)
    as [configLog ->].
  destruct (findImporters_unfold h targetDirectoryPath files rootPath)
    as [configLog' ->].
  rewrite checkTargetDirectory_cases. unfold Matcher.normalizeTarget.
  destruct (statSync h (Path.resolve h [targetDirectoryPath])) as [info | e];
    [| destruct (isNotFound e); discriminate].
  destruct (isDirectory info); [| discriminate].
  cbn [negb ret fst snd]. intros [= <-]. cbn [DirectoryImporterResult.groups
    DirectoryImporterResult.count].
  set (T := Path.resolve h [targetDirectoryPath]).
  set (view := fun r => (Path.relative h T (ResolvedImport.resolvedPath r),
                         Notions.toImporter r)).
  eexists. split; [reflexivity |].
  assert (Hsame :
    flat_map (fun f => fst (Matcher.processDirectoryFile h T
                              (Vocabulary.loadedImportMap h rootPath)
                              (Vocabulary.loadedTsConfig h rootPath) f)) files
    = map view
        (flat_map (fun f => fst (Matcher.processFile h true T
                                   (Vocabulary.loadedImportMap h rootPath)
                                   (Vocabulary.loadedTsConfig h rootPath) f)) files)).
  { rewrite flat_map_map. apply flat_map_ext. intros f.
    unfold Matcher.processDirectoryFile, Matcher.processFile.
    rewrite <- (map_id (fst (Matcher.guarded f
      (Matcher.scanFile h _ _ (fun path => JsString.startsWith path T)
         (Matcher.selectGrouped h T f) f)))).
    apply (scanFile_map h).
    intros imp p. unfold Matcher.selectGrouped, Matcher.selectImporter.
    cbn [Matcher.hitsTarget].
    destruct (JsString.startsWith (Path.resolve h [p]) T); reflexivity. }
  rewrite Hsame.
  set (matches := flat_map _ files).
  destruct (collectGroups_invariant (map view matches)) as (Hnd & Hne & Hperm).
  destruct (sortedGroups_invariant h _ Hnd Hne) as (_ & _ & Hentries).
  split.
  - rewrite Hentries. exact Hperm.
  - rewrite countImporters_sum, <- entries_length.
    rewrite (Permutation_length Hentries), (Permutation_length Hperm).
    apply length_map.
Qed.

(** The three matches of the tree [library], grouped. *)
Lemma directory_result_regroups_matches_witness :
  exists result importers,
    fst (Matcher.findDirectoryImporters Sample.library "/r/lib"
           ["/r/b.ts"; "/r/a.ts"] "/r") = Normal result /\
    fst (Matcher.findImporters Sample.library "/r/lib" ["/r/b.ts"; "/r/a.ts"] "/r")
    = Normal importers /\
    Permutation
      (Notions.entries (DirectoryImporterResult.groups result))
      (map (fun r => (Path.relative Sample.library
                        (Path.resolve Sample.library ["/r/lib"])
                        (ResolvedImport.resolvedPath r),
                      Notions.toImporter r)) importers) /\
    DirectoryImporterResult.count result = length importers.
Proof.
  eexists.
  destruct (directory_result_regroups_matches Sample.library "/r/lib"
              ["/r/b.ts"; "/r/a.ts"] "/r" _ eq_refl) as (importers & H1 & H2 & H3).
  exists importers. split; [reflexivity |]. split; [exact H1 |].
  split; [exact H2 | exact H3].
Defined.

(** ** What [resolveImportPath] answers *)

(** X13.  The extension the resolver strips before it tries its own is
    the last piece of the path that starts with a dot and has no further
    dot and no separator in it: a path that ends so has an extension, and
    its base is what stands before that dot; a path has an extension only
    if it ends so; and a path without extension is its own base. *)
Theorem extension_is_the_last_dotted_piece :
  (forall p e, Notions.isExtensionName e = true ->
     Resolver.hasExtension (p +++ "." +++ e) = true /\
     Resolver.extensionBase (p +++ "." +++ e) = p) /\
  (forall s, Resolver.hasExtension s = true ->
     exists p e, s = p +++ "." +++ e /\ Notions.isExtensionName e = true) /\
  (forall s, Resolver.hasExtension s = false -> Resolver.extensionBase s = s).
Proof.
  split; [| split].
  - intros p e He.
    assert (Htest : Resolver.hasExtension (p +++ "." +++ e) = true).
    { unfold Resolver.hasExtension, RegExp.test, RegExp.exec.
      cbn [RegExp.anchored Resolver.extensionPattern].
      change (p +++ "." +++ e) with (p +++ String "." e).
      change (RegExp.seqs _) with (RegExp.body Resolver.extensionPattern).
      now rewrite (search_extension e He p 0). }
    split; [exact Htest |].
    unfold Resolver.extensionBase. rewrite Htest.
    unfold RegExp.remove, RegExp.exec.
    cbn [RegExp.anchored Resolver.extensionPattern].
    change (p +++ "." +++ e) with (p +++ String "." e).
    change (RegExp.seqs _) with (RegExp.body Resolver.extensionPattern).
    rewrite (search_extension e He p 0). cbn [RegExp.index RegExp.rest Nat.add].
    rewrite substring_prefix. apply append_empty_r.
  - intros s. unfold Resolver.hasExtension, RegExp.test, RegExp.exec.
    cbn [RegExp.anchored Resolver.extensionPattern].
    change (RegExp.seqs _) with (RegExp.body Resolver.extensionPattern).
    destruct (RegExp.search _ 0 s) as [m |] eqn:E; [| discriminate].
    intros _. exact (search_extension_inv s 0 m E).
  - intros s Hs. unfold Resolver.extensionBase. now rewrite Hs.
Qed.



(** X15.  When no alias answers a relative specifier, there are three
    kinds of answer only: the resolved path itself; the base of the
    resolved path with one of the six extensions, when nothing is at the
    resolved path and something exists under that extension; and [null],
    with one error line on the console, when a probe failed.  An index
    file of a directory is none of them. *)
Theorem relative_answer_shape (h : Host) (importerPath importPath : string)
    (importMap : option ImportMap) (tsConfig : option TsConfig)
    (r : Completion (option string)) (log : list LogEntry) :
  let resolved := Path.resolve h [Path.dirname importerPath; importPath] in
  Resolver.isRelative importPath = true ->
  Resolver.resolveWithImportMap h importerPath importPath importMap = ret None ->
  Resolver.resolveWithTsConfig h importerPath importPath tsConfig = ret None ->
  Resolver.resolveImportPath h importerPath importPath importMap tsConfig = (r, log) ->
  (r = Normal (Some resolved) /\ log = []) \/
  (exists ext,
     In ext Resolver.extensions /\
     r = Normal (Some (Resolver.extensionBase resolved +++ ext)) /\ log = [] /\
     existsSync h resolved = Normal false /\
     existsSync h (Resolver.extensionBase resolved +++ ext) = Normal true) \/
  (exists e,
     r = Normal None /\
     log = [ConsoleError ("Error resolving import path '" +++ importPath
                          +++ "' in '" +++ importerPath +++ "':") e]).
Proof.
  intros resolved Hrel Him Hts.
  unfold Resolver.resolveImportPath, Resolver.resolveImportPathBody.
  rewrite Him, bind_ret, Hts, bind_ret, Hrel.
  destruct (existsSync h resolved) as [[|] | e] eqn:Hex.
  - unfold Resolver.resolveRelative. fold resolved. rewrite Hex, bind_lift_normal.
    cbn. intros [= <- <-]. left. split; reflexivity.
  - rewrite (resolveRelative_missing h importerPath importPath Hex). fold resolved.
    destruct (Resolver.firstExisting h _ Resolver.extensions)
      as [[[p |] | e] l] eqn:Hfirst;
      destruct (firstExisting_result h _ _ _ _ Hfirst) as [-> Hp].
    + rewrite bind_normal_nil. cbn. intros [= <- <-].
      destruct (Hp p eq_refl) as (ext & Hin & -> & Hext).
      right. left. exists ext. repeat split; assumption.
    + rewrite bind_normal_nil. cbn. intros [= <- <-]. left. split; reflexivity.
    + rewrite bind_throw. cbn. intros [= <- <-]. right. right. exists e.
      split; reflexivity.
  - unfold Resolver.resolveRelative. fold resolved. rewrite Hex.
    unfold lift. rewrite bind_throw. cbn. intros [= <- <-]. right. right. exists e.
    split; reflexivity.
Qed.

(** [./lib] in the tree with an index file: the directory. *)
Lemma relative_answer_shape_witness :
  (Normal (Some "/r/lib") = Normal (Some (Path.resolve Sample.withIndex
                                            [Path.dirname "/r/a.ts"; "./lib"]))
   /\ @nil LogEntry = []) \/
  (exists ext,
     In ext Resolver.extensions /\
     Normal (Some "/r/lib")
     = Normal (Some (Resolver.extensionBase
                       (Path.resolve Sample.withIndex [Path.dirname "/r/a.ts"; "./lib"])
                     +++ ext)) /\
     @nil LogEntry = [] /\
     existsSync Sample.withIndex
       (Path.resolve Sample.withIndex [Path.dirname "/r/a.ts"; "./lib"]) = Normal false /\
     existsSync Sample.withIndex
       (Resolver.extensionBase
          (Path.resolve Sample.withIndex [Path.dirname "/r/a.ts"; "./lib"]) +++ ext)
     = Normal true) \/
  (exists e,
     Normal (Some "/r/lib") = Normal None /\
     [] = [ConsoleError ("Error resolving import path '" +++ "./lib"
                         +++ "' in '" +++ "/r/a.ts" +++ "':") e]).
Proof.
  apply (relative_answer_shape Sample.withIndex "/r/a.ts" "./lib" None None);
    reflexivity.
Defined.



Lemma resolveWithImportMap_silent (h : Host) (importerPath importPath : string)
    (importMap : option ImportMap) :
  snd (Resolver.resolveWithImportMap h importerPath importPath importMap) = [].
Proof.
  unfold Resolver.resolveWithImportMap.
  destruct importMap as [[[entries |] sc] |]; try reflexivity.
  destruct (Resolver.getProperty entries importPath) as [value | |]; try reflexivity.
  - destruct (JsString.truthy value); rewrite bind_ret; [reflexivity |].
    destruct (Resolver.prefixEntry entries importPath) as [[prefix repl] |]; reflexivity.
  - rewrite bind_ret.
    destruct (Resolver.prefixEntry entries importPath) as [[prefix repl] |]; reflexivity.
Qed.

Lemma resolveWithTsConfig_silent (h : Host) (importerPath importPath : string)
    (tsConfig : option TsConfig) :
  snd (Resolver.resolveWithTsConfig h importerPath importPath tsConfig) = [].
Proof.
  unfold Resolver.resolveWithTsConfig.
  destruct tsConfig as [[[[[base |] [entries |]] |]] |]; try reflexivity.
  destruct (JsString.truthy base); [| reflexivity].
  rewrite PatternFacts.matchPaths_literal. reflexivity.
Qed.

(** X17.  An answer that comes from the import map or from the path
    mapping is not checked against the file system: it is returned as it
    is computed, and it is the same on every host with the same working
    directory, also on one where nothing exists. *)
Theorem alias_answers_are_not_checked (h h' : Host) (importerPath importPath : string)
    (importMap : option ImportMap) (tsConfig : option TsConfig) (p : string) :
  cwd h = cwd h' ->
  fst (Resolver.resolveWithImportMap h importerPath importPath importMap)
    = Normal (Some p) \/
  (Resolver.resolveWithImportMap h importerPath importPath importMap = ret None /\
   fst (Resolver.resolveWithTsConfig h importerPath importPath tsConfig)
     = Normal (Some p)) ->
  Resolver.resolveImportPath h importerPath importPath importMap tsConfig
    = (Normal (Some p), []) /\
  Resolver.resolveImportPath h' importerPath importPath importMap tsConfig
    = (Normal (Some p), []).
Proof.
  intros Hcwd Hanswer.
  assert (Hh : Resolver.resolveImportPath h importerPath importPath importMap tsConfig
               = (Normal (Some p), [])).
  { apply resolveImportPath_of_body. unfold Resolver.resolveImportPathBody.
    pose proof (resolveWithImportMap_silent h importerPath importPath importMap) as Hs1.
    pose proof (resolveWithTsConfig_silent h importerPath importPath tsConfig) as Hs2.
    destruct Hanswer as [Him | [Him Hts]].
    - destruct (Resolver.resolveWithImportMap h importerPath importPath importMap)
        as [r1 l1]. cbn [fst snd] in Him, Hs1. subst r1 l1.
      rewrite bind_normal_nil. reflexivity.
    - rewrite Him, bind_ret.
      destruct (Resolver.resolveWithTsConfig h importerPath importPath tsConfig)
        as [r2 l2]. cbn [fst snd] in Hts, Hs2. subst r2 l2.
      rewrite bind_normal_nil. reflexivity. }
  split; [exact Hh |].
  rewrite <- Hh. unfold Resolver.resolveImportPath, Resolver.resolveImportPathBody.
  rewrite <- (resolveWithImportMap_cwd h h' importerPath importPath importMap Hcwd).
  rewrite <- (resolveWithTsConfig_cwd h h' importerPath importPath tsConfig Hcwd).
  pose proof (resolveWithImportMap_silent h importerPath importPath importMap) as Hs1.
  pose proof (resolveWithTsConfig_silent h importerPath importPath tsConfig) as Hs2.
  destruct Hanswer as [Him | [Him Hts]].
  - destruct (Resolver.resolveWithImportMap h importerPath importPath importMap)
      as [r1 l1]. cbn [fst snd] in Him, Hs1. subst r1 l1.
    rewrite !bind_normal_nil. reflexivity.
  - rewrite Him, !bind_ret.
    destruct (Resolver.resolveWithTsConfig h importerPath importPath tsConfig)
      as [r2 l2]. cbn [fst snd] in Hts, Hs2. subst r2 l2.
    rewrite !bind_normal_nil. reflexivity.
Qed.

(** The key [ghost] of an import map names a file that is not there. *)
Lemma alias_answers_are_not_checked_witness :
  Resolver.resolveImportPath Sample.fixtures "/r/a.ts" "ghost"
    (Some (mkImportMap (Some [("ghost", "./ghost.ts")]) None)) None
  = (Normal (Some "/r/ghost.ts"), []) /\
  Resolver.resolveImportPath (Sample.host []) "/r/a.ts" "ghost"
    (Some (mkImportMap (Some [("ghost", "./ghost.ts")]) None)) None
  = (Normal (Some "/r/ghost.ts"), []).
Proof.
  apply (alias_answers_are_not_checked Sample.fixtures (Sample.host []));
    [reflexivity | left; reflexivity].
Defined.



(** ** What [scan] returns and how it fails *)

Lemma cached_empty (rt : Runtime) (p : string) :
  Notions.cached rt (Scanner.mkState [] [] []) p = false.
Proof. unfold Notions.cached. destruct (Notions.inodeOf rt p); reflexivity. Qed.

(** X19.  The files [scan] returns are entries of the walk, in the order
    of the walk and without repetition, and they are exactly the entries
    with a listed extension and matched by no ignore pattern that stand
    at a place where neither their path nor another path with their
    inode number came before. *)
Theorem scan_returns_first_occurrences (rt : Runtime) (rootPath : string)
    (options : ScannerOptions.t) (ignoreRegexes : list (string -> bool))
    (files : list string) :
  Scanner.compilePatterns rt
    (Scanner.orDefault (ScannerOptions.ignore options) Scanner.defaultIgnore)
  = Normal ignoreRegexes ->
  Scanner.scan rt rootPath options = Normal files ->
  let entries := fst (walk rt rootPath (Scanner.walkOptions options)) in
  let extensions :=
    Scanner.orDefault (ScannerOptions.extensions options) Scanner.defaultExtensions in
  Notions.Subsequence files entries /\
  NoDup files /\
  forall p, In p files <->
    exists pre post,
      entries = pre ++ p :: post /\
      Notions.metBefore rt pre p = false /\
      Notions.passesFilters rt rootPath extensions ignoreRegexes p = true.
Proof.
  intros Hcompile. rewrite (scan_unfold rt rootPath options ignoreRegexes Hcompile).
  destruct (Scanner.visitAll _ _ _ _ _ _) as [st | e] eqn:Hloop; [| discriminate].
  destruct (snd (walk rt rootPath (Scanner.walkOptions options))); [discriminate |].
  intros [= <-] entries extensions.
  destruct (visitAll_spec rt rootPath extensions ignoreRegexes entries
              (Scanner.mkState [] [] []) st)
    as (kept & Hkept & Hsub & Hnd & _ & Hin); [intros x n [] | exact Hloop |].
  cbn [Scanner.matchedFiles app] in Hkept. rewrite Hkept.
  split; [exact Hsub |]. split; [exact Hnd |].
  intros p. rewrite Hin. split.
  - intros (pre & post & Heq & _ & Hmet & Hpass). now exists pre, post.
  - intros (pre & post & Heq & Hmet & Hpass). exists pre, post.
    split; [exact Heq |]. split; [apply cached_empty |].
    split; [exact Hmet | exact Hpass].
Qed.

(** Of the five entries of [linked] one is returned. *)
Lemma scan_returns_first_occurrences_witness :
  Scanner.scan Scenario.linked "/r" Scenario.noOptions = Normal ["/r/b.ts"] /\
  Notions.Subsequence ["/r/b.ts"]
    ["/r/notes.txt"; "/r/a.ts"; "/r/b.ts"; "/r/node_modules/m.js"; "/r/b.ts"] /\
  NoDup ["/r/b.ts"].
Proof.
  split; [reflexivity |].
  destruct (scan_returns_first_occurrences Scenario.linked "/r" Scenario.noOptions
              [String.eqb "node_modules"; String.eqb "dist"] ["/r/b.ts"]
              eq_refl eq_refl) as (Hsub & Hnd & _).
  split; [exact Hsub | exact Hnd].
Defined.

Lemma first_occurrence (p : string) (pre post pre' post' : list string) :
  pre ++ p :: post = pre' ++ p :: post' ->
  ~ In p pre -> pre' = pre \/ exists mid, pre' = pre ++ p :: mid.
Proof.
  revert pre'. induction pre as [| x pre IH]; intros pre' Heq Hnot.
  - destruct pre' as [| y pre']; [now left |].
    cbn [app] in Heq. injection Heq as <- _. right. now exists pre'.
  - destruct pre' as [| y pre']; cbn [app] in Heq; injection Heq as Hxy Heq.
    + subst x. elim Hnot. now left.
    + subst y. destruct (IH pre' Heq) as [-> | [mid ->]].
      * intros Hin. apply Hnot. now right.
      * now left.
      * right. now exists mid.
Qed.

(** X20.  A file is left out when an earlier entry of the walk has its
    inode number, also when that entry was itself filtered out: the
    inode number of an entry is remembered before its extension and the
    ignore patterns are looked at.  So of two names of one file only the
    first that the walk yields can be returned. *)
Theorem earlier_name_hides_file (rt : Runtime) (rootPath : string)
    (options : ScannerOptions.t) (files : list string)
    (before : list string) (p : string) (after : list string) (q : string) (n : nat) :
  Scanner.scan rt rootPath options = Normal files ->
  fst (walk rt rootPath (Scanner.walkOptions options)) = before ++ p :: after ->
  ~ In p before ->
  In q before ->
  Notions.inodeOf rt q = Some n ->
  Notions.inodeOf rt p = Some n ->
  ~ In p files.
Proof.
  intros Hscan Hentries Hfirst Hq Hnq Hnp Hin.
  destruct (Scanner.compilePatterns rt
              (Scanner.orDefault (ScannerOptions.ignore options) Scanner.defaultIgnore))
    as [ignoreRegexes | e] eqn:Hcompile.
  2: { unfold Scanner.scan in Hscan. rewrite Hcompile in Hscan. discriminate. }
  rewrite (scan_unfold rt rootPath options ignoreRegexes Hcompile) in Hscan.
  destruct (Scanner.visitAll _ _ _ _ _ _) as [st | e] eqn:Hloop; [| discriminate].
  destruct (snd (walk rt rootPath (Scanner.walkOptions options))); [discriminate |].
  injection Hscan as <-.
  destruct (visitAll_spec rt rootPath
              (Scanner.orDefault (ScannerOptions.extensions options)
                 Scanner.defaultExtensions)
              ignoreRegexes
              (fst (walk rt rootPath (Scanner.walkOptions options)))
              (Scanner.mkState [] [] []) st)
    as (kept & Hkept & _ & _ & _ & Hchar); [intros x n0 [] | exact Hloop |].
  cbn [Scanner.matchedFiles app] in Hkept. rewrite Hkept in Hin.
  apply Hchar in Hin as (pre & post & Heq & _ & Hmet & _).
  rewrite Hentries in Heq.
  assert (Hqpre : In q pre).
  { destruct (first_occurrence p before after pre post Heq Hfirst) as [-> | [mid ->]];
      [exact Hq | apply in_or_app; now left]. }
  unfold Notions.metBefore in Hmet.
  assert (Htrue : existsb (fun q0 => (p =? q0)%string || Notions.sameInode rt q0 p) pre
                  = true).
  { apply existsb_exists. exists q. split; [exact Hqpre |].
    unfold Notions.sameInode. rewrite Hnq, Hnp, Nat.eqb_refl. apply orb_true_r. }
  congruence.
Qed.

(** [a.ts] is a second name of [notes.txt], which the walk of [linked]
    yields first and which has no listed extension. *)
Lemma earlier_name_hides_file_witness :
  Scanner.scan Scenario.linked "/r" Scenario.noOptions = Normal ["/r/b.ts"] /\
  Notions.passesFilters Scenario.linked "/r" Scanner.defaultExtensions
    [String.eqb "node_modules"; String.eqb "dist"] "/r/a.ts" = true /\
  Notions.passesFilters Scenario.linked "/r" Scanner.defaultExtensions
    [String.eqb "node_modules"; String.eqb "dist"] "/r/notes.txt" = false /\
  ~ In "/r/a.ts" ["/r/b.ts"].
Proof.
  split; [reflexivity |]. split; [reflexivity |]. split; [reflexivity |].
  apply (earlier_name_hides_file Scenario.linked "/r" Scenario.noOptions ["/r/b.ts"]
           ["/r/notes.txt"] "/r/a.ts" ["/r/b.ts"; "/r/node_modules/m.js"; "/r/b.ts"]
           "/r/notes.txt" 7); try reflexivity.
  - intros [H | []]. discriminate.
  - now left.
Defined.

(** X21.  [scan] returns a list only when every entry of the walk can be
    inspected and the walk ends without error.  Otherwise it throws and
    nothing of what it found is returned: the error of the first entry
    that cannot be inspected, or else the error of the walk; and when
    that error is [NotFound], whatever path it is about, a plain error
    [Path not found:] with the root takes its place. *)
Theorem scan_failures (rt : Runtime) (rootPath : string)
    (options : ScannerOptions.t) (ignoreRegexes : list (string -> bool)) :
  Scanner.compilePatterns rt
    (Scanner.orDefault (ScannerOptions.ignore options) Scanner.defaultIgnore)
  = Normal ignoreRegexes ->
  let entries := fst (walk rt rootPath (Scanner.walkOptions options)) in
  let failure := snd (walk rt rootPath (Scanner.walkOptions options)) in
  (forall pre p post e,
     entries = pre ++ p :: post ->
     (forall q, In q pre -> exists fileInfo, stat rt q = Normal fileInfo) ->
     stat rt p = Throw e ->
     Scanner.scan rt rootPath options = Throw (Notions.scanFailure rootPath e)) /\
  (forall e,
     (forall q, In q entries -> exists fileInfo, stat rt q = Normal fileInfo) ->
     failure = Some e ->
     Scanner.scan rt rootPath options = Throw (Notions.scanFailure rootPath e)) /\
  ((forall q, In q entries -> exists fileInfo, stat rt q = Normal fileInfo) ->
   failure = None ->
   exists files, Scanner.scan rt rootPath options = Normal files).
Proof.
  intros Hcompile entries failure.
  rewrite (scan_unfold rt rootPath options ignoreRegexes Hcompile).
  fold entries failure. split; [| split].
  - intros pre p post e -> Hpre Hp.
    now rewrite (visitAll_throws rt rootPath _ ignoreRegexes pre p post e Hpre Hp).
  - intros e Hall ->.
    destruct (visitAll_completes rt rootPath
                (Scanner.orDefault (ScannerOptions.extensions options)
                   Scanner.defaultExtensions)
                ignoreRegexes entries Hall (Scanner.mkState [] [] [])) as [st ->].
    reflexivity.
  - intros Hall ->.
    destruct (visitAll_completes rt rootPath
                (Scanner.orDefault (ScannerOptions.extensions options)
                   Scanner.defaultExtensions)
                ignoreRegexes entries Hall (Scanner.mkState [] [] [])) as [st ->].
    now exists (Scanner.matchedFiles st).
Qed.

(** One link to a file that is gone, after [b.ts]: the root is there and
    the scan says that it is not. *)
Lemma scan_failures_witness :
  statSync (host Scenario.dangling) "/r" = Normal (mkFileInfo true) /\
  Scanner.scan Scenario.dangling "/r" Scenario.noOptions
  = Throw (mkError GenericError "Path not found: /r").
Proof.
  split; [reflexivity |].
  apply (proj1 (scan_failures Scenario.dangling "/r" Scenario.noOptions
                  [String.eqb "node_modules"; String.eqb "dist"] eq_refl)
           ["/r/b.ts"] "/r/dangling.ts" [] Sample.noSuchFile eq_refl).
  - intros q [<- | []]. eexists. reflexivity.
  - reflexivity.
Defined.

(** X22.  An ignore pattern that matches the path of a directory, taken
    relative to the root, hides everything below that directory: no file
    whose relative path goes through it is returned. *)
Theorem ignored_directory_hides_what_is_below (rt : Runtime) (rootPath : string)
    (options : ScannerOptions.t) (ignoreRegexes : list (string -> bool))
    (files : list string) (regex : string -> bool) (dir below p : string) :
  Scanner.compilePatterns rt
    (Scanner.orDefault (ScannerOptions.ignore options) Scanner.defaultIgnore)
  = Normal ignoreRegexes ->
  Scanner.scan rt rootPath options = Normal files ->
  In regex ignoreRegexes ->
  regex dir = true ->
  Path.relative (host rt) rootPath p = dir +++ "/" +++ below ->
  ~ In p files.
Proof.
  intros Hcompile Hscan Hregex Hdir Hrel Hin.
  rewrite (scan_unfold rt rootPath options ignoreRegexes Hcompile) in Hscan.
  destruct (Scanner.visitAll _ _ _ _ _ _) as [st | e] eqn:Hloop; [| discriminate].
  destruct (snd (walk rt rootPath (Scanner.walkOptions options))); [discriminate |].
  injection Hscan as <-.
  destruct (visitAll_spec rt rootPath
              (Scanner.orDefault (ScannerOptions.extensions options)
                 Scanner.defaultExtensions)
              ignoreRegexes
              (fst (walk rt rootPath (Scanner.walkOptions options)))
              (Scanner.mkState [] [] []) st)
    as (kept & Hkept & _ & _ & _ & Hchar); [intros x n0 [] | exact Hloop |].
  cbn [Scanner.matchedFiles app] in Hkept. rewrite Hkept in Hin.
  apply Hchar in Hin as (pre & post & _ & _ & _ & Hpass).
  unfold Notions.passesFilters in Hpass. rewrite Hrel in Hpass.
  rewrite (shouldIgnore_directory ignoreRegexes regex dir below Hregex Hdir) in Hpass.
  rewrite andb_false_r in Hpass. discriminate.
Qed.

(** [m.js] of the tree [linked] is below [node_modules]. *)
Lemma ignored_directory_hides_what_is_below_witness :
  Scanner.scan Scenario.linked "/r" Scenario.noOptions = Normal ["/r/b.ts"] /\
  Path.relative (host Scenario.linked) "/r" "/r/node_modules/m.js"
  = "node_modules" +++ "/" +++ "m.js" /\
  ~ In "/r/node_modules/m.js" ["/r/b.ts"].
Proof.
  split; [reflexivity |]. split; [reflexivity |].
  apply (ignored_directory_hides_what_is_below Scenario.linked "/r" Scenario.noOptions
           [String.eqb "node_modules"; String.eqb "dist"] ["/r/b.ts"]
           (String.eqb "node_modules") "node_modules" "m.js" "/r/node_modules/m.js");
    try reflexivity.
  now left.
Defined.

(** ** The command line *)

Section CliFacts.
Import Cli.

Lemma andThen_done {A B} (a : A) (f : A -> Process B) : andThen (done a) f = f a.
Proof. unfold andThen, done. destruct (f a) as [r out]. reflexivity. Qed.

Lemma andThen_outcome {A B} (m : Process A) (f : A -> Process B) :
  fst (andThen m f) =
  match fst m with
  | Done a => fst (f a)
  | Raised e => Raised e
  | Exited code => Exited code
  end.
Proof.
  destruct m as [[a | e | code] out]; cbn [andThen fst]; try reflexivity.
  destruct (f a) as [r out']. reflexivity.
Qed.

(** The [catch] of [main] turns every error into an exit with code 1. *)
Lemma main_outcome (rt : Runtime) (js : Output.Stringify)
    (parseArguments : Process CliOptions.t) :
  fst (main rt js parseArguments) =
  match fst (andThen parseArguments (search rt js)) with
  | Done tt => Done tt
  | Raised _ => Exited 1
  | Exited code => Exited code
  end.
Proof.
  unfold main, catch.
  destruct (andThen parseArguments (search rt js)) as [[[] | e | code] out];
    reflexivity.
Qed.

Lemma probeFile_true (rt : Runtime) (base : string) (exts : list string) :
  probeFile rt base exts = true <->
  exists ext fileInfo,
    In ext exts /\ stat rt (base +++ ext) = Normal fileInfo /\ isFile fileInfo = true.
Proof.
  induction exts as [| ext more IH]; cbn [probeFile].
  - split; [discriminate | intros (ext & fileInfo & [] & _)].
  - destruct (stat rt (base +++ ext)) as [fileInfo | e] eqn:Hstat.
    + destruct (isFile fileInfo) eqn:Hfile.
      * split; [| reflexivity]. intros _. exists ext, fileInfo. now split; [left |].
      * rewrite IH. split.
        -- intros (x & s & Hin & Hrest). exists x, s. split; [now right | exact Hrest].
        -- intros (x & s & [<- | Hin] & Hs & Hf); [congruence |].
           exists x, s. now split.
    + rewrite IH. split.
      * intros (x & s & Hin & Hrest). exists x, s. split; [now right | exact Hrest].
      * intros (x & s & [<- | Hin] & Hs & Hf); [congruence |].
        exists x, s. now split.
Qed.

End CliFacts.

(** X23.  [validateArguments] lets a run go on exactly when the root is
    a directory and the target either is a file or a directory or is not
    there while its base, with one of the six extensions, names a file.
    Every refusal is an exit with code 1 after one line on the error
    stream; an error of an inspection other than [NotFound] is thrown on,
    with nothing written. *)
Theorem validateArguments_outcomes (rt : Runtime) (options : CliOptions.t) :
  let target := CliOptions.target options in
  let root := CliOptions.root options in
  (fst (Cli.validateArguments rt options) = Done tt <->
   ((exists fileInfo, stat rt target = Normal fileInfo /\
                      (isFile fileInfo || isDir fileInfo) = true) \/
    (exists e ext fileInfo,
       stat rt target = Throw e /\ isNotFound e = true /\
       In ext Resolver.extensions /\
       stat rt (Resolver.extensionBase target +++ ext) = Normal fileInfo /\
       isFile fileInfo = true)) /\
   (exists fileInfo, stat rt root = Normal fileInfo /\ isDir fileInfo = true)) /\
  (forall code, fst (Cli.validateArguments rt options) = Exited code ->
     code = 1 /\ exists line, snd (Cli.validateArguments rt options) = [StdErr [line]]) /\
  (forall e, fst (Cli.validateArguments rt options) = Raised e ->
     isNotFound e = false /\ snd (Cli.validateArguments rt options) = [] /\
     (stat rt target = Throw e \/ stat rt root = Throw e)).
Proof.
  intros target root. unfold Cli.validateArguments, Cli.checkTarget, Cli.checkRoot.
  fold target root.
  pose proof (probeFile_true rt (Resolver.extensionBase target) Resolver.extensions)
    as Hprobe.
  assert (Hroot :
    forall (P : Process unit -> Prop),
      (forall fileInfo, stat rt root = Normal fileInfo -> isDir fileInfo = true ->
         P (Done tt, [])) ->
      (forall line, (forall fileInfo, stat rt root = Normal fileInfo ->
                       isDir fileInfo = false) ->
         P (Exited 1, [StdErr [line]])) ->
      (forall e, stat rt root = Throw e -> isNotFound e = false -> P (Raised e, [])) ->
      P (match stat rt root with
         | Normal fileInfo =>
             if negb (isDir fileInfo) then
               Cli.andThen (Cli.consoleError ["Error: root '" +++ root
                                              +++ "' is not a directory"])
                 (fun _ => Cli.exit 1)
             else Cli.done tt
         | Throw error =>
             if isNotFound error then
               Cli.andThen (Cli.consoleError ["Error: root directory '" +++ root
                                              +++ "' not found"])
                 (fun _ => Cli.exit 1)
             else Cli.raise error
         end)).
  { intros P Hdone Hexit Hraise.
    destruct (stat rt root) as [fileInfo | e].
    - destruct (isDir fileInfo) eqn:Hdir; cbn [negb].
      + now apply (Hdone fileInfo).
      + apply Hexit. intros s [= <-]. exact Hdir.
    - destruct (isNotFound e) eqn:Hnf.
      + apply Hexit. intros s Hs. discriminate.
      + now apply Hraise. }
  destruct (stat rt target) as [fileInfo | e] eqn:Htarget.
  - destruct (isFile fileInfo) eqn:Hfile; cbn [negb andb orb].
    + rewrite andThen_done. apply Hroot.
      * intros s Hs Hdir. split; [| split]; try discriminate.
        split; [| reflexivity]. intros _. split; [| now exists s].
        left. exists fileInfo. now rewrite Hfile.
      * intros line Hnot. split; [| split]; try discriminate.
        -- split; [discriminate |]. intros [_ (s & Hs & Hdir)].
           rewrite (Hnot s Hs) in Hdir. discriminate.
        -- intros code [= <-]. split; [reflexivity | now exists line].
      * intros e Hs Hnf. split; [| split]; try discriminate.
        -- split; [discriminate |]. intros [_ (s & Hs' & _)]. congruence.
        -- intros e' [= <-]. split; [exact Hnf |]. split; [reflexivity | now right].
    + destruct (isDir fileInfo) eqn:Hdir; cbn [negb].
      * rewrite andThen_done. apply Hroot.
        -- intros s Hs Hd. split; [| split]; try discriminate.
           split; [| reflexivity]. intros _. split; [| now exists s].
           left. exists fileInfo. now rewrite Hfile, Hdir.
        -- intros line Hnot. split; [| split]; try discriminate.
           ++ split; [discriminate |]. intros [_ (s & Hs & Hd)].
              rewrite (Hnot s Hs) in Hd. discriminate.
           ++ intros code [= <-]. split; [reflexivity | now exists line].
        -- intros e Hs Hnf. split; [| split]; try discriminate.
           ++ split; [discriminate |]. intros [_ (s & Hs' & _)]. congruence.
           ++ intros e' [= <-]. split; [exact Hnf |]. split; [reflexivity | now right].
      * cbn. split; [| split]; try discriminate.
        -- split; [discriminate |].
           intros [[(s & [= <-] & Hs) | (e & ext & s & He & _)] _]; [| discriminate].
           rewrite Hfile, Hdir in Hs. discriminate.
        -- intros code [= <-]. split; [reflexivity |]. eexists. reflexivity.
  - destruct (isNotFound e) eqn:Hnf.
    + destruct (Cli.probeFile rt (Resolver.extensionBase target) Resolver.extensions)
        eqn:Hfound.
      * rewrite andThen_done. destruct (proj1 Hprobe eq_refl) as (ext & s0 & Hin & Hs0 & Hf0).
        apply Hroot.
        -- intros s Hs Hd. split; [| split]; try discriminate.
           split; [| reflexivity]. intros _. split; [| now exists s].
           right. exists e, ext, s0. repeat split; assumption.
        -- intros line Hnot. split; [| split]; try discriminate.
           ++ split; [discriminate |]. intros [_ (s & Hs & Hd)].
              rewrite (Hnot s Hs) in Hd. discriminate.
           ++ intros code [= <-]. split; [reflexivity | now exists line].
        -- intros e' Hs Hnf'. split; [| split]; try discriminate.
           ++ split; [discriminate |]. intros [_ (s & Hs' & _)]. congruence.
           ++ intros e'' [= <-]. split; [exact Hnf' |]. split; [reflexivity | now right].
      * cbn. split; [| split]; try discriminate.
        -- split; [discriminate |].
           intros [[(s & Hs & _) | (e' & ext & s & _ & _ & Hin & Hs & Hf)] _];
             [discriminate |].
           assert (Htrue : false = true) by (apply Hprobe; now exists ext, s).
           discriminate.
        -- intros code [= <-]. split; [reflexivity |]. eexists. reflexivity.
    + cbn. split; [| split]; try discriminate.
      * split; [discriminate |].
        intros [[(s & Hs & _) | (e' & ext & s & [= <-] & Hnf' & _)] _];
          [discriminate | congruence].
      * intros e' [= <-]. split; [exact Hnf |]. split; [reflexivity | now left].
Qed.

(** In the tree [twice] the target [lib/util] is found as [lib/util.ts];
    the root [/r/button.tsx] is refused. *)
Lemma validateArguments_outcomes_witness :
  fst (Cli.validateArguments Scenario.twice (Scenario.options "/r/lib/util" "/r"))
  = Done tt /\
  Cli.validateArguments Scenario.twice (Scenario.options "/r/twice.ts" "/r/button.tsx")
  = (Exited 1, [StdErr ["Error: root '/r/button.tsx' is not a directory"]]).
Proof.
  split.
  - apply (proj1 (validateArguments_outcomes Scenario.twice
                    (Scenario.options "/r/lib/util" "/r"))).
    split.
    + right. exists Sample.noSuchFile, ".ts", (mkStat true false None).
      repeat split; try reflexivity. now left.
    + exists (mkStat false true None). split; reflexivity.
  - reflexivity.
Defined.

Lemma validateArguments_shape (rt : Runtime) (options : CliOptions.t) :
  match Cli.validateArguments rt options with
  | (Done _, out) => out = []
  | (Raised _, out) => out = []
  | (Exited code, _) => code = 1
  end.
Proof.
  unfold Cli.validateArguments, Cli.checkTarget, Cli.checkRoot.
  destruct (stat rt (CliOptions.target options)) as [s | e];
    [destruct (isFile s), (isDir s)
    | destruct (isNotFound e);
      [destruct (Cli.probeFile rt _ Resolver.extensions) |]];
    cbn; try reflexivity;
    (destruct (stat rt (CliOptions.root options)) as [s' | e'];
     [destruct (isDir s') | destruct (isNotFound e')]); cbn; reflexivity.
Qed.

(** X24.  [main] needs the target as it is written: when the inspection
    of that path fails, the run ends with exit code 1, whatever the
    cause, also when [validateArguments] has just accepted the target
    because its base exists with another extension; in that case the one
    line printed is [Error:] with the message of the failed inspection,
    and nothing is searched. *)
Theorem main_needs_the_target_as_written (rt : Runtime) (js : Output.Stringify)
    (parseArguments : Process CliOptions.t) (options : CliOptions.t)
    (out : list Printed) (e : JsError) :
  parseArguments = (Done options, out) ->
  stat rt (CliOptions.target options) = Throw e ->
  fst (Cli.main rt js parseArguments) = Exited 1 /\
  (fst (Cli.validateArguments rt options) = Done tt ->
   Cli.main rt js parseArguments = (Exited 1, out ++ [StdErr ["Error:"; message e]])).
Proof.
  intros -> Hstat.
  pose proof (validateArguments_shape rt options) as Hshape.
  unfold Cli.main. cbn [Cli.andThen]. unfold Cli.search.
  destruct (Cli.validateArguments rt options) as [[[] | e' | code] out'];
    cbn [Cli.andThen] in Hshape |- *; subst.
  - rewrite Hstat. cbn. split; [reflexivity |]. intros _.
    now rewrite app_nil_r.
  - cbn. split; [reflexivity |]. discriminate.
  - cbn. split; [reflexivity |]. discriminate.
Qed.

(** The target [/r/lib/util] of the tree [twice]. *)
Lemma main_needs_the_target_as_written_witness :
  fst (Cli.validateArguments Scenario.twice (Scenario.options "/r/lib/util" "/r"))
  = Done tt /\
  Cli.main Scenario.twice Scenario.noJson
    (Done (Scenario.options "/r/lib/util" "/r"), [])
  = (Exited 1, [StdErr ["Error:"; "No such file or directory (os error 2)"]]).
Proof.
  split; [reflexivity |].
  exact (proj2 (main_needs_the_target_as_written Scenario.twice Scenario.noJson
                  (Done (Scenario.options "/r/lib/util" "/r"), [])
                  (Scenario.options "/r/lib/util" "/r") [] Sample.noSuchFile
                  eq_refl eq_refl) eq_refl).
Defined.

Lemma formatText_lines (target root : string) (importers : list string) :
  let lines := Output.formatText
                 (ImporterResult.mk target root (length importers) importers) in
  length lines = (if (length importers =? 0)%nat then 1 else length importers + 2) /\
  map (JsString.slice 2) (skipn 2 lines) = importers.
Proof.
  unfold Output.formatText.
  cbn [ImporterResult.count ImporterResult.importers ImporterResult.target].
  destruct importers as [| x importers]; [split; reflexivity |].
  set (l := x :: importers). cbn [length Nat.eqb Nat.ltb Nat.leb].
  change (length l) with (S (length importers)).
  cbn [Nat.eqb Nat.ltb Nat.leb length skipn]. rewrite length_map. split.
  - subst l. cbn [length]. lia.
  - rewrite map_map. clear. induction l as [| y l IH]; [reflexivity |].
    cbn [map]. rewrite IH. reflexivity.
Qed.

(** X25.  For a target that is a file, when the arguments are accepted
    and the scan and the search succeed, [main] returns and prints, after
    what the search wrote, the output for its matches.  In text form
    that is a summary line, and, when there is a match, the line
    [Importers:] and then the source file of every match in order, two
    spaces before each: the number of the summary is the number of
    matching import statements, and a file with two of them is listed
    twice. *)
Theorem main_reports_matches (rt : Runtime) (js : Output.Stringify)
    (parseArguments : Process CliOptions.t) (options : CliOptions.t)
    (out : list Printed) (fileInfo : Stat) (files : list string)
    (importers : list ResolvedImport.t) (log : list LogEntry) :
  parseArguments = (Done options, out) ->
  fst (Cli.validateArguments rt options) = Done tt ->
  stat rt (CliOptions.target options) = Normal fileInfo ->
  isDir fileInfo = false ->
  Scanner.scan rt (CliOptions.root options) (Cli.scannerOptions options)
  = Normal files ->
  Matcher.findImporters (host rt) (CliOptions.target options) files
    (CliOptions.root options) = (Normal importers, log) ->
  let lines := Output.formatOutput js (Cli.importerResult options importers)
                 (CliOptions.json options) in
  Cli.main rt js parseArguments
  = (Done tt, out ++ map Diagnostic log ++ map StdOut lines) /\
  (CliOptions.json options = false ->
   length lines = (if (length importers =? 0)%nat then 1 else length importers + 2) /\
   map (JsString.slice 2) (skipn 2 lines)
   = map ResolvedImport.sourceFile importers).
Proof.
  intros -> Hvalid Hstat Hdir Hscan Hfind lines. split.
  - pose proof (validateArguments_shape rt options) as Hshape.
    unfold Cli.main. cbn [Cli.andThen]. unfold Cli.search.
    destruct (Cli.validateArguments rt options) as [[[] | e' | code] out'];
      try discriminate.
    cbn [Cli.andThen] in Hshape |- *. subst out'.
    rewrite Hstat. cbn [Cli.ofCompletion Cli.andThen]. rewrite Hscan.
    cbn [Cli.ofCompletion Cli.andThen]. rewrite Hdir, Hfind. fold lines.
    cbn [Cli.ofM Cli.consoleLog Cli.catch Cli.andThen app]. reflexivity.
  - intros Hjson. unfold lines, Output.formatOutput, Cli.importerResult.
    rewrite Hjson.
    pose proof (formatText_lines (CliOptions.target options) (CliOptions.root options)
                  (map ResolvedImport.sourceFile importers)) as Hlines.
    cbv zeta in Hlines. cbv zeta. rewrite !length_map in Hlines.
    rewrite !length_map. exact Hlines.
Qed.

(** [twice.ts] imports the target in two statements. *)
Lemma main_reports_matches_witness :
  Cli.main Scenario.twice Scenario.noJson
    (Done (Scenario.options "/r/button.tsx" "/r"), [])
  = (Done tt,
     [StdOut ("2 files import " +++ Output.inQuotes "/r/button.tsx" +++ ":");
      StdOut "Importers:"; StdOut "  /r/twice.ts"; StdOut "  /r/twice.ts"]).
Proof.
  exact (proj1 (main_reports_matches Scenario.twice Scenario.noJson
                  (Done (Scenario.options "/r/button.tsx" "/r"), [])
                  (Scenario.options "/r/button.tsx" "/r") []
                  (mkStat true false None)
                  ["/r/button.tsx"; "/r/lib/util.ts"; "/r/twice.ts"]
                  [ResolvedImport.mk "/r/twice.ts" "./button.tsx" "/r/button.tsx" 1;
                   ResolvedImport.mk "/r/twice.ts" "./button.tsx" "/r/button.tsx" 3]
                  [] eq_refl eq_refl eq_refl eq_refl eq_refl eq_refl)).
Defined.

(** X26.  [main] lets no error out and claims no success it has not
    had: a run ends either by returning or by an exit, the exit code of
    a failure is 1 unless the parsing of the arguments chose another,
    and the run returns only when the arguments were parsed and accepted,
    the target could be inspected, the scan returned its files and the
    search, for a file or for a directory, returned its result. *)
Theorem main_outcomes (rt : Runtime) (js : Output.Stringify)
    (parseArguments : Process CliOptions.t) :
  (forall e, fst (Cli.main rt js parseArguments) <> Raised e) /\
  (forall code, fst (Cli.main rt js parseArguments) = Exited code ->
     code = 1 \/ fst parseArguments = Exited code) /\
  (fst (Cli.main rt js parseArguments) = Done tt ->
   exists options out fileInfo files,
     parseArguments = (Done options, out) /\
     fst (Cli.validateArguments rt options) = Done tt /\
     stat rt (CliOptions.target options) = Normal fileInfo /\
     Scanner.scan rt (CliOptions.root options) (Cli.scannerOptions options)
     = Normal files /\
     if isDir fileInfo
     then exists result,
            fst (Matcher.findDirectoryImporters (host rt) (CliOptions.target options)
                   files (CliOptions.root options)) = Normal result
     else exists importers,
            fst (Matcher.findImporters (host rt) (CliOptions.target options)
                   files (CliOptions.root options)) = Normal importers).
Proof.
  unfold Cli.main.
  destruct parseArguments as [[options | e | code] out]; cbn [Cli.andThen Cli.catch fst].
  2: { repeat split; try discriminate. intros code [= <-]. now left. }
  2: { repeat split; try discriminate. intros code' [= <-]. now right. }
  pose proof (validateArguments_shape rt options) as Hshape.
  unfold Cli.search.
  destruct (Cli.validateArguments rt options) as [[[] | e | code] out1] eqn:Hvalid;
    cbn [Cli.andThen Cli.catch fst] in Hshape |- *.
  2: { repeat split; try discriminate. intros code [= <-]. now left. }
  2: { subst code. repeat split; try discriminate. intros code [= <-]. now left. }
  destruct (stat rt (CliOptions.target options)) as [fileInfo | e] eqn:Hstat;
    cbn [Cli.ofCompletion Cli.andThen Cli.catch fst].
  2: { repeat split; try discriminate. intros code [= <-]. now left. }
  destruct (Scanner.scan rt (CliOptions.root options) (Cli.scannerOptions options))
    as [files | e] eqn:Hscan; cbn [Cli.ofCompletion Cli.andThen Cli.catch fst].
  2: { repeat split; try discriminate. intros code [= <-]. now left. }
  destruct (isDir fileInfo) eqn:Hdir.
  - destruct (Matcher.findDirectoryImporters (host rt) (CliOptions.target options)
                files (CliOptions.root options)) as [[result | e] log] eqn:Hfind;
      cbn [Cli.ofM Cli.consoleLog Cli.andThen Cli.catch fst].
    + repeat split; try discriminate. intros _.
      exists options, out, fileInfo, files. rewrite Hdir.
      split; [reflexivity |]. split; [now rewrite Hvalid |].
      split; [exact Hstat |]. split; [exact Hscan |].
      exists result. now rewrite Hfind.
    + repeat split; try discriminate. intros code [= <-]. now left.
  - destruct (Matcher.findImporters (host rt) (CliOptions.target options)
                files (CliOptions.root options)) as [[importers | e] log] eqn:Hfind;
      cbn [Cli.ofM Cli.consoleLog Cli.andThen Cli.catch fst].
    + repeat split; try discriminate. intros _.
      exists options, out, fileInfo, files. rewrite Hdir.
      split; [reflexivity |]. split; [now rewrite Hvalid |].
      split; [exact Hstat |]. split; [exact Hscan |].
      exists importers. now rewrite Hfind.
    + repeat split; try discriminate. intros code [= <-]. now left.
Qed.

(** A run on the tree [twice] whose scan fails: the walk ends with an
    error. *)
Lemma main_outcomes_witness :
  Cli.main (Scenario.runtime Scenario.twiceTree [] ["/r/twice.ts"]
              (Some (mkError PermissionDenied "Permission denied (os error 13)")))
    Scenario.noJson (Done (Scenario.options "/r/button.tsx" "/r"), [])
  = (Exited 1, [StdErr ["Error:"; "Permission denied (os error 13)"]]) /\
  (1 = 1 \/
   fst (Done (Scenario.options "/r/button.tsx" "/r"), @nil Printed) = Exited 1).
Proof.
  split; [reflexivity |].
  apply (proj1 (proj2 (main_outcomes
           (Scenario.runtime Scenario.twiceTree [] ["/r/twice.ts"]
              (Some (mkError PermissionDenied "Permission denied (os error 13)")))
           Scenario.noJson (Done (Scenario.options "/r/button.tsx" "/r"), [])))).
  reflexivity.
Defined.

(** ** The text for a directory *)

Lemma importerLines_cons (line : string) (lines : list string) :
  Notions.importerLines (line :: lines) =
  if JsString.startsWith line " "
  then JsString.slice 1 line :: Notions.importerLines lines
  else Notions.importerLines lines.
Proof.
  unfold Notions.importerLines. cbn [filter].
  destruct (JsString.startsWith line " "); reflexivity.
Qed.

Lemma startsWith_space (s : string) : JsString.startsWith (" " +++ s) " " = true.
Proof.
  unfold JsString.startsWith. cbn [String.append String.prefix].
  destruct (ascii_dec " " " ") as [_ | Hne]; [apply prefix_nil | now elim Hne].
Qed.

Lemma importer_lines_kept (importers : list Importer.t) (rest : list string) :
  Notions.importerLines
    (map (fun importer => " " +++ Importer.sourceFile importer) importers ++ rest)
  = map Importer.sourceFile importers ++ Notions.importerLines rest.
Proof.
  induction importers as [| x importers IH]; [reflexivity |].
  cbn [map app]. rewrite importerLines_cons, startsWith_space, IH. reflexivity.
Qed.

Lemma groupLines_importers (groups : list ImportGroup.t) :
  forall i,
    Notions.importerLines (Output.groupLines i groups)
    = map Importer.sourceFile (flat_map ImportGroup.importers groups).
Proof.
  induction groups as [| g groups IH]; intros i; [reflexivity |].
  cbn [Output.groupLines flat_map]. rewrite map_app, <- (IH (S i)).
  destruct (i mod 2 =? 0)%nat; cbn [app]; rewrite !importerLines_cons;
    cbn [JsString.startsWith String.prefix String.append];
    apply importer_lines_kept.
Qed.

Lemma directory_result_count (h : Host) (targetDirectoryPath : string)
    (files : list string) (rootPath : string) (result : DirectoryImporterResult.t) :
  fst (Matcher.findDirectoryImporters h targetDirectoryPath files rootPath)
  = Normal result ->
  DirectoryImporterResult.count result = 0 ->
  DirectoryImporterResult.groups result = [].
Proof.
  destruct (findDirectoryImporters_unfold h targetDirectoryPath files rootPath)
    as [configLog ->].
  destruct (Matcher.checkTargetDirectory h targetDirectoryPath)
    as [[normalized | e] log]; [| discriminate].
  cbn [fst]. intros [= <-].
  cbn [DirectoryImporterResult.groups DirectoryImporterResult.count].
  set (pushed := flat_map _ files).
  destruct (collectGroups_invariant pushed) as (Hnd & Hne & _).
  destruct (sortedGroups_invariant h _ Hnd Hne) as (_ & Hfull & _).
  rewrite countImporters_sum. intros Hzero.
  destruct (Matcher.sortedGroups h _) as [| g groups]; [reflexivity |].
  inversion Hfull as [| ? ? Hg _]; subst. cbn [flat_map] in Hzero.
  rewrite length_app in Hzero. destruct (ImportGroup.importers g); [contradiction |].
  cbn [length] in Hzero. lia.
Qed.

(** X27.  The text for a directory loses no importer: whenever a result
    has groups only if its count is not zero, the lines of
    [formatDirectoryText] that start with a space are, without that
    space, the source files of the importers, group after group; and
    every result of [findDirectoryImporters] is such a result. *)
Theorem directory_text_lists_every_importer :
  (forall result,
     (DirectoryImporterResult.count result = 0 ->
      DirectoryImporterResult.groups result = []) ->
     Notions.importerLines (Output.formatDirectoryText result)
     = map Importer.sourceFile
         (flat_map ImportGroup.importers (DirectoryImporterResult.groups result))) /\
  (forall h targetDirectoryPath files rootPath result,
     fst (Matcher.findDirectoryImporters h targetDirectoryPath files rootPath)
     = Normal result ->
     Notions.importerLines (Output.formatDirectoryText result)
     = map Importer.sourceFile
         (flat_map ImportGroup.importers (DirectoryImporterResult.groups result))).
Proof.
  assert (Hgeneral : forall result,
    (DirectoryImporterResult.count result = 0 ->
     DirectoryImporterResult.groups result = []) ->
    Notions.importerLines (Output.formatDirectoryText result)
    = map Importer.sourceFile
        (flat_map ImportGroup.importers (DirectoryImporterResult.groups result))).
  { intros result Hzero. unfold Output.formatDirectoryText.
    destruct (Nat.eqb_spec (DirectoryImporterResult.count result) 0) as [Hc | Hc].
    - rewrite (Hzero Hc). reflexivity.
    - apply groupLines_importers. }
  split; [exact Hgeneral |].
  intros h targetDirectoryPath files rootPath result Hresult.
  apply Hgeneral. exact (directory_result_count h _ _ _ _ Hresult).
Qed.

(** The three importers of the tree [library], in two groups. *)
Lemma directory_text_lists_every_importer_witness :
  fst (Matcher.findDirectoryImporters Sample.library "/r/lib"
         ["/r/b.ts"; "/r/a.ts"] "/r") = Normal Scenario.libraryResult /\
  Output.formatDirectoryText Scenario.libraryResult
  = ["file x.ts imported by"; " /r/a.ts"; " /r/b.ts";
     "file y.ts"; "imported by"; " /r/b.ts"] /\
  Notions.importerLines (Output.formatDirectoryText Scenario.libraryResult)
  = map Importer.sourceFile
      (flat_map ImportGroup.importers
         (DirectoryImporterResult.groups Scenario.libraryResult)).
Proof.
  split; [vm_compute; reflexivity |]. split; [reflexivity |].
  apply (proj2 directory_text_lists_every_importer Sample.library "/r/lib"
           ["/r/b.ts"; "/r/a.ts"] "/r" Scenario.libraryResult).
  vm_compute. reflexivity.
Defined.
